(** * Dev Cockpit: quick actions, elevation gateway and the cleanup CLI

    A shallow embedding of the self-heal engine of dev-cockpit:
    - [internal/sudo/sudo.go] (the privilege escalation gateway),
    - the current [quickactions] module (the revision with bounded
      process runners: [runCommandWithTimeout] and friends),
    - [cmd/devcockpit/main.go], in its two revisions,
    - the cleanup run and [formatBytes] of the [cleanup] module, [Update]
      of the [network] module and [internal/ui/components/layout.go].

    External processes, the file system, the clock and the terminal are
    the environment: every interaction is a [Call] answered by an
    arbitrary deterministic operating system [sys].  A Go function
    becomes a computation in the monad [M], which threads the process
    state (the environment and the package variable [cachedPassword])
    and collects the calls it issued, in order.  Calls to the logger
    write to the log file (or to stderr) only and are left out. *)

From Stdlib Require Import ZArith List String Ascii Bool Lia.
From Stdlib Require Import DecimalString.
Import ListNotations.

Local Open Scope Z_scope.
Local Open Scope string_scope.
Local Open Scope list_scope.

(* ------------------------------------------------------------------ *)
(** ** Go values: [int], strings, errors *)

Module Go.

(** Go's [int] on the supported targets (darwin/arm64, darwin/amd64) is
    a 64-bit two's complement integer. *)
Definition int_min : Z := - 2 ^ 63.
Definition int_max : Z := 2 ^ 63 - 1.
Definition in_int (z : Z) : Prop := int_min <= z <= int_max.
Definition wrap (z : Z) : Z := (z + 2 ^ 63) mod 2 ^ 64 - 2 ^ 63.
Definition add (a b : Z) : Z := wrap (a + b).
Definition sub (a b : Z) : Z := wrap (a - b).
(** [%] truncates toward zero. *)
Definition rem (a b : Z) : Z := Z.rem a b.

(** Characters that cannot be written inside a string literal. *)
Definition nl : string := String (ascii_of_nat 10) EmptyString.
Definition dq : string := String (ascii_of_nat 34) EmptyString.
Definition quoted (s : string) : string := (dq ++ s ++ dq)%string.

Definition is_empty (s : string) : bool :=
  match s with EmptyString => true | String _ _ => false end.

(** [strings.TrimRight(s, "\n")]. *)
Fixpoint TrimRight_nl (s : string) : string :=
  match s with
  | EmptyString => EmptyString
  | String c r =>
      let r' := TrimRight_nl r in
      if (Ascii.eqb c (ascii_of_nat 10) && is_empty r')%bool
      then EmptyString else String c r'
  end.

(** [strings.Contains(s, substr)] on the bytes of the strings. *)
Fixpoint Contains (s substr : string) : bool :=
  (String.prefix substr s ||
   match s with
   | EmptyString => false
   | String _ r => Contains r substr
   end)%bool.

(** [%d] of an [int]. *)
Definition itoa (z : Z) : string := NilZero.string_of_int (Z.to_int z).

(** [strings.Join(words, sep)]. *)
Fixpoint Join (words : list string) (sep : string) : string :=
  match words with
  | [] => EmptyString
  | [w] => w
  | w :: rest => (w ++ sep ++ Join rest sep)%string
  end.

(** What an operating-system level failure looks like to Go. *)
Inductive OSErrorKind :=
| ExitStatus (code : Z)   (* *exec.ExitError, with its ExitCode() *)
| NotExist                (* an error for which os.IsNotExist holds *)
| OtherFailure.           (* lookup failures, I/O errors, ... *)

Record OSError := mkOSError { os_kind : OSErrorKind; os_msg : string }.

(** The [error] values that occur in the embedded code. *)
Inductive error :=
| ErrCancelled                              (* sudo.ErrCancelled *)
| Errorf (msg : string)                     (* fmt.Errorf without %w *)
| OSErr (e : OSError)                       (* errors of os and os/exec *)
| Wrapf (msg : string) (inner : error).     (* fmt.Errorf with %w *)

(** [err.Error()]. *)
Definition Error (e : error) : string :=
  match e with
  | ErrCancelled => "sudo authorization cancelled"
  | Errorf msg => msg
  | OSErr e => os_msg e
  | Wrapf msg _ => msg
  end.

(** [errors.Is(err, sudo.ErrCancelled)]. *)
Fixpoint Is_ErrCancelled (e : error) : bool :=
  match e with
  | ErrCancelled => true
  | Wrapf _ inner => Is_ErrCancelled inner
  | _ => false
  end.

(** [os.IsNotExist(err)]. *)
Definition IsNotExist (err : option error) : bool :=
  match err with
  | Some (OSErr e) => match os_kind e with NotExist => true | _ => false end
  | _ => false
  end.

(** The functions of Go's standard library whose exact behaviour (Unicode
    tables, scanning rules, path cleaning) lies outside the repository.
    The development is parametric in them; [Reference.ascii_lib] below is
    their behaviour on ASCII text. *)
Class Lib := {
  ToLower : string -> string;            (* strings.ToLower *)
  TrimSpace : string -> string;          (* strings.TrimSpace *)
  Sscan_int : string -> option Z;        (* fmt.Sscanf(s, "%d", &n) *)
  Sscan_int_range : forall s z, Sscan_int s = Some z -> in_int z;
  filepath_Join : string -> string -> string   (* filepath.Join(a, b) *)
}.

End Go.
Import Go.

(* ------------------------------------------------------------------ *)
(** ** The environment *)

(** Which output streams of a subprocess the caller collects:
    [cmd.Run()] none, [cmd.Output()] stdout, [cmd.CombinedOutput()] (or
    one buffer for Stdout and Stderr) both. *)
Inductive Capture := NoCapture | StdoutOnly | Combined.

Inductive Call :=
| Exec (argv : list string) (stdin : option string)
       (timeout_ms : option Z) (capture : Capture)
| Sleep (ms : Z)                 (* time.Sleep *)
| Stat (path : string)           (* os.Stat *)
| UserHomeDir                    (* os.UserHomeDir *)
| Print (text : string)          (* fmt.Print* to standard output *)
| External (name : string).      (* another package of the program *)

(** The answer to a call: the collected output (or the returned string),
    the error, and for a call under [context.WithTimeout] whether the
    deadline had passed when the call returned. *)
Record Response := mkResponse {
  r_out : string;
  r_err : option OSError;
  r_deadline : bool
}.

Definition noResponse : Response := mkResponse EmptyString None false.

Class OS (W : Type) := { sys : Call -> W -> Response * W }.

Definition Event : Type := Call * Response.

(** Process state: the environment and [sudo.cachedPassword]. *)
Record St (W : Type) := mkSt { world : W; cachedPassword : string }.
Arguments mkSt {W} _ _.
Arguments world {W} _.
Arguments cachedPassword {W} _.

Definition M (W A : Type) : Type := St W -> A * St W * list Event.

Definition ret {W A} (a : A) : M W A := fun s => (a, s, []).

Definition bind {W A B} (m : M W A) (k : A -> M W B) : M W B :=
  fun s =>
    let '(a, s1, ev1) := m s in
    let '(b, s2, ev2) := k a s1 in
    (b, s2, ev1 ++ ev2).

Declare Scope go_scope.
Delimit Scope go_scope with go.
Notation "x <- m ;; k" := (bind m (fun x => k))
  (at level 61, m at next level, right associativity) : go_scope.
Notation "m ;; k" := (bind m (fun _ => k))
  (at level 61, right associativity) : go_scope.
Local Open Scope go_scope.

Definition call {W} `{OS W} (c : Call) : M W Response :=
  fun s =>
    let '(r, w) := sys c (world s) in
    (r, mkSt w (cachedPassword s), [(c, r)]).

Definition get_cachedPassword {W} : M W string :=
  fun s => (cachedPassword s, s, []).

Definition set_cachedPassword {W} (p : string) : M W unit :=
  fun s => (tt, mkSt (world s) p, []).

(** Projections of a run. *)
Definition result {W A} (x : A * St W * list Event) : A := fst (fst x).
Definition final {W A} (x : A * St W * list Event) : St W := snd (fst x).
Definition events {W A} (x : A * St W * list Event) : list Event := snd x.
Definition calls {W A} (x : A * St W * list Event) : list Call :=
  map fst (events x).

Definition err_of (r : Response) : option error :=
  option_map OSErr (r_err r).

(** Every call of the computation passes the test [P], whatever the
    state it starts from. *)
Definition Only {W A} (P : Call -> bool) (m : M W A) : Prop :=
  forall s, Forall (fun e : Event => P (fst e) = true) (events (m s)).

(* ------------------------------------------------------------------ *)
(** ** internal/sudo/sudo.go *)

Module sudo.
Section Sudo.
Context {L : Lib} {W : Type} {O : OS W}.

(** [requiresPassword(output, err)]. *)
Definition requiresPassword (output : string) (err : option error) : bool :=
  match err with
  | None => false
  | Some e =>
      let text := ToLower output in
      if (Contains text "a password is required" ||
          Contains text "sorry, try again")%bool
      then true
      else
        match e with
        | OSErr {| os_kind := ExitStatus 1 |} => (String.length text =? 0)%nat
        | _ => false
        end
  end.

Definition script : string :=
  ("tell application " ++ quoted "System Events" ++ nl ++
   "activate" ++ nl ++
   "with timeout of 120 seconds" ++ nl ++
   "    display dialog " ++
   quoted "Dev Cockpit requires your administrator password to continue." ++
   " default answer " ++ quoted EmptyString ++
   " with hidden answer buttons {" ++ quoted "Cancel" ++ ", " ++
   quoted "Allow" ++ "} default button " ++ quoted "Allow" ++
   " with icon caution" ++ nl ++
   "end timeout" ++ nl ++
   "end tell")%string.

(** The [osascript] invocation that shows the password dialog. *)
Definition promptCall : Call :=
  Exec ["osascript"; "-e"; script; "-e"; "text returned of result"]
       None None StdoutOnly.

(** [promptPassword()]. *)
Definition promptPassword : M W (string * option error) :=
  r <- call promptCall ;;
  match err_of r with
  | Some err =>
      match err with
      | OSErr {| os_kind := ExitStatus 1 |} => ret (EmptyString, Some ErrCancelled)
      | _ =>
          ret (EmptyString,
               Some (Wrapf ("failed to request administrator approval: "
                            ++ Error err)%string err))
      end
  | None =>
      let password := TrimSpace (r_out r) in
      if is_empty password
      then ret (EmptyString, Some ErrCancelled)
      else ret (password, None)
  end.

(** [ensurePassword()]; the mutex has no effect on a sequential run. *)
Definition ensurePassword : M W (string * option error) :=
  cached <- get_cachedPassword ;;
  if negb (is_empty cached) then ret (cached, None)
  else
    pe <- promptPassword ;;
    match pe with
    | (_, Some err) => ret (EmptyString, Some err)
    | (pwd, None) =>
        set_cachedPassword pwd ;;
        cached' <- get_cachedPassword ;;
        ret (cached', None)
    end.

(** The two [sudo] invocations of [Run]. *)
Definition probeArgs (command : string) (args : list string) : list string :=
  ["-n"; command] ++ args.
Definition sudoArgs (command : string) (args : list string) : list string :=
  ["-S"; "-p"; EmptyString; command] ++ args.

Definition probeCall (command : string) (args : list string) : Call :=
  Exec ("sudo" :: probeArgs command args) None None Combined.
Definition elevatedCall (command : string) (args : list string)
    (password : string) : Call :=
  Exec ("sudo" :: sudoArgs command args)
       (Some (password ++ nl)%string) None Combined.

(** [Run(command, args...)]. *)
Definition Run (command : string) (args : list string)
    : M W (string * option error) :=
  r <- call (probeCall command args) ;;
  match err_of r with
  | None => ret (TrimRight_nl (r_out r), None)
  | Some err =>
      if negb (requiresPassword (r_out r) (Some err))
      then ret (TrimRight_nl (r_out r), Some (Errorf (TrimSpace (r_out r))))
      else
        pe <- ensurePassword ;;
        match pe with
        | (_, Some err) => ret (EmptyString, Some err)
        | (password, None) =>
            r2 <- call (elevatedCall command args password) ;;
            match err_of r2 with
            | Some runErr =>
                (if requiresPassword (r_out r2) (Some runErr)
                 then set_cachedPassword EmptyString
                 else ret tt) ;;
                ret (TrimRight_nl (r_out r2),
                     Some (Errorf (TrimSpace (r_out r2))))
            | None => ret (TrimRight_nl (r_out r2), None)
            end
        end
  end.

(** [RunShell(command)]. *)
Definition RunShell (command : string) : M W (string * option error) :=
  Run "sh" ["-c"; command].

End Sudo.
End sudo.

(* ------------------------------------------------------------------ *)
(** ** internal/modules/quickactions: process runners and actions *)

Module quickactions.
Section Actions.
Context {L : Lib} {W : Type} {O : OS W}.

(** Timeouts, in milliseconds. *)
Definition defaultCommandTimeout : Z := 30000.
Definition shortCommandTimeout : Z := 5000.
Definition longCommandTimeout : Z := 60000.

Definition timedOut : error := Errorf "command timed out".

(** [runCommandWithTimeout(timeout, name, args...)]. *)
Definition runCommandWithTimeout (timeout : Z) (name : string)
    (args : list string) : M W (option error) :=
  r <- call (Exec (name :: args) None (Some timeout) NoCapture) ;;
  if r_deadline r then ret (Some timedOut) else ret (err_of r).

(** [runCommandWithTimeoutOutput(timeout, name, args...)]. *)
Definition runCommandWithTimeoutOutput (timeout : Z) (name : string)
    (args : list string) : M W (string * option error) :=
  r <- call (Exec (name :: args) None (Some timeout) Combined) ;;
  if r_deadline r then ret (EmptyString, Some timedOut)
  else ret (r_out r, err_of r).

(** [runShellWithTimeout(timeout, shellCmd)]. *)
Definition runShellWithTimeout (timeout : Z) (shellCmd : string)
    : M W (option error) :=
  r <- call (Exec ["sh"; "-c"; shellCmd] None (Some timeout) NoCapture) ;;
  if r_deadline r then ret (Some timedOut) else ret (err_of r).

(** [runShellWithTimeoutOutput(timeout, shellCmd)]. *)
Definition runShellWithTimeoutOutput (timeout : Z) (shellCmd : string)
    : M W (string * option error) :=
  r <- call (Exec ["sh"; "-c"; shellCmd] None (Some timeout) Combined) ;;
  if r_deadline r then ret (EmptyString, Some timedOut)
  else ret (r_out r, err_of r).

(** The tail shared by [executeSudoCommand] and [executeSudoShell]: what
    is returned for the result of the [sudohelper] call. *)
Definition sudoOutcome (res : string * option error) : option error :=
  match snd res with
  | Some sudoErr =>
      if Is_ErrCancelled sudoErr
      then Some (Errorf "administrator approval cancelled")
      else Some sudoErr
  | None => None
  end.

(** [executeSudoCommand(command, args...)]. *)
Definition executeSudoCommand (command : string) (args : list string)
    : M W (option error) :=
  oe <- runCommandWithTimeoutOutput defaultCommandTimeout command args ;;
  match snd oe with
  | None => ret None
  | Some _ =>
      res <- sudo.Run command args ;;
      ret (sudoOutcome res)
  end.

(** [executeSudoShell(shellCmd)]. *)
Definition executeSudoShell (shellCmd : string) : M W (option error) :=
  oe <- runShellWithTimeoutOutput defaultCommandTimeout shellCmd ;;
  match snd oe with
  | None => ret None
  | Some _ =>
      res <- sudo.RunShell shellCmd ;;
      ret (sudoOutcome res)
  end.

(** A [for _, x := range xs] loop that returns the first [x] whose probe
    reports no error. *)
Fixpoint firstWithoutError (probe : string -> M W (option error))
    (xs : list string) : M W (option string) :=
  match xs with
  | [] => ret None
  | x :: rest =>
      err <- probe x ;;
      match err with
      | None => ret (Some x)
      | Some _ => firstWithoutError probe rest
      end
  end.

(** [getActiveNetworkInterface()]. *)
Definition getActiveNetworkInterface : M W string :=
  let cmd :=
    "route -n get default 2>/dev/null | grep 'interface:' | awk '{print $2}'" in
  oe <- runShellWithTimeoutOutput shortCommandTimeout cmd ;;
  let viaRoute :=
    match snd oe with
    | None =>
        if (0 <? String.length (fst oe))%nat
        then let iface := TrimSpace (fst oe) in
             if is_empty iface then None else Some iface
        else None
    | Some _ => None
    end in
  match viaRoute with
  | Some iface => ret iface
  | None =>
      found <- firstWithoutError
                 (fun iface =>
                    runShellWithTimeout shortCommandTimeout
                      ("ifconfig " ++ iface ++
                       " 2>/dev/null | grep -q 'status: active'")%string)
                 ["en0"; "en1"; "en2"] ;;
      match found with
      | Some iface => ret iface
      | None =>
          found' <- firstWithoutError
                      (fun service =>
                         runCommandWithTimeout shortCommandTimeout
                           "networksetup" ["-getinfo"; service])
                      ["Wi-Fi"; "Ethernet"; "en0"; "en1"] ;;
          match found' with
          | Some service => ret service
          | None => ret "en0"
          end
      end
  end.

(** [clearRAM()]. *)
Definition clearRAM : M W (option error) := executeSudoCommand "purge" [].

(** [purgeMemory()]. *)
Definition purgeMemory : M W (option error) := executeSudoCommand "purge" [].

Definition lsregisterPath : string :=
  "/System/Library/Frameworks/CoreServices.framework/Frameworks/LaunchServices.framework/Support/lsregister".

(** [rebuildLaunchServices()]. *)
Definition rebuildLaunchServices : M W (option error) :=
  err <- runCommandWithTimeout longCommandTimeout lsregisterPath
           ["-kill"; "-r"; "-domain"; "local"; "-domain"; "system";
            "-domain"; "user"] ;;
  match err with
  | Some e =>
      ret (Some (Errorf ("failed to rebuild launch services: " ++ Error e)%string))
  | None => ret None
  end.

(** The power commands of [fixWiFi]. *)
Definition airportPower (target state : string) : Call :=
  Exec ["networksetup"; "-setairportpower"; target; state]
       None (Some shortCommandTimeout) NoCapture.

(** The two candidate loops of [fixWiFi] run the same commands (they
    differ in what they log): power off; when that worked, sleep two
    seconds and power on; [break] with [success = true] when both
    worked. *)
Fixpoint powerCycleFirst (candidates : list string) : M W bool :=
  match candidates with
  | [] => ret false
  | c :: rest =>
      off <- runCommandWithTimeout shortCommandTimeout "networksetup"
               ["-setairportpower"; c; "off"] ;;
      match off with
      | None =>
          call (Sleep 2000) ;;
          on <- runCommandWithTimeout shortCommandTimeout "networksetup"
                  ["-setairportpower"; c; "on"] ;;
          match on with
          | None => ret true
          | Some _ => powerCycleFirst rest
          end
      | Some _ => powerCycleFirst rest
      end
  end.

Definition wifiServices : list string := ["Wi-Fi"; "WiFi"; "AirPort"].

(** [fixWiFi()]. *)
Definition fixWiFi : M W (option error) :=
  success <- powerCycleFirst wifiServices ;;
  success' <-
    (if negb success
     then networkInterface <- getActiveNetworkInterface ;;
          powerCycleFirst [networkInterface; "en0"; "en1"]
     else ret success) ;;
  if negb success'
  then ret (Some (Errorf
         "could not reset WiFi - no working interface/service found"))
  else ret None.

(** [flushDNS()]. *)
Definition flushDNS : M W (option error) :=
  err1 <- executeSudoCommand "dscacheutil" ["-flushcache"] ;;
  err2 <- executeSudoCommand "killall" ["-HUP"; "mDNSResponder"] ;;
  match err1, err2 with
  | Some _, Some _ =>
      ret (Some (Errorf "DNS flush failed - admin privileges required"))
  | _, _ => ret None
  end.

(** [os.UserHomeDir()] with its error dropped. *)
Definition userHomeDir : M W string :=
  r <- call UserHomeDir ;; ret (r_out r).

(** The loop over [commonDirs] in [fixPermissions]. *)
Fixpoint chmodExisting (dirs : list string) (success : Z) : M W Z :=
  match dirs with
  | [] => ret success
  | dir :: rest =>
      st <- call (Stat dir) ;;
      match err_of st with
      | None =>
          err <- runShellWithTimeout shortCommandTimeout
                   ("chmod 755 " ++ dir)%string ;;
          match err with
          | None => chmodExisting rest (Go.add success 1)
          | Some _ => chmodExisting rest success
          end
      | Some _ => chmodExisting rest success
      end
  end.

(** [fixPermissions()]. *)
Definition fixPermissions : M W (option error) :=
  homeDir <- userHomeDir ;;
  err <- runShellWithTimeout shortCommandTimeout
           ("chmod 755 " ++ homeDir)%string ;;
  let success := match err with None => Go.add 0 1 | Some _ => 0 end in
  success <- chmodExisting
               [filepath_Join homeDir "Desktop";
                filepath_Join homeDir "Documents";
                filepath_Join homeDir "Downloads"] success ;;
  err <- runCommandWithTimeout defaultCommandTimeout "diskutil"
           ["verifyVolume"; "/"] ;;
  let success := match err with None => Go.add success 1 | Some _ => success end in
  if (success =? 0)%Z then ret (Some (Errorf "permission repair failed"))
  else ret None.

(** [fmt.Sscanf(strings.TrimSpace(string(out)), "%d", &n)] into a variable
    that starts at zero: a failed scan leaves the zero. *)
Definition scanCount (out : string) : Z :=
  match Sscan_int (TrimSpace out) with Some n => n | None => 0 end.

(** The command that counts what is under [path]. *)
Definition countTrashCmd (trashPath : string) : string :=
  ("find " ++ trashPath ++ " -mindepth 1 2>/dev/null | wc -l")%string.

(** Methods 1 to 3 of [emptyTrashInternal]; the result is the value of
    [success] after them. *)
Definition removeTrashContents (trashPath : string) : M W bool :=
  (* Method 1: direct rm -rf *)
  let chflagsCmd :=
    ("chflags -R nouchg,noschg,nouappnd,noschg " ++ trashPath ++
     "/* 2>/dev/null || true")%string in
  runShellWithTimeout shortCommandTimeout chflagsCmd ;;
  let rmCmd :=
    ("rm -rf " ++ trashPath ++ "/* " ++ trashPath ++
     "/.[!.]* 2>/dev/null || true")%string in
  rm <- runShellWithTimeout defaultCommandTimeout rmCmd ;;
  let success := match rm with None => true | Some _ => false end in
  (* Method 2: find with deletion *)
  success <-
    (if negb success
     then
       let findFlagsCmd :=
         ("find " ++ trashPath ++
          " -mindepth 1 -exec chflags nouchg,nouappnd {} + 2>/dev/null || true")%string in
       runShellWithTimeout defaultCommandTimeout findFlagsCmd ;;
       let findDelCmd :=
         ("find " ++ trashPath ++ " -mindepth 1 -delete 2>/dev/null")%string in
       del <- runShellWithTimeout defaultCommandTimeout findDelCmd ;;
       ret (match del with None => true | Some _ => success end)
     else ret success) ;;
  (* Method 3: sudo for locked files *)
  if negb success
  then
    let sudoCmd :=
      ("chflags -R nouchg,nouappnd " ++ trashPath ++
       "/* 2>/dev/null; rm -rf " ++ trashPath ++ "/* " ++ trashPath ++
       "/.[!.]* 2>/dev/null")%string in
    err <- executeSudoShell sudoCmd ;;
    ret (match err with None => true | Some _ => success end)
  else ret success.

(** [emptyTrashInternal()]. *)
Definition emptyTrashInternal : M W (option error) :=
  homeDir <- userHomeDir ;;
  let trashPath := filepath_Join homeDir ".Trash" in
  st <- call (Stat trashPath) ;;
  if IsNotExist (err_of st)
  then ret (Some (Errorf "trash directory not found"))
  else
    let countCmd := countTrashCmd trashPath in
    before <- runShellWithTimeoutOutput shortCommandTimeout countCmd ;;
    let itemsBefore := scanCount (fst before) in
    if (itemsBefore =? 0)%Z then ret None
    else
      removeTrashContents trashPath ;;
      (* Verify results; [success] is not read again *)
      after <- runShellWithTimeoutOutput shortCommandTimeout countCmd ;;
      let itemsAfter := scanCount (fst after) in
      if (itemsAfter =? 0)%Z then ret None
      else if (itemsAfter <? itemsBefore)%Z
      then ret (Some (Errorf ("partially cleaned: " ++ itoa itemsAfter ++
                              " items remain (some may be in use)")%string))
      else ret (Some (Errorf ("failed to empty trash: " ++ itoa itemsAfter ++
                              " items remain")%string)).

(** [EmptyTrash()], the entry point for the command line. *)
Definition EmptyTrash : M W (option error) := emptyTrashInternal.

(** [emptyTrash()], the catalog entry. *)
Definition emptyTrash : M W (option error) := emptyTrashInternal.

(** The two [find] commands of [cleanDownloads]. *)
Definition countOldCmd (downloadsPath : string) : string :=
  ("find " ++ downloadsPath ++ " -type f -mtime +30 2>/dev/null | wc -l")%string.
Definition deleteOldCmd (downloadsPath : string) : string :=
  ("find " ++ downloadsPath ++ " -type f -mtime +30 -delete 2>/dev/null")%string.

(** [cleanDownloads()]. *)
Definition cleanDownloads : M W (option error) :=
  homeDir <- userHomeDir ;;
  let downloadsPath := filepath_Join homeDir "Downloads" in
  st <- call (Stat downloadsPath) ;;
  if IsNotExist (err_of st)
  then ret (Some (Errorf "downloads directory not found"))
  else
    let countCmd := countOldCmd downloadsPath in
    before <- runShellWithTimeoutOutput shortCommandTimeout countCmd ;;
    let filesBefore := scanCount (fst before) in
    if (filesBefore =? 0)%Z then ret None
    else
      let deleteCmd := deleteOldCmd downloadsPath in
      err <- runShellWithTimeout defaultCommandTimeout deleteCmd ;;
      match err with
      | Some e =>
          ret (Some (Errorf ("failed to clean downloads: " ++ Error e)%string))
      | None =>
          after <- runShellWithTimeoutOutput shortCommandTimeout countCmd ;;
          let filesAfter := scanCount (fst after) in
          let removed := Go.sub filesBefore filesAfter in
          if ((removed =? 0)%Z && (0 <? filesBefore)%Z)%bool
          then ret (Some (Errorf
                 "could not remove old files (they may be in use)"))
          else ret None
      end.

(** *** The composite action *)

(** [actionCompleteMsg]. *)
Record actionCompleteMsg := mkComplete { message : string; success : bool }.

(** The loop of [fixAllCommon] over its [fixes]. *)
Fixpoint runFixes (fixes : list (M W (option error))) (fixed failed : Z)
    : M W (Z * Z) :=
  match fixes with
  | [] => ret (fixed, failed)
  | fix_ :: rest =>
      err <- fix_ ;;
      match err with
      | None => runFixes rest (Go.add fixed 1) failed
      | Some _ => runFixes rest fixed (Go.add failed 1)
      end
  end.

Definition commonFixes : list (M W (option error)) :=
  [flushDNS; clearRAM; fixPermissions; rebuildLaunchServices].

(** How [fixAllCommon] reports its two counters. *)
Definition fixAllMessage (fixed failed : Z) : actionCompleteMsg :=
  let success := (failed =? 0)%Z in
  let message := ("✓ Fixed " ++ itoa fixed ++ " common issues")%string in
  if (0 <? failed)%Z
  then mkComplete ("⚠ Fixed " ++ itoa fixed ++ " issues (" ++ itoa failed ++
                   " failed)")%string false
  else mkComplete message success.

(** The function that [fixAllCommon] hands to the runtime. *)
Definition fixAllCommonRun : M W actionCompleteMsg :=
  counts <- runFixes commonFixes 0 0 ;;
  ret (fixAllMessage (fst counts) (snd counts)).

(** The function that [executeAction] hands to the runtime, for an action
    called [name] with the body [command]. *)
Definition executeActionRun (name : string) (command : M W (option error))
    : M W actionCompleteMsg :=
  err <- command ;;
  match err with
  | Some e =>
      ret (mkComplete ("✗ " ++ name ++ " failed: " ++ Error e)%string false)
  | None =>
      ret (mkComplete ("✓ " ++ name ++ " completed successfully")%string true)
  end.

(** *** The remaining catalog actions *)

(** The loop of [disableAnimations] over its [commands] ([cmd[0]] and
    [cmd[1:]] of each); a failed write is only logged. *)
Fixpoint writePreferences (commands : list (string * list string))
    : M W unit :=
  match commands with
  | [] => ret tt
  | (name, args) :: rest =>
      runCommandWithTimeout shortCommandTimeout name args ;;
      writePreferences rest
  end.

Definition animationCommands : list (string * list string) :=
  [ ("defaults", ["write"; "NSGlobalDomain";
                  "NSAutomaticWindowAnimationsEnabled"; "-bool"; "false"]);
    ("defaults", ["write"; "com.apple.dock"; "expose-animation-duration";
                  "-float"; "0.1"]);
    ("defaults", ["write"; "com.apple.dock"; "autohide-time-modifier";
                  "-float"; "0"]);
    ("defaults", ["write"; "NSGlobalDomain"; "NSWindowResizeTime";
                  "-float"; "0.001"]) ].

(** [disableAnimations()]. *)
Definition disableAnimations : M W (option error) :=
  writePreferences animationCommands ;;
  runCommandWithTimeout shortCommandTimeout "killall" ["Dock"].

(** [fixAudio()]. *)
Definition fixAudio : M W (option error) :=
  err <- executeSudoCommand "killall" ["-9"; "coreaudiod"] ;;
  match err with
  | Some _ => ret (Some (Errorf "audio reset requires admin privileges"))
  | None => call (Sleep 2000) ;; ret None
  end.

(** [resetSMC()]. *)
Definition resetSMC : M W (option error) :=
  ret (Some (Errorf
    "SMC reset requires manual intervention: Shut down, press Shift-Control-Option on left side + power button")).

(** [resetNVRAM()]. *)
Definition resetNVRAM : M W (option error) :=
  ret (Some (Errorf
    "NVRAM reset requires manual steps: Shut down Mac, then hold Option+Command+P+R during startup")).

(** [fixSpotlight()]. *)
Definition fixSpotlight : M W (option error) :=
  err1 <- executeSudoCommand "mdutil" ["-i"; "off"; "/"] ;;
  match err1 with
  | Some _ => ret (Some (Errorf "spotlight reset requires admin privileges"))
  | None =>
      executeSudoCommand "mdutil" ["-E"; "/"] ;;
      call (Sleep 2000) ;;
      err3 <- executeSudoCommand "mdutil" ["-i"; "on"; "/"] ;;
      match err3 with
      | Some e => ret (Some e)
      | None => ret None
      end
  end.

(** Step 2 of [resetNetwork]: the loop over the service names.  The
    result is the value of [success] after it. *)
Fixpoint resetWiFiServices (services : list string) (success : Z) : M W Z :=
  match services with
  | [] => ret success
  | service :: rest =>
      off <- runCommandWithTimeout shortCommandTimeout "networksetup"
               ["-setairportpower"; service; "off"] ;;
      match off with
      | None =>
          call (Sleep 2000) ;;
          on <- runCommandWithTimeout shortCommandTimeout "networksetup"
                  ["-setairportpower"; service; "on"] ;;
          match on with
          | None =>
              let success := Go.add success 1 in
              dhcp <- runCommandWithTimeout defaultCommandTimeout
                        "networksetup" ["-setdhcp"; service] ;;
              match dhcp with
              | None => ret (Go.add success 1)
              | Some _ => ret success
              end
          | Some _ => resetWiFiServices rest success
          end
      | Some _ => resetWiFiServices rest success
      end
  end.

(** [resetNetwork()]. *)
Definition resetNetwork : M W (option error) :=
  (* Step 1: flush DNS *)
  dns <- flushDNS ;;
  let success := match dns with None => Go.add 0 1 | Some _ => 0 end in
  (* Step 2: the service names *)
  success <- resetWiFiServices ["Wi-Fi"; "WiFi"] success ;;
  (* Step 3: the interface, if the service method did not work *)
  success <-
    (if (success <? 2)%Z
     then
       networkInterface <- getActiveNetworkInterface ;;
       off <- runCommandWithTimeout shortCommandTimeout "networksetup"
                ["-setairportpower"; networkInterface; "off"] ;;
       match off with
       | None =>
           call (Sleep 2000) ;;
           on <- runCommandWithTimeout shortCommandTimeout "networksetup"
                   ["-setairportpower"; networkInterface; "on"] ;;
           match on with
           | None => ret (Go.add success 1)
           | Some _ => ret success
           end
       | Some _ => ret success
       end
     else ret success) ;;
  if (success =? 0)%Z
  then ret (Some (Errorf
         "network reset failed - try checking Network settings manually"))
  else ret None.

Section HeavyProcesses.
(** [strings.Fields]. *)
Variable Fields : string -> list string.

(** The loop of [killHeavyProcesses] over the process ids. *)
Fixpoint killEach (pids : list string) (killed : Z) : M W Z :=
  match pids with
  | [] => ret killed
  | pid :: rest =>
      if negb (is_empty pid)
      then
        err <- runCommandWithTimeout shortCommandTimeout "kill" ["-9"; pid] ;;
        match err with
        | None => killEach rest (Go.add killed 1)
        | Some _ => killEach rest killed
        end
      else killEach rest killed
  end.

Definition heavyProcessesCmd : string :=
  "ps aux | awk '$3 > 80 && NR > 1 {print $2}' | head -5".

(** [killHeavyProcesses()]. *)
Definition killHeavyProcesses : M W (option error) :=
  oe <- runShellWithTimeoutOutput shortCommandTimeout heavyProcessesCmd ;;
  match snd oe with
  | Some err =>
      ret (Some (Errorf ("failed to get heavy processes: " ++ Error err)%string))
  | None =>
      let pids := Fields (TrimSpace (fst oe)) in
      killed <- killEach pids 0 ;;
      if (killed =? 0)%Z
      then ret (Some (Errorf "no heavy processes found or killed"))
      else ret None
  end.

End HeavyProcesses.

End Actions.

(** *** The catalog and the session state machine *)

(** The method values stored in the [Command] field of the catalog. *)
Inductive Method :=
| m_killHeavyProcesses | m_clearRAM | m_disableAnimations
| m_rebuildLaunchServices | m_fixWiFi | m_flushDNS | m_resetNetwork
| m_fixBluetooth | m_fixAudio | m_resetSMC | m_resetNVRAM | m_fixSpotlight
| m_fixTimeMachine | m_fixPermissions | m_emptyTrash | m_cleanDownloads
| m_purgeMemory.

Record Action := mkAction {
  Name : string;
  Description : string;
  Category : string;
  Command : Method;
  RequiresSudo : bool
}.

(** [map[string][]Action]: the last binding of a key counts, a missing key
    reads as the nil slice. *)
Definition Groups : Type := list (string * list Action).

Definition groups_get (g : Groups) (k : string) : list Action :=
  match find (fun kv => String.eqb (fst kv) k) g with
  | Some kv => snd kv
  | None => []
  end.

Definition groups_set (g : Groups) (k : string) (v : list Action) : Groups :=
  (k, v) :: filter (fun kv => negb (String.eqb (fst kv) k)) g.

(** The quick actions [Model] (its [config] pointer is never read). *)
Record Model := mkModel {
  width : Z;
  height : Z;
  actions : list Action;
  grouped : Groups;
  categories : list string;
  categoryIndex : Z;
  actionIndex : Z;
  running : bool;
  runningAction : string;
  status : string;
  statusType : string;
  spinnerFrame : Z
}.

Definition with_size (m : Model) (w h : Z) : Model :=
  mkModel w h (actions m) (grouped m) (categories m) (categoryIndex m)
          (actionIndex m) (running m) (runningAction m) (status m)
          (statusType m) (spinnerFrame m).

Definition with_actionIndex (m : Model) (i : Z) : Model :=
  mkModel (width m) (height m) (actions m) (grouped m) (categories m)
          (categoryIndex m) i (running m) (runningAction m) (status m)
          (statusType m) (spinnerFrame m).

Definition with_running (m : Model) (r : bool) (name : string) : Model :=
  mkModel (width m) (height m) (actions m) (grouped m) (categories m)
          (categoryIndex m) (actionIndex m) r name (status m)
          (statusType m) (spinnerFrame m).

Definition with_status (m : Model) (st ty : string) : Model :=
  mkModel (width m) (height m) (actions m) (grouped m) (categories m)
          (categoryIndex m) (actionIndex m) (running m) (runningAction m)
          st ty (spinnerFrame m).

Definition with_spinnerFrame (m : Model) (f : Z) : Model :=
  mkModel (width m) (height m) (actions m) (grouped m) (categories m)
          (categoryIndex m) (actionIndex m) (running m) (runningAction m)
          (status m) (statusType m) f.

Definition with_catalog (m : Model) (acts : list Action) (g : Groups)
    (cats : list string) : Model :=
  mkModel (width m) (height m) acts g cats (categoryIndex m)
          (actionIndex m) (running m) (runningAction m) (status m)
          (statusType m) (spinnerFrame m).

(** [len(s)] and [s[i]]; indexing out of range panics ([None]). *)
Definition len {A} (s : list A) : Z := Z.of_nat (List.length s).
Definition index {A} (s : list A) (i : Z) : option A :=
  if (i <? 0)%Z then None else nth_error s (Z.to_nat i).

(** The catalog of [initActions]. *)
Definition catalog : list Action :=
  [ mkAction "Kill Heavy Processes" "Terminate resource-intensive processes"
      "Performance" m_killHeavyProcesses false;
    mkAction "Clear RAM" "Purge inactive memory"
      "Performance" m_clearRAM true;
    mkAction "Disable Animations" "Speed up UI by disabling animations"
      "Performance" m_disableAnimations false;
    mkAction "Rebuild Launch Services" "Fix app associations and duplicates"
      "Performance" m_rebuildLaunchServices false;
    mkAction "Fix WiFi" "Reset WiFi configuration"
      "Network" m_fixWiFi false;
    mkAction "Flush DNS" "Clear DNS cache"
      "Network" m_flushDNS true;
    mkAction "Reset Network" "Complete network reset"
      "Network" m_resetNetwork false;
    mkAction "Fix Bluetooth" "Reset Bluetooth module"
      "System" m_fixBluetooth true;
    mkAction "Fix Audio" "Reset Core Audio"
      "System" m_fixAudio true;
    mkAction "Reset SMC" "Reset System Management Controller"
      "System" m_resetSMC false;
    mkAction "Reset NVRAM" "Reset Non-Volatile RAM"
      "System" m_resetNVRAM false;
    mkAction "Fix Spotlight" "Rebuild Spotlight index"
      "System" m_fixSpotlight true;
    mkAction "Fix Time Machine" "Reset Time Machine and optimize"
      "System" m_fixTimeMachine true;
    mkAction "Fix Permissions" "Repair file permissions"
      "System" m_fixPermissions false;
    mkAction "Empty Trash" "Securely empty trash"
      "Cleanup" m_emptyTrash false;
    mkAction "Clean Downloads" "Remove old downloads"
      "Cleanup" m_cleanDownloads false;
    mkAction "Purge Memory" "Free up inactive RAM"
      "Cleanup" m_purgeMemory true ].

(** [rebuildGroups()]. *)
Definition rebuildGroups (m : Model) : Model :=
  let groups := groups_set [] "All" (actions m) in
  let groups :=
    fold_left (fun g category => groups_set g category [])
              ["Performance"; "Network"; "System"; "Cleanup"] groups in
  let groups :=
    fold_left (fun g action =>
                 groups_set g (Category action)
                            (groups_get g (Category action) ++ [action]))
              (actions m) groups in
  with_catalog m (actions m) groups (categories m).

(** [initActions()]. *)
Definition initActions (m : Model) : Model :=
  let m := with_catalog m catalog (grouped m) (categories m) in
  let m := with_catalog m (actions m) (grouped m)
             ["All"; "Performance"; "Network"; "System"; "Cleanup"] in
  rebuildGroups m.

(** [New(cfg)]. *)
Definition New : Model :=
  initActions
    (mkModel 0 0 [] [] [] 0 0 false EmptyString EmptyString EmptyString 0).

(** [visibleActions()]. *)
Definition visibleActions (m : Model) : option (list Action) :=
  if (len (categories m) =? 0)%Z then Some []
  else
    match index (categories m) (categoryIndex m) with
    | None => None
    | Some category =>
        if String.eqb category "All" then Some (groups_get (grouped m) "All")
        else Some (groups_get (grouped m) category)
    end.

(** [clampSelection()]. *)
Definition clampSelection (m : Model) : option Model :=
  match visibleActions m with
  | None => None
  | Some acts =>
      if (len acts =? 0)%Z then Some (with_actionIndex m 0)
      else
        let m := if (actionIndex m <? 0)%Z then with_actionIndex m 0 else m in
        let m := if (len acts <=? actionIndex m)%Z
                 then with_actionIndex m (Go.sub (len acts) 1) else m in
        Some m
  end.

(** [shiftCategory(delta)]. *)
Definition shiftCategory (m : Model) (delta : Z) : Model :=
  let total := len (categories m) in
  if (total =? 0)%Z then m
  else
    let m' :=
      mkModel (width m) (height m) (actions m) (grouped m) (categories m)
              (Go.rem (Go.add (Go.add (categoryIndex m) delta) total) total)
              (actionIndex m) (running m) (runningAction m) (status m)
              (statusType m) (spinnerFrame m) in
    with_actionIndex m' 0.

(** Messages of the module's [Update]. *)
Inductive Msg :=
| WindowSizeMsg (w h : Z)
| Focus
| Blur
| spinnerTickMsg
| KeyMsg (key : string)          (* msg.String() *)
| ActionComplete (c : actionCompleteMsg)
| OtherMsg.

(** Commands handed to the Bubble Tea runtime. *)
Inductive Cmd :=
| CmdNil
| CmdTick (ms : Z)               (* tickSpinner: spinnerTickMsg after ms *)
| CmdRunAction (a : Action)      (* the function built by executeAction *)
| CmdRunFixAll                   (* the function built by fixAllCommon *)
| CmdBatch (c1 c2 : Cmd).        (* tea.Batch of two commands *)

(** [tickSpinner()]. *)
Definition tickSpinner : Cmd := CmdTick 100.

(** [executeAction(action)]. *)
Definition executeAction (m : Model) (action : Action) : Model * Cmd :=
  let m := with_running m true (Name action) in
  let m := with_status m EmptyString EmptyString in
  let m := with_spinnerFrame m 0 in
  (m, CmdBatch tickSpinner (CmdRunAction action)).

(** [fixAllCommon()]. *)
Definition fixAllCommon (m : Model) : Model * Cmd :=
  let m := with_running m true "Fix All Common Issues" in
  let m := with_status m EmptyString EmptyString in
  let m := with_spinnerFrame m 0 in
  (m, CmdBatch tickSpinner CmdRunFixAll).

Definition key_is (key : string) (cases : list string) : bool :=
  existsb (String.eqb key) cases.

(** [Update(msg)]; [None] is a run-time panic. *)
Definition Update (m : Model) (msg : Msg) : option (Model * Cmd) :=
  match msg with
  | WindowSizeMsg w h => Some (with_size m w h, CmdNil)
  | Focus =>
      let m := with_running m false EmptyString in
      let m := with_status m EmptyString EmptyString in
      let m := with_spinnerFrame m 0 in
      match clampSelection m with
      | Some m => Some (m, CmdNil)
      | None => None
      end
  | Blur => Some (with_running m false EmptyString, CmdNil)
  | spinnerTickMsg =>
      if running m
      then Some (with_spinnerFrame m (Go.rem (Go.add (spinnerFrame m) 1) 10),
                 tickSpinner)
      else Some (m, CmdNil)
  | KeyMsg key =>
      if running m then Some (m, CmdNil)
      else
        let totalActions := len (actions m) in
        if key_is key ["up"; "k"] then
          if (0 <? actionIndex m)%Z
          then Some (with_actionIndex m (Go.sub (actionIndex m) 1), CmdNil)
          else Some (m, CmdNil)
        else if key_is key ["down"; "j"] then
          if (actionIndex m <? Go.sub totalActions 1)%Z
          then Some (with_actionIndex m (Go.add (actionIndex m) 1), CmdNil)
          else Some (m, CmdNil)
        else if key_is key ["enter"; " "] then
          if (actionIndex m <? totalActions)%Z
          then match index (actions m) (actionIndex m) with
               | Some action => Some (executeAction m action)
               | None => None
               end
          else Some (m, CmdNil)
        else if key_is key ["f"] then Some (fixAllCommon m)
        else if key_is key ["g"] then Some (with_actionIndex m 0, CmdNil)
        else if key_is key ["G"]
        then Some (with_actionIndex m (Go.sub totalActions 1), CmdNil)
        else Some (m, CmdNil)
  | ActionComplete c =>
      let m := with_running m false EmptyString in
      let m := with_spinnerFrame m 0 in
      let m := with_status m (message c)
                 (if success c then "success" else "error") in
      Some (m, CmdNil)
  | OtherMsg => Some (m, CmdNil)
  end.

End quickactions.

(* ------------------------------------------------------------------ *)
(** ** cmd/devcockpit/main.go *)

Module devcockpit.
Section Main.
Context {L : Lib} {W : Type} {O : OS W}.
(** [version], set at build time. *)
Variable version : string.

(** [fmt.Println(s)]. *)
Definition Println (s : string) : M W unit :=
  call (Print (s ++ nl)%string) ;; ret tt.

(** [logger.GetLogPath()]. *)
Definition GetLogPath : M W string :=
  r <- call (External "logger.GetLogPath") ;; ret (r_out r).

(** The loop over [os.Args] that sets [debugMode]. *)
Definition debugFlag (args : list string) : bool :=
  fold_left
    (fun debugMode arg =>
       if String.eqb arg "--debug" then true
       else if String.eqb arg "--no-debug" then false
       else debugMode)
    args false.

(** The lines printed once the logger is set up. *)
Definition banner (debugMode : bool) : M W unit :=
  call (Print ("Debug logging: " ++ (if debugMode then "true" else "false")
               ++ nl)%string) ;;
  path <- GetLogPath ;;
  call (Print ("Log file: " ++ path ++ nl)%string) ;;
  if debugMode
  then Println "Tail logs in another terminal with:" ;;
       path <- GetLogPath ;;
       call (Print ("  tail -f " ++ path ++ nl ++ nl)%string) ;;
       ret tt
  else Println "Run with --debug to stream logs to the console." ;;
       Println EmptyString.

(** [case "cleanup":] of the switch on [os.Args[1]]; the result is the
    status passed to [os.Exit]. *)
Definition cleanup (args : list string) : M W Z :=
  let usage := Println "Usage: devcockpit cleanup empty-trash" ;; ret 1 in
  if (2 <? quickactions.len args)%Z
  then
    match quickactions.index args 2 with
    | Some sub =>
        if quickactions.key_is sub ["empty-trash"; "--empty-trash"]
        then
          err <- quickactions.EmptyTrash ;;
          match err with
          | Some e =>
              call (Print ("Empty Trash failed: " ++ Error e ++ nl)%string) ;;
              ret 1
          | None =>
              Println "Trash emptied successfully." ;;
              ret 0
          end
        else usage
    | None => usage
    end
  else usage.

(** The text that [showHelp()] of main.go prints. *)
Definition helpText : string :=
  (nl ++
   "Dev Cockpit v" ++
   version ++
   " - Professional macOS Development Command Center" ++ nl ++
   nl ++
   "Usage:" ++ nl ++
   "  devcockpit              Launch the interactive TUI" ++ nl ++
   "  devcockpit --debug      Launch with debug logging enabled" ++ nl ++
   "  devcockpit version      Show version information" ++ nl ++
   "  devcockpit logs         Show log file location" ++ nl ++
   "  devcockpit help         Show this help message" ++ nl ++
   nl ++
   "Debug Mode:" ++ nl ++
   "  Debug logging is OFF by default; use --debug to enable" ++ nl ++
   "  tail -f ~/.devcockpit/debug.log    View logs in real-time" ++ nl ++
   nl ++
   "Keyboard Shortcuts (in app):" ++ nl ++
   "  Tab/Shift+Tab    Navigate between modules" ++ nl ++
   "  ←/→/Home/End     Navigate modules" ++ nl ++
   "  Enter            Select/Execute" ++ nl ++
   "  Esc              Return to module switcher" ++ nl ++
   "  l                Toggle logs overlay" ++ nl ++
   "  q                Quit current view" ++ nl ++
   "  Q                Quit application" ++ nl ++
   "  ?                Show help" ++ nl ++
   nl ++
   "For more information: https://devcockpit.dev" ++ nl ++
   "Support: support@devcockpit.dev" ++ nl)%string.

(** The text that [showHelp()] of the later revision prints. *)
Definition helpText_cli_first : string :=
  ("Dev Cockpit v" ++
   version ++
   " - macOS Development Command Center for Apple Silicon" ++ nl ++
   nl ++
   "USAGE:" ++ nl ++
   "  devcockpit [flags]" ++ nl ++
   "  devcockpit cleanup empty-trash" ++ nl ++
   "  devcockpit uninstall [--force]" ++ nl ++
   "  devcockpit update [--check | --force]" ++ nl ++
   nl ++
   "AVAILABLE TUI MODULES:" ++ nl ++
   "  Dashboard       Real-time system monitoring (CPU, GPU, Memory, Disk, Network)" ++ nl ++
   "  Quick Actions   One-tap maintenance and optimization tasks" ++ nl ++
   "  Cleanup         Free up disk space (caches, logs, trash, downloads)" ++ nl ++
   "  Packages        Manage Homebrew, npm, and other package managers" ++ nl ++
   "  System          Hardware info, diagnostics, and system details" ++ nl ++
   "  Docker          Container management and cleanup" ++ nl ++
   "  Network         Interface analysis and connectivity diagnostics" ++ nl ++
   "  Security        Firewall, FileVault, and SIP status" ++ nl ++
   "  Support         Project support and sponsorship information" ++ nl ++
   nl ++
   "CLI COMMANDS:" ++ nl ++
   "  devcockpit                       Launch interactive TUI" ++ nl ++
   "  devcockpit cleanup empty-trash   Empty the trash (CLI mode)" ++ nl ++
   "  devcockpit update                Update to the latest version" ++ nl ++
   "  devcockpit update --check        Check for updates without installing" ++ nl ++
   "  devcockpit update --force        Update without confirmation prompts" ++ nl ++
   "  devcockpit uninstall             Uninstall Dev Cockpit from the system" ++ nl ++
   "  devcockpit uninstall --force     Uninstall without confirmation prompts" ++ nl ++
   "  devcockpit --help, -h            Show this help message" ++ nl ++
   "  devcockpit --version, -v         Show version information" ++ nl ++
   "  devcockpit --debug               Launch with debug logging" ++ nl ++
   "  devcockpit --logs                Show debug log file location" ++ nl ++
   nl ++
   "EXAMPLES:" ++ nl ++
   "  devcockpit                      # Start the interactive interface" ++ nl ++
   "  devcockpit --debug              # Launch with live debug output" ++ nl ++
   "  devcockpit cleanup empty-trash  # Empty trash from command line" ++ nl ++
   "  devcockpit update               # Update to the latest version" ++ nl ++
   "  devcockpit uninstall            # Uninstall Dev Cockpit" ++ nl ++
   nl ++
   "CONFIGURATION:" ++ nl ++
   "  Config: ~/.devcockpit/config.yaml" ++ nl ++
   "  Logs:   ~/.devcockpit/debug.log" ++ nl ++
   nl ++
   "KEYBOARD SHORTCUTS (in TUI):" ++ nl ++
   "  1-9         Jump to module" ++ nl ++
   "  Tab         Cycle through modules" ++ nl ++
   "  ↑/↓         Navigate lists" ++ nl ++
   "  Enter       Select/Execute" ++ nl ++
   "  ESC         Go back / Close modal" ++ nl ++
   "  q, Ctrl+C   Quit" ++ nl ++
   nl ++
   "DOCUMENTATION:" ++ nl ++
   "  Website: https://devcockpit.app" ++ nl ++
   "  GitHub:  https://github.com/caioricciuti/dev-cockpit" ++ nl ++
   "  Issues:  https://github.com/caioricciuti/dev-cockpit/issues" ++ nl ++
   nl ++
   "SUPPORT:" ++ nl ++
   "  Sponsor: https://github.com/sponsors/caioricciuti" ++ nl ++
   "  Donate:  https://buymeacoffee.com/caioricciuti" ++ nl ++
   nl ++
   "Pro Tip: Run 'devcockpit' to explore all features interactively!" ++ nl)%string.

(** [showHelp()], in main.go and in the later revision. *)
Definition showHelp : M W unit :=
  call (Print helpText) ;; ret tt.
Definition showHelp_cli_first : M W unit :=
  call (Print helpText_cli_first) ;; ret tt.

(** Launching the interactive program: [app.New], [tea.NewProgram] and
    [p.Run()]; [log.Fatal] exits with status 1. *)
Definition runTUI : M W Z :=
  r <- call (External "tea.Program.Run") ;;
  match r_err r with Some _ => ret 1 | None => ret 0 end.

(** What [main] of main.go does before it looks at the command line:
    banner and configuration ([logger.Initialize] returns nil on every
    path). *)
Definition startup (args : list string) : M W Response :=
  banner (debugFlag args) ;; call (External "config.Load").

(** [main()]; the result is the exit status of the process. *)
Definition main (args : list string) : M W Z :=
  cfg <- startup args ;;
  match r_err cfg with
  | Some _ => ret 1
  | None =>
      let arg1 := if (1 <? quickactions.len args)%Z
                  then quickactions.index args 1 else None in
      match arg1 with
      | Some a =>
          if quickactions.key_is a ["version"; "--version"; "-v"]
          then call (Print ("Dev Cockpit v" ++ version ++ nl)%string) ;; ret 0
          else if quickactions.key_is a ["cleanup"] then cleanup args
          else if quickactions.key_is a ["help"; "--help"; "-h"]
          then showHelp ;; ret 0
          else if quickactions.key_is a ["logs"; "--logs"]
          then path <- GetLogPath ;;
               call (Print ("Log file location: " ++ path ++ nl)%string) ;;
               ret 0
          else runTUI
      | None => runTUI
      end
  end.

(** The later revision of [main()], which looks at the command line
    before the logger is set up and also knows [uninstall] and
    [update]. *)
Definition main_cli_first (args : list string) : M W Z :=
  let launch :=
    cfg <- startup args ;;
    match r_err cfg with
    | Some _ => ret 1
    | None => runTUI
    end in
  let arg1 := if (1 <? quickactions.len args)%Z
              then quickactions.index args 1 else None in
  match arg1 with
  | Some a =>
      if quickactions.key_is a ["version"; "--version"; "-v"]
      then call (Print ("Dev Cockpit v" ++ version ++ nl)%string) ;; ret 0
      else if quickactions.key_is a ["cleanup"] then cleanup args
      else if quickactions.key_is a ["help"; "--help"; "-h"]
      then showHelp_cli_first ;; ret 0
      else if quickactions.key_is a ["logs"; "--logs"]
      then path <- GetLogPath ;;
           call (Print ("Log file location: " ++ path ++ nl)%string) ;;
           ret 0
      else if quickactions.key_is a ["uninstall"; "--uninstall"]
      then r <- call (External "uninstaller.Uninstall") ;;
           match err_of r with
           | Some e =>
               call (Print ("Uninstall failed: " ++ Error e ++ nl)%string) ;;
               ret 1
           | None => ret 0
           end
      else if quickactions.key_is a ["update"; "--update"]
      then r <- call (External "updater.Update") ;;
           match err_of r with
           | Some e =>
               call (Print ("Update failed: " ++ Error e ++ nl)%string) ;;
               ret 1
           | None => ret 0
           end
      else launch
  | None => launch
  end.

End Main.

(** What a run wrote to standard output. *)
Fixpoint stdout (evs : list Event) : string :=
  match evs with
  | [] => EmptyString
  | (Print text, _) :: rest => (text ++ stdout rest)%string
  | _ :: rest => stdout rest
  end.

End devcockpit.

(* ------------------------------------------------------------------ *)
(** ** internal/ui/components/layout.go *)

Module components.

Record Layout := mkLayout {
  Width : Z;
  Height : Z;
  TabsHeight : Z;
  FooterHeight : Z;
  HintHeight : Z;
  ContentWidth : Z;
  ContentHeight : Z
}.

(** [NewLayout(width, height)]. *)
Definition NewLayout (width height : Z) : Layout :=
  let TabsHeight := 4 in
  let FooterHeight := 3 in
  let HintHeight := 0 in
  let ContentWidth := Go.sub width 4 in
  let ContentWidth := if (ContentWidth <? 40)%Z then 40 else ContentWidth in
  let ContentHeight :=
    Go.sub (Go.sub (Go.sub height TabsHeight) FooterHeight) 2 in
  let ContentHeight :=
    if (ContentHeight <? 10)%Z then 10 else ContentHeight in
  mkLayout width height TabsHeight FooterHeight HintHeight
           ContentWidth ContentHeight.

(** [WithHint()]: the new content height is computed from the fields of
    the receiver [l], its [HintHeight] included. *)
Definition WithHint (l : Layout) : Layout :=
  let ContentHeight :=
    Go.sub (Go.sub (Go.sub (Go.sub (Height l) (TabsHeight l))
                           (FooterHeight l)) (HintHeight l)) 2 in
  let ContentHeight :=
    if (ContentHeight <? 10)%Z then 10 else ContentHeight in
  mkLayout (Width l) (Height l) (TabsHeight l) (FooterHeight l) 3
           (ContentWidth l) ContentHeight.

(** [x * y] and [x / y] on [int]; the division truncates toward zero. *)
Definition mul (x y : Z) : Z := Go.wrap (x * y).
Definition quot (x y : Z) : Z := Go.wrap (Z.quot x y).

(** [SplitHorizontal(columns, spacing)]. *)
Definition SplitHorizontal (l : Layout) (columns spacing : Z) : list Z :=
  if (columns <=? 0)%Z then []
  else
    let totalSpacing := mul spacing (Go.sub columns 1) in
    let availableWidth := Go.sub (ContentWidth l) totalSpacing in
    let columnWidth := quot availableWidth columns in
    let columnWidth := if (columnWidth <? 20)%Z then 20 else columnWidth in
    repeat columnWidth (Z.to_nat columns).

Record BoxDimensions := mkBox {
  OuterWidth : Z;
  OuterHeight : Z;
  InnerWidth : Z;
  InnerHeight : Z;
  PaddingX : Z;
  PaddingY : Z
}.

(** [CalculateBoxDimensions(...)]. *)
Definition CalculateBoxDimensions (outerWidth outerHeight paddingX paddingY : Z)
    (hasBorder : bool) : BoxDimensions :=
  let borderOffset := if hasBorder then 2 else 0 in
  let InnerWidth :=
    Go.sub (Go.sub outerWidth borderOffset) (mul paddingX 2) in
  let InnerWidth := if (InnerWidth <? 10)%Z then 10 else InnerWidth in
  let InnerHeight :=
    Go.sub (Go.sub outerHeight borderOffset) (mul paddingY 2) in
  let InnerHeight := if (InnerHeight <? 3)%Z then 3 else InnerHeight in
  mkBox outerWidth outerHeight InnerWidth InnerHeight paddingX paddingY.

(** [TruncateString(text, width)], with the text given as its runes
    ([[]rune(text)]); 46 is the full stop. *)
Definition TruncateString (runes : list Z) (width : Z) : list Z :=
  if (width <=? 0)%Z then []
  else if (quickactions.len runes <=? width)%Z then runes
  else if (width <=? 3)%Z then firstn (Z.to_nat width) runes
  else firstn (Z.to_nat (Go.sub width 3)) runes ++ [46; 46; 46].

End components.

(* ------------------------------------------------------------------ *)
(** ** internal/modules/network *)

Module network.
Section Network.
Context {L : Lib} {W : Type} {O : OS W}.
(** [gnet.InterfaceStat] of gopsutil. *)
Variable InterfaceStat : Type.

Record Model := mkModel {
  width : Z;
  height : Z;
  ifaces : list InterfaceStat;
  gateway : string;
  output : string;
  cursor : Z
}.

Inductive Msg :=
| WindowSizeMsg (w h : Z)
| KeyMsg (key : string)
| netMsg (ifaces : list InterfaceStat) (gateway note : string)
| actionMsg (note : string)
| OtherMsg.

Inductive Cmd :=
| CmdNil
| CmdRefresh                 (* the function built by refresh() *)
| CmdPing (target : string). (* the function built by ping() *)

(** [ping()]: the target is fixed when the command is built. *)
Definition ping (m : Model) : Cmd :=
  CmdPing (if is_empty (gateway m) then "1.1.1.1" else gateway m).

(** [Update(msg)]. *)
Definition Update (m : Model) (msg : Msg) : Model * Cmd :=
  match msg with
  | WindowSizeMsg w h =>
      (mkModel w h (ifaces m) (gateway m) (output m) (cursor m), CmdNil)
  | KeyMsg key =>
      if quickactions.key_is key ["r"] then (m, CmdRefresh)
      else if quickactions.key_is key ["up"; "k"] then
        if (0 <? cursor m)%Z
        then (mkModel (width m) (height m) (ifaces m) (gateway m) (output m)
                      (Go.sub (cursor m) 1), CmdNil)
        else (m, CmdNil)
      else if quickactions.key_is key ["down"; "j"] then
        if (cursor m <? Go.sub (quickactions.len (ifaces m)) 1)%Z
        then (mkModel (width m) (height m) (ifaces m) (gateway m) (output m)
                      (Go.add (cursor m) 1), CmdNil)
        else (m, CmdNil)
      else if quickactions.key_is key ["p"] then (m, ping m)
      else (m, CmdNil)
  | netMsg ifs gw note =>
      let cursor' := if (quickactions.len ifs <=? cursor m)%Z
                     then 0 else cursor m in
      (mkModel (width m) (height m) ifs gw note cursor', CmdNil)
  | actionMsg note =>
      (mkModel (width m) (height m) (ifaces m) (gateway m) note (cursor m),
       CmdNil)
  | OtherMsg => (m, CmdNil)
  end.

(** [getDefaultGateway()]. *)
Definition getDefaultGateway : M W string :=
  r <- call (Exec ["sh"; "-c";
                   "route get default | awk '/gateway/{print $2}'"]
                  None None StdoutOnly) ;;
  match r_err r with
  | Some _ => ret EmptyString
  | None => ret (TrimSpace (r_out r))
  end.

End Network.

Arguments cursor {InterfaceStat}.
Arguments ifaces {InterfaceStat}.
Arguments Update {InterfaceStat}.
Arguments netMsg {InterfaceStat}.
Arguments mkModel {InterfaceStat}.
Arguments KeyMsg {InterfaceStat}.

End network.

(* ------------------------------------------------------------------ *)
(** ** internal/modules/cleanup *)

Module cleanup.

(** [uint64] arithmetic. *)
Definition u64 (z : Z) : Z := z mod 2 ^ 64.

(** The loop of [formatBytes]: [for n := bytes/unit; n >= unit; n /= unit]
    with [div *= unit] and [exp++].  [fuel] bounds the number of rounds;
    seven rounds are more than any [uint64] needs. *)
Fixpoint scale (fuel : nat) (n div exp : Z) : Z * Z :=
  match fuel with
  | O => (div, exp)
  | S fuel' =>
      if (1024 <=? n)%Z
      then scale fuel' (n / 1024) (u64 (div * 1024)) (Go.add exp 1)
      else (div, exp)
  end.

(** ["KMGTPE"[exp]]; [None] is the index-out-of-range panic. *)
Definition unitLetter (exp : Z) : option string :=
  if (exp <? 0)%Z then None
  else nth_error ["K"; "M"; "G"; "T"; "P"; "E"] (Z.to_nat exp).

(** The quotient [num / den] of a non-negative by a positive integer,
    rounded to the nearest integer, ties to even. *)
Definition roundHalfEven (num den : Z) : Z :=
  let q := num / den in
  let r := num mod den in
  if (den <? 2 * r)%Z then q + 1
  else if (2 * r =? den)%Z then (if Z.even q then q else q + 1)
  else q.

(** [float64(n)] for a [uint64]: [n] itself below 2^53, otherwise the
    nearest integer with 53 significant bits, ties to even. *)
Definition float64_of_uint64 (n : Z) : Z :=
  if (n <? 2 ^ 53)%Z then n
  else let ulp := 2 ^ (Z.log2 n - 52) in roundHalfEven n ulp * ulp.

(** The hundredths that [%.2f] shows for [num / den]: Go rounds the exact
    value, ties to even. *)
Definition hundredths (num den : Z) : Z := roundHalfEven (100 * num) den.

Definition twoDigits (z : Z) : string :=
  if (z <? 10)%Z then ("0" ++ itoa z)%string else itoa z.

(** [fmt.Sprintf("%.2f", x)] for [x = num / den], not negative. *)
Definition Sprintf_2f (num den : Z) : string :=
  let h := hundredths num den in
  (itoa (h / 100) ++ "." ++ twoDigits (h mod 100))%string.

(** [formatBytes(bytes)]; [None] is a panic.  [div] is a power of two, so
    the division of the two [float64] values is exact. *)
Definition formatBytes (bytes : Z) : option string :=
  if (bytes <? 1024)%Z then Some (itoa bytes ++ " B")%string
  else
    let '(div, exp) := scale 7 (bytes / 1024) 1024 0 in
    match unitLetter exp with
    | Some letter =>
        Some (Sprintf_2f (float64_of_uint64 bytes) div ++ " " ++
              letter ++ "B")%string
    | None => None
    end.
Section Cleanup.
Context {L : Lib} {W : Type} {O : OS W}.
(** [fmt.Sscanf(s, "%d", &kb)] for a [uint64] that starts at zero. *)
Variable Sscan_uint : string -> Z.

(** [CleanupTarget]; [Timeout] in milliseconds. *)
Record CleanupTarget := mkTarget {
  Name : string;
  Path : string;
  Description : string;
  Size : Z;
  Selected : bool;
  Timeout : Z
}.

(** [CleanupResult], without its [Duration], which is read off the
    clock. *)
Record CleanupResult := mkResult {
  Target : string;
  Success : bool;
  Freed : Z;
  Error_ : option error
}.

(** [getSizeWithTimeout(path, timeout)]: the caller waits for [du] until
    the deadline and takes 0 when it passes. *)
Definition getSizeWithTimeout (path : string) (timeout : Z) : M W Z :=
  r <- call (Exec ["du"; "-sk"; path] None (Some timeout) StdoutOnly) ;;
  if r_deadline r then ret 0
  else
    match r_err r with
    | Some _ => ret 0
    | None => ret (u64 (Sscan_uint (r_out r) * 1024))
    end.

(** [cleanTarget(path, timeout)]: the deadline is 60 seconds whatever
    [timeout] is. *)
Definition cleanTarget (path : string) (timeout : Z) : M W (option error) :=
  r <- call (Exec ["sh"; "-c"; ("rm -rf " ++ path ++ "/* 2>/dev/null")%string]
                  None (Some 60000) NoCapture) ;;
  if r_deadline r
  then ret (Some (Errorf "cleanup timed out after 60 seconds"))
  else ret (err_of r).

(** The function built by [performCleanup()]: its loop over the
    targets. *)
Fixpoint cleanTargets (targets : list CleanupTarget)
    (results : list CleanupResult) : M W (list CleanupResult) :=
  match targets with
  | [] => ret results
  | target :: rest =>
      if negb (Selected target) then cleanTargets rest results
      else
        st <- call (Stat (Path target)) ;;
        if IsNotExist (err_of st)
        then cleanTargets rest
               (results ++ [mkResult (Name target) true 0 None])
        else
          sizeBefore <- getSizeWithTimeout (Path target) (Timeout target) ;;
          err <- cleanTarget (Path target) (Timeout target) ;;
          sizeAfter <-
            (match err with
             | None => getSizeWithTimeout (Path target) (Timeout target)
             | Some _ => ret 0
             end) ;;
          let freed := u64 (sizeBefore - sizeAfter) in
          cleanTargets rest
            (results ++
             [mkResult (Name target) (match err with None => true | Some _ => false end) freed err])
  end.

End Cleanup.
End cleanup.

(* ------------------------------------------------------------------ *)
(** ** Reference instances, used to run the model on concrete inputs *)

Module Reference.

Definition is_space (c : ascii) : bool :=
  let n := nat_of_ascii c in
  ((n =? 32) || ((9 <=? n) && (n <=? 13)))%nat%bool.

Definition lower (c : ascii) : ascii :=
  let n := nat_of_ascii c in
  if ((65 <=? n) && (n <=? 90))%nat%bool then ascii_of_nat (n + 32) else c.

Fixpoint map_string (f : ascii -> ascii) (s : string) : string :=
  match s with
  | EmptyString => EmptyString
  | String c r => String (f c) (map_string f r)
  end.

Fixpoint trim_left (s : string) : string :=
  match s with
  | EmptyString => EmptyString
  | String c r => if is_space c then trim_left r else s
  end.

Fixpoint trim_right (s : string) : string :=
  match s with
  | EmptyString => EmptyString
  | String c r =>
      let r' := trim_right r in
      if (is_space c && is_empty r')%bool then EmptyString else String c r'
  end.

Definition digit (c : ascii) : option Z :=
  let n := nat_of_ascii c in
  if ((48 <=? n) && (n <=? 57))%nat%bool then Some (Z.of_nat (n - 48)) else None.

(** The longest run of decimal digits at the start of [s], read in base
    ten; [None] when there is no digit. *)
Fixpoint digits (s : string) (acc : option Z) : option Z :=
  match s with
  | EmptyString => acc
  | String c r =>
      match digit c with
      | Some d => digits r (Some (10 * match acc with Some a => a | None => 0 end + d))
      | None => acc
      end
  end.

Definition scan_int (s : string) : option Z :=
  let signed :=
    match s with
    | String "-" r => option_map Z.opp (digits r None)
    | String "+" r => digits r None
    | _ => digits s None
    end in
  match signed with
  | Some z => if ((int_min <=? z) && (z <=? int_max))%Z%bool then Some z else None
  | None => None
  end.

Lemma scan_int_range (s : string) (z : Z) : scan_int s = Some z -> in_int z.
Proof.
  unfold scan_int, in_int.
  destruct (match s with
            | String "-" r => option_map Z.opp (digits r None)
            | String "+" r => digits r None
            | _ => digits s None
            end) as [v|]; [|discriminate].
  destruct ((int_min <=? v)%Z && (v <=? int_max)%Z)%bool eqn:E; [|discriminate].
  intros H; injection H as <-.
  apply andb_true_iff in E. destruct E as [E1 E2].
  split; [apply Z.leb_le, E1 | apply Z.leb_le, E2].
Qed.

(** Go's library restricted to ASCII text and to paths that need no
    cleaning. *)
#[export] Instance ascii_lib : Lib := {|
  ToLower := map_string lower;
  TrimSpace := fun s => trim_right (trim_left s);
  Sscan_int := scan_int;
  Sscan_int_range := scan_int_range;
  filepath_Join := fun a b => if is_empty a then b else (a ++ "/" ++ b)%string
|}.

(** An operating system that replays a script: the n-th call gets the
    n-th answer, whatever the call; past the end every call succeeds with
    no output. *)
Definition ok : Response := mkResponse EmptyString None false.
Definition says (out : string) : Response := mkResponse out None false.
Definition fails (code : Z) (out : string) : Response :=
  mkResponse out (Some (mkOSError (ExitStatus code)
                          ("exit status " ++ itoa code)%string)) false.
Definition missing : Response :=
  mkResponse EmptyString
             (Some (mkOSError NotExist "no such file or directory")) false.

#[export] Instance scripted : OS (list Response) := {|
  sys := fun _ w => match w with r :: rest => (r, rest) | [] => (ok, []) end
|}.

(** [strings.Fields] on ASCII text: the maximal runs of characters that
    are not white space. *)
Fixpoint fields_from (s word : string) : list string :=
  match s with
  | EmptyString => if is_empty word then [] else [word]
  | String c r =>
      if is_space c
      then if is_empty word then fields_from r EmptyString
           else word :: fields_from r EmptyString
      else fields_from r (word ++ String c EmptyString)%string
  end.

Definition fields (s : string) : list string := fields_from s EmptyString.

Definition start (script : list Response) (cache : string)
    : St (list Response) := mkSt script cache.

End Reference.

(* ------------------------------------------------------------------ *)
(** ** Observations on a run *)

Module Observe.
Section Observe.
Context {L : Lib}.

(** A call made through one of the [run...WithTimeout] helpers returned
    nil: the deadline had not passed and the process reported no error. *)
Definition succeeded (r : Response) : bool :=
  (negb (r_deadline r) &&
   match r_err r with None => true | Some _ => false end)%bool.

(** The output that a [run...WithTimeoutOutput] helper hands back. *)
Definition output (r : Response) : string :=
  if r_deadline r then EmptyString else r_out r.

(** The item count read from the answer to a counting command. *)
Definition counted (r : Response) : Z := quickactions.scanCount (output r).

(** The answer to the n-th call of a run, and to its last call. *)
Definition response (n : nat) (evs : list Event) : Response :=
  nth n (map snd evs) noResponse.
Definition lastResponse (evs : list Event) : Response :=
  last (map snd evs) noResponse.

(** Empty Trash and Clean Downloads start alike: home directory, [os.Stat]
    of the target, count. *)
Definition homeDir (evs : list Event) : string := r_out (response 0 evs).
Definition dirExists (evs : list Event) : bool :=
  negb (IsNotExist (err_of (response 1 evs))).
Definition preCount (evs : list Event) : Z := counted (response 2 evs).
Definition postCount (evs : list Event) : Z := counted (lastResponse evs).

Definition shell (timeout : Z) (capture : Capture) (cmd : string) : Call :=
  Exec ["sh"; "-c"; cmd] None (Some timeout) capture.

Definition trashPath (evs : list Event) : string :=
  filepath_Join (homeDir evs) ".Trash".
Definition countTrash (path : string) : Call :=
  shell quickactions.shortCommandTimeout Combined
        (quickactions.countTrashCmd path).


(** The command line asks for [cleanup empty-trash]. *)
Definition invokesEmptyTrash (args : list string) : bool :=
  match args with
  | _ :: a1 :: a2 :: _ =>
      (String.eqb a1 "cleanup" &&
       quickactions.key_is a2 ["empty-trash"; "--empty-trash"])%bool
  | _ => false
  end.

(** *** Clean Downloads *)

Definition downloadsPath (evs : list Event) : string :=
  filepath_Join (homeDir evs) "Downloads".
Definition countOld (path : string) : Call :=
  shell quickactions.shortCommandTimeout Combined
        (quickactions.countOldCmd path).
Definition deleteOld (path : string) : Call :=
  shell quickactions.defaultCommandTimeout NoCapture
        (quickactions.deleteOldCmd path).
(** The answer to the deleting command, the fourth call. *)
Definition deletion (evs : list Event) : Response := response 3 evs.

(** *** The composite action and the session *)

(** How many sub-actions returned nil, how many an error. *)
Definition isNil (o : option error) : bool :=
  match o with None => true | Some _ => false end.
Definition succeededCount (outcomes : list (option error)) : Z :=
  Z.of_nat (List.length (filter isNil outcomes)).
Definition failedCount (outcomes : list (option error)) : Z :=
  Z.of_nat (List.length (filter (fun o => negb (isNil o)) outcomes)).

(** The command makes the runtime execute an action. *)
Fixpoint startsAction (c : quickactions.Cmd) : bool :=
  match c with
  | quickactions.CmdRunAction _ => true
  | quickactions.CmdRunFixAll => true
  | quickactions.CmdBatch c1 c2 => (startsAction c1 || startsAction c2)%bool
  | _ => false
  end.

(** The message neither reports a completion nor moves the focus. *)
Definition keepsRunning (msg : quickactions.Msg) : bool :=
  match msg with
  | quickactions.ActionComplete _ => false
  | quickactions.Blur => false
  | quickactions.Focus => false
  | _ => true
  end.

(** The model after a sequence of messages, with the commands issued on
    the way; [None] when an [Update] panics. *)
Fixpoint deliver (m : quickactions.Model) (msgs : list quickactions.Msg)
    : option (quickactions.Model * list quickactions.Cmd) :=
  match msgs with
  | [] => Some (m, [])
  | msg :: rest =>
      match quickactions.Update m msg with
      | None => None
      | Some (m', c) =>
          match deliver m' rest with
          | None => None
          | Some (m'', cs) => Some (m'', c :: cs)
          end
      end
  end.

(** The three results of a completed Empty Trash. *)
Definition partial (residual : Z) : error :=
  Errorf ("partially cleaned: " ++ itoa residual ++
          " items remain (some may be in use)")%string.
Definition failure (residual : Z) : error :=
  Errorf ("failed to empty trash: " ++ itoa residual ++ " items remain")%string.

(** *** The gateway *)

(** The calls of the gateway are told apart by their first words. *)
Definition isPrompt (c : Call) : bool :=
  match c with Exec ("osascript" :: _) _ _ _ => true | _ => false end.
Definition isElevated (c : Call) : bool :=
  match c with Exec ("sudo" :: "-S" :: _) _ _ _ => true | _ => false end.

(** The argument vector and the standard input of a subprocess. *)
Definition argvOf (c : Call) : list string :=
  match c with Exec argv _ _ _ => argv | _ => [] end.
Definition stdinOf (c : Call) : option string :=
  match c with Exec _ stdin _ _ => stdin | _ => None end.

(** The first call of a [Run] shows an elevation need. *)
Definition needsElevation (r : Response) : bool :=
  sudo.requiresPassword (r_out r) (err_of r).

(** The dialog delivered a secret. *)
Definition usable (r : Response) : bool :=
  match r_err r with
  | None => negb (is_empty (TrimSpace (r_out r)))
  | Some _ => false
  end.

(** An elevated execution failed with the privilege-required signature. *)
Definition rejected (r : Response) : bool :=
  sudo.requiresPassword (r_out r) (err_of r).

(** Events that fill and that clear the cache. *)
Definition populates (e : Event) : bool :=
  (isPrompt (fst e) && usable (snd e))%bool.
Definition invalidates (e : Event) : bool :=
  (isElevated (fst e) && rejected (snd e))%bool.

Definition populations (evs : list Event) : nat :=
  List.length (filter populates evs).
Definition invalidations (evs : list Event) : nat :=
  List.length (filter invalidates evs).

(** 1 when a credential is cached, 0 when the cache is empty. *)
Definition occupied {W} (s : St W) : nat :=
  if is_empty (cachedPassword s) then 0%nat else 1%nat.

(** A process run, as far as the gateway is concerned: elevated commands
    one after the other. *)
Fixpoint runAll {W} {O : OS W} (cmds : list (string * list string))
    : M W unit :=
  match cmds with
  | [] => ret tt
  | (command, args) :: rest =>
      (sudo.Run command args ;; runAll rest)%go
  end.

(** *** Fix WiFi *)

Definition powerOff (candidate : string) : Call :=
  quickactions.airportPower candidate "off".
Definition powerOn (candidate : string) : Call :=
  quickactions.airportPower candidate "on".

(** A WiFi power command, for whatever target. *)
Definition isPowerCommand (c : Call) : bool :=
  match c with
  | Exec ("networksetup" :: "-setairportpower" :: _) _ _ _ => true
  | _ => false
  end.

Definition noPowerCommand (c : Call) : bool := negb (isPowerCommand c).

(** [Attempts tried evs won]: the events [evs] are the power cycles of the
    candidates [tried], in this order and nothing else.  A cycle is the
    power-off command and, when that succeeded, a sleep of two seconds
    and the power-on command.  Only the last candidate can have a cycle
    that succeeded in full, and [won] tells whether it has. *)
Inductive Attempts : list string -> list Event -> bool -> Prop :=
| Attempts_none : Attempts [] [] false
| Attempts_off_failed c tried off evs won :
    succeeded off = false ->
    Attempts tried evs won ->
    Attempts (c :: tried) ((powerOff c, off) :: evs) won
| Attempts_on_failed c tried off slept on evs won :
    succeeded off = true ->
    succeeded on = false ->
    Attempts tried evs won ->
    Attempts (c :: tried)
             ((powerOff c, off) :: (Sleep 2000, slept) :: (powerOn c, on) :: evs)
             won
| Attempts_won c off slept on :
    succeeded off = true ->
    succeeded on = true ->
    Attempts [c] [(powerOff c, off); (Sleep 2000, slept); (powerOn c, on)] true.

(** The classification that ends [emptyTrashInternal]. *)
Definition verdict (before after : Z) : option error :=
  if (after =? 0)%Z then None
  else if (after <? before)%Z then Some (partial after)
  else Some (failure after).

End Observe.
End Observe.

(* ------------------------------------------------------------------ *)
(** ** Further observations: the gateway, the actions, the session, the
    command line and the cleanup module *)

Module Traces.

(** *** The session *)

(** The states the quick actions module can be in: the one [New] builds
    and what [Update] makes of them. *)
Inductive reachable : quickactions.Model -> Prop :=
| reachable_New : reachable quickactions.New
| reachable_Update m msg m' c :
    reachable m -> quickactions.Update m msg = Some (m', c) -> reachable m'.

(** What never changes in a session, and the ranges of what does. *)
Definition steady (m : quickactions.Model) : Prop :=
  quickactions.actions m = quickactions.catalog /\
  quickactions.grouped m = quickactions.grouped quickactions.New /\
  quickactions.categories m = quickactions.categories quickactions.New /\
  quickactions.categoryIndex m = 0 /\
  0 <= quickactions.actionIndex m < quickactions.len quickactions.catalog /\
  0 <= quickactions.spinnerFrame m < 10.

(** The actions of a category, in catalog order. *)
Definition inCategory (category : string) (acts : list quickactions.Action)
    : list quickactions.Action :=
  filter (fun a => String.eqb (quickactions.Category a) category) acts.

(** *** The cleanup module *)

(** The call works on the directory of the cleanup target: the
    [os.Stat], the [du -sk] under the target's deadline, or the [rm -rf]
    of its contents under the fixed deadline of 60 seconds. *)
Definition concerns (c : Call) (t : cleanup.CleanupTarget) : Prop :=
  c = Stat (cleanup.Path t) \/
  c = Exec ["du"; "-sk"; cleanup.Path t] None (Some (cleanup.Timeout t))
           StdoutOnly \/
  c = Exec ["sh"; "-c";
            ("rm -rf " ++ cleanup.Path t ++ "/* 2>/dev/null")%string]
           None (Some 60000) NoCapture.

Section Traces.
Context {L : Lib} {W : Type} {O : OS W}.

(** *** The gateway *)

(** The last event of a run; a run without calls has none. *)
Definition lastEvent (evs : list Event) : option Event :=
  match rev evs with e :: _ => Some e | [] => None end.

(** The event is a [sudo] process that exited without error. *)
Definition sudoExitedClean (e : Event) : bool :=
  match fst e with
  | Exec ("sudo" :: _) _ _ _ => Observe.isNil (err_of (snd e))
  | _ => false
  end.

(** The dialog was dismissed: [osascript] exited with status 1, or the
    answer is empty once trimmed. *)
Definition dismissed (r : Response) : bool :=
  match r_err r with
  | Some {| os_kind := ExitStatus 1 |} => true
  | Some _ => false
  | None => is_empty (TrimSpace (r_out r))
  end.

(** The first, unprivileged attempt of [executeSudoCommand]. *)
Definition plainCall (command : string) (args : list string) : Call :=
  Exec (command :: args) None (Some quickactions.defaultCommandTimeout)
       Combined.

Definition cancelled : error := Errorf "administrator approval cancelled".

(** *** The actions *)

(** The call cannot ask for privilege and cannot hang: it starts no
    process, or it starts one that is neither [sudo] nor the dialog, gets
    no standard input and is under a deadline of at most one minute. *)
Definition boundedUnprivileged (c : Call) : bool :=
  match c with
  | Exec (name :: _) None (Some t) _ =>
      (negb (String.eqb name "sudo") && negb (String.eqb name "osascript") &&
       (0 <? t)%Z && (t <=? 60000)%Z)%bool
  | Exec _ _ _ _ => false
  | _ => true
  end.

(** A process started through [runCommandWithTimeout]. *)
Definition command (timeout : Z) (name : string) (args : list string) : Call :=
  Exec (name :: args) None (Some timeout) NoCapture.

(** The event is a process, started through one of the
    [run...WithTimeout] helpers, that returned nil. *)
Definition processSucceeded (e : Event) : bool :=
  match fst e with
  | Exec _ _ (Some _) _ => Observe.succeeded (snd e)
  | _ => false
  end.

(** How many processes of the run returned nil. *)
Definition successes (evs : list Event) : Z :=
  Z.of_nat (List.length (filter processSucceeded evs)).

(** The event is a WiFi power-on command that returned nil. *)
Definition poweredOn (e : Event) : bool :=
  match fst e with
  | Exec [name; flag; _; state] _ _ _ =>
      (String.eqb name "networksetup" &&
       String.eqb flag "-setairportpower" &&
       String.eqb state "on" && Observe.succeeded (snd e))%bool
  | _ => false
  end.

(** The calls of [killHeavyProcesses]. *)
Definition listHeavyProcesses : Call :=
  Observe.shell quickactions.shortCommandTimeout Combined
                quickactions.heavyProcessesCmd.
Definition killCall (pid : string) : Call :=
  command quickactions.shortCommandTimeout "kill" ["-9"; pid].
Definition nonEmpty (s : string) : bool := negb (is_empty s).

(** The five commands of the removal methods of Empty Trash. *)
Definition unlockCmd (path : string) : string :=
  ("chflags -R nouchg,noschg,nouappnd,noschg " ++ path ++
   "/* 2>/dev/null || true")%string.
Definition removeCmd (path : string) : string :=
  ("rm -rf " ++ path ++ "/* " ++ path ++ "/.[!.]* 2>/dev/null || true")%string.
Definition findUnlockCmd (path : string) : string :=
  ("find " ++ path ++
   " -mindepth 1 -exec chflags nouchg,nouappnd {} + 2>/dev/null || true")%string.
Definition findDeleteCmd (path : string) : string :=
  ("find " ++ path ++ " -mindepth 1 -delete 2>/dev/null")%string.
Definition sudoRemoveCmd (path : string) : string :=
  ("chflags -R nouchg,nouappnd " ++ path ++ "/* 2>/dev/null; rm -rf " ++
   path ++ "/* " ++ path ++ "/.[!.]* 2>/dev/null")%string.

(** The unprivileged calls of the removal methods, in their order. *)
Definition directRemoval (path : string) : list Call :=
  [Observe.shell quickactions.shortCommandTimeout NoCapture (unlockCmd path);
   Observe.shell quickactions.defaultCommandTimeout NoCapture (removeCmd path)].
Definition findRemoval (path : string) : list Call :=
  [Observe.shell quickactions.defaultCommandTimeout NoCapture
                 (findUnlockCmd path);
   Observe.shell quickactions.defaultCommandTimeout NoCapture
                 (findDeleteCmd path)].

(** *** The command line *)

(** [os.Args[1]], when the command line has one. *)
Definition subcommand (args : list string) : option string :=
  match args with _ :: a :: _ => Some a | _ => None end.

(** The words that select a branch of the switch on [os.Args[1]], in
    main.go and in the later revision. *)
Definition earlyCommands : list string :=
  ["version"; "--version"; "-v"] ++ ["cleanup"] ++
  ["help"; "--help"; "-h"] ++ ["logs"; "--logs"].
Definition laterCommands : list string :=
  earlyCommands ++ ["uninstall"; "--uninstall"] ++ ["update"; "--update"].

Definition isOneOf (words : list string) (o : option string) : bool :=
  match o with Some a => quickactions.key_is a words | None => false end.

(** The start-up followed by the interactive program. *)
Definition launch (args : list string) : M W Z :=
  cfg <- devcockpit.startup args ;;
  match r_err cfg with
  | Some _ => ret 1
  | None => devcockpit.runTUI
  end.

Definition usageLine : string :=
  ("Usage: devcockpit cleanup empty-trash" ++ nl)%string.

(** The call is not the loading of the configuration. *)
Definition notConfigLoad (c : Call) : bool :=
  match c with
  | External name => negb (String.eqb name "config.Load")
  | _ => true
  end.

(** *** The active interface *)

(** The three kinds of probe of [getActiveNetworkInterface]. *)
Definition routeCall : Call :=
  Observe.shell quickactions.shortCommandTimeout Combined
    "route -n get default 2>/dev/null | grep 'interface:' | awk '{print $2}'".
Definition ifconfigCall (iface : string) : Call :=
  Observe.shell quickactions.shortCommandTimeout NoCapture
    ("ifconfig " ++ iface ++ " 2>/dev/null | grep -q 'status: active'").
Definition getinfoCall (service : string) : Call :=
  command quickactions.shortCommandTimeout "networksetup"
    ["-getinfo"; service].

(** The interface that the answer to the route command names, if it
    names one: the command returned nil and its trimmed output is not
    empty. *)
Definition routed (r : Response) : option string :=
  if (Observe.succeeded r && (0 <? String.length (r_out r))%nat &&
      negb (is_empty (TrimSpace (r_out r))))%bool
  then Some (TrimSpace (r_out r))
  else None.

(** [Probes call names evs found]: the events [evs] are the probes
    [call x] of the names, in their order, up to and including the first
    that returned nil; [found] is the name of that one, and [None] when
    every probe failed. *)
Inductive Probes (call : string -> Call)
    : list string -> list Event -> option string -> Prop :=
| Probes_none : Probes call [] [] None
| Probes_found x rest r :
    Observe.succeeded r = true ->
    Probes call (x :: rest) [(call x, r)] (Some x)
| Probes_next x rest r evs found :
    Observe.succeeded r = false ->
    Probes call rest evs found ->
    Probes call (x :: rest) ((call x, r) :: evs) found.
End Traces.
End Traces.

(* ------------------------------------------------------------------ *)
(** ** Reasoning about runs *)

Section Runs.
Context {W : Type}.

Lemma bind_run {A B} (m : M W A) (k : A -> M W B) (s : St W) :
  bind m k s =
  (result (k (result (m s)) (final (m s))),
   final (k (result (m s)) (final (m s))),
   events (m s) ++ events (k (result (m s)) (final (m s)))).
Proof.
  unfold bind, result, final, events.
  destruct (m s) as [[a s1] ev1]; simpl.
  destruct (k a s1) as [[b s2] ev2]; reflexivity.
Qed.

Lemma bind_result {A B} (m : M W A) (k : A -> M W B) (s : St W) :
  result (bind m k s) = result (k (result (m s)) (final (m s))).
Proof. rewrite bind_run; reflexivity. Qed.

Lemma bind_final {A B} (m : M W A) (k : A -> M W B) (s : St W) :
  final (bind m k s) = final (k (result (m s)) (final (m s))).
Proof. rewrite bind_run; reflexivity. Qed.

Lemma bind_events {A B} (m : M W A) (k : A -> M W B) (s : St W) :
  events (bind m k s) =
  events (m s) ++ events (k (result (m s)) (final (m s))).
Proof. rewrite bind_run; reflexivity. Qed.

Lemma bind_assoc {A B C} (m : M W A) (k : A -> M W B) (h : B -> M W C)
    (s : St W) :
  bind (bind m k) h s = bind m (fun a => bind (k a) h) s.
Proof.
  unfold bind. destruct (m s) as [[a s1] e1].
  destruct (k a s1) as [[b s2] e2]. destruct (h b s2) as [[c s3] e3].
  rewrite app_assoc. reflexivity.
Qed.

Lemma run_eta {A} (x : A * St W * list Event) :
  x = (result x, final x, events x).
Proof. destruct x as [[a s] ev]; reflexivity. Qed.

Lemma call_run {O : OS W} (c : Call) (s : St W) :
  call c s =
  (fst (sys c (world s)),
   mkSt (snd (sys c (world s))) (cachedPassword s),
   [(c, fst (sys c (world s)))]).
Proof. unfold call. destruct (sys c (world s)); reflexivity. Qed.

End Runs.

(** One step of a symbolic run in hypothesis [H]: name the answer of the
    next call, or split on the next test. *)
Ltac step_in H :=
  match type of H with
  | context [sys ?c ?w] =>
      let r := fresh "r" in
      let w' := fresh "w" in
      destruct (sys c w) as [r w'] eqn:?
  | context [if ?b then _ else _] =>
      destruct b eqn:?
  end;
  cbn [world cachedPassword fst snd app] in H.

(* ------------------------------------------------------------------ *)
(** ** Empty Trash *)

Section EmptyTrash.
Context {L : Lib} {W : Type} {O : OS W}.
Import quickactions Observe.

Lemma scanCount_output (r : Response) :
  scanCount (fst (if r_deadline r
                  then (EmptyString, Some timedOut)
                  else (r_out r, err_of r))) = counted r.
Proof. unfold counted, output. destruct (r_deadline r); reflexivity. Qed.

(** The calls and the result of [emptyTrashInternal], case by case. *)
Lemma emptyTrash_shape (s : St W) :
  let run := emptyTrashInternal s in
  exists home st,
    let path := filepath_Join (r_out home) ".Trash" in
    (IsNotExist (err_of st) = true /\
     events run = [(UserHomeDir, home); (Stat path, st)] /\
     result run = Some (Errorf "trash directory not found")) \/
    (IsNotExist (err_of st) = false /\
     exists before,
       (counted before = 0 /\
        events run = [(UserHomeDir, home); (Stat path, st);
                      (countTrash path, before)] /\
        result run = None) \/
       (counted before <> 0 /\
        exists s0 after,
          events run =
            [(UserHomeDir, home); (Stat path, st); (countTrash path, before)]
            ++ events (removeTrashContents path s0)
            ++ [(countTrash path, after)] /\
          result run = verdict (counted before) (counted after))).
Proof.
  intros run. remember (emptyTrashInternal s) as run0 eqn:R. subst run.
  unfold emptyTrashInternal, userHomeDir, runShellWithTimeoutOutput in R.
  unfold bind, ret, call in R.
  step_in R. step_in R. exists r, r0. step_in R.
  - left. subst run0. auto.
  - right. split; [reflexivity|]. step_in R. exists r1.
    pose proof (scanCount_output r1) as Hc1.
    destruct (r_deadline r1) eqn:D1; cbn [fst snd app] in R, Hc1;
      rewrite Hc1 in R.
    all: destruct (counted r1 =? 0)%Z eqn:Z1;
      [ left; apply Z.eqb_eq in Z1; subst run0; auto
      | right; apply Z.eqb_neq in Z1; split; [exact Z1|] ].
    all: destruct (removeTrashContents (filepath_Join (r_out r) ".Trash")
                     {| world := w1; cachedPassword := cachedPassword s |})
           as [[b s3] ev3] eqn:Hrm.
    all: step_in R.
    all: exists {| world := w1; cachedPassword := cachedPassword s |}, r2.
    all: rewrite Hrm; pose proof (scanCount_output r2) as Hc2.
    all: destruct (r_deadline r2) eqn:D2; cbn [fst snd app] in R, Hc2;
      rewrite Hc2 in R; unfold verdict, partial, failure.
    all: destruct (counted r2 =? 0)%Z;
      [|destruct (counted r2 <? counted r1)%Z].
    all: subst run0; cbn [events result fst snd app];
      rewrite ?app_nil_r; auto.
Qed.

Lemma partial_not_failure (a b : Z) : partial a <> failure b.
Proof. unfold partial, failure. intros H. discriminate H. Qed.

Lemma lastResponse_snoc (evs : list Event) (c : Call) (r : Response) :
  lastResponse (evs ++ [(c, r)]) = r.
Proof. unfold lastResponse. rewrite map_app. cbn. apply last_last. Qed.

(** The observations of a run of [emptyTrashInternal] that went past the
    first count. *)
Lemma emptyTrash_observed (s : St W) (home st before : Response)
    (rest : list Event) :
  events (emptyTrashInternal s) =
    [(UserHomeDir, home); (Stat (filepath_Join (r_out home) ".Trash"), st);
     (countTrash (filepath_Join (r_out home) ".Trash"), before)] ++ rest ->
  trashPath (events (emptyTrashInternal s)) =
    filepath_Join (r_out home) ".Trash" /\
  preCount (events (emptyTrashInternal s)) = counted before /\
  dirExists (events (emptyTrashInternal s)) = negb (IsNotExist (err_of st)).
Proof.
  intros Hev. unfold trashPath, homeDir, preCount, dirExists, response.
  rewrite Hev. auto.
Qed.

(** A run that found the directory and counted nothing. *)
Lemma emptyTrash_already_empty (s : St W) :
  let run := emptyTrashInternal s in
  let evs := events run in
  dirExists evs = true -> preCount evs = 0 ->
  result run = None /\
  calls run = [UserHomeDir; Stat (trashPath evs); countTrash (trashPath evs)].
Proof.
  intros run evs Hex Hzero.
  destruct (emptyTrash_shape s)
    as (home & st & [(Hne & Hev & Hres) | (Hne & before & Hcases)]).
  - exfalso. subst evs. fold run in Hev. unfold dirExists, response in Hex.
    rewrite Hev in Hex. cbn in Hex. rewrite Hne in Hex. discriminate.
  - fold run in Hcases. fold evs in Hcases.
    destruct Hcases as [(Hz & Hev & Hres) | (Hnz & s0 & after & Hev & Hres)].
    + destruct (emptyTrash_observed s home st before [] Hev) as (Hp & _).
      fold run in Hp. fold evs in Hp.
      split; [exact Hres|].
      unfold calls. fold evs. rewrite Hp, Hev. reflexivity.
    + destruct (emptyTrash_observed s home st before _ Hev) as (_ & Hpre & _).
      fold run in Hpre. fold evs in Hpre. congruence.
Qed.

(** A run that found the directory and counted something: the removal
    methods run, the last call is the recount, and the two counts decide
    the result. *)
Lemma emptyTrash_recounted (s : St W) :
  let run := emptyTrashInternal s in
  let evs := events run in
  dirExists evs = true -> preCount evs <> 0 ->
  result run = verdict (preCount evs) (postCount evs) /\
  exists s0 after,
    evs = firstn 3 evs ++ events (removeTrashContents (trashPath evs) s0) ++
          [(countTrash (trashPath evs), after)].
Proof.
  intros run evs Hex Hnonzero.
  destruct (emptyTrash_shape s)
    as (home & st & [(Hne & Hev & Hres) | (Hne & before & Hcases)]).
  - exfalso. subst evs. fold run in Hev. unfold dirExists, response in Hex.
    rewrite Hev in Hex. cbn in Hex. rewrite Hne in Hex. discriminate.
  - fold run in Hcases. fold evs in Hcases.
    destruct Hcases as [(Hz & Hev & Hres) | (Hnz & s0 & after & Hev & Hres)].
    + destruct (emptyTrash_observed s home st before [] Hev) as (_ & Hpre & _).
      fold run in Hpre. fold evs in Hpre. congruence.
    + destruct (emptyTrash_observed s home st before _ Hev) as (Hp & Hpre & _).
      fold run in Hp, Hpre. fold evs in Hp, Hpre.
      assert (Hpost : postCount evs = counted after).
      { unfold postCount. rewrite Hev. rewrite !app_assoc.
        rewrite lastResponse_snoc. reflexivity. }
      split; [rewrite Hpre, Hpost; exact Hres|].
      exists s0, after. rewrite Hp. rewrite Hev at 1. rewrite Hev. reflexivity.
Qed.


(** C1. Whenever the trash directory exists: a count of 0 before any
    removal gives success with no removal call at all (the run is the
    home-directory lookup, the [os.Stat] and the count); otherwise the
    removal methods run, the count is taken again as the last call, and
    the result is success for a recount of 0, the "partially cleaned"
    error carrying the residual count for a recount strictly between 0
    and the first count, and the "failed to empty trash" error when the
    count is unchanged; the two errors are never the same value. *)
Theorem empty_trash_classification (s : St W) :
  let run := emptyTrashInternal s in
  let evs := events run in
  let path := trashPath evs in
  dirExists evs = true ->
  (preCount evs = 0 ->
     result run = None /\
     calls run = [UserHomeDir; Stat path; countTrash path]) /\
  (preCount evs <> 0 ->
     (exists s0 after,
        evs = firstn 3 evs ++ events (removeTrashContents path s0) ++
              [(countTrash path, after)]) /\
     (postCount evs = 0 -> result run = None) /\
     (0 < postCount evs < preCount evs ->
        result run = Some (partial (postCount evs))) /\
     (postCount evs = preCount evs ->
        result run = Some (failure (postCount evs)))) /\
  (forall a b, partial a <> failure b).
Proof.
  intros run evs path Hex.
  split; [|split; [|apply partial_not_failure]].
  - intros Hzero. exact (emptyTrash_already_empty s Hex Hzero).
  - intros Hnonzero.
    destruct (emptyTrash_recounted s Hex Hnonzero) as (Hres & Hshape).
    fold run in Hres. fold evs in Hres.
    split; [exact Hshape|]. rewrite Hres. unfold verdict.
    split; [|split].
    + intros H0. rewrite H0. reflexivity.
    + intros [H1 H2]. destruct (Z.eqb_spec (postCount evs) 0); [lia|].
      destruct (Z.ltb_spec (postCount evs) (preCount evs)); [reflexivity|lia].
    + intros He. destruct (Z.eqb_spec (postCount evs) 0); [congruence|].
      destruct (Z.ltb_spec (postCount evs) (preCount evs)); [lia|reflexivity].
Qed.

End EmptyTrash.

Section EmptyTrashRun.
#[local] Existing Instance Reference.ascii_lib.
#[local] Existing Instance Reference.scripted.

(** A trash with three entries of which the removal leaves one. *)
Lemma empty_trash_classification_witness :
  let s := Reference.start
             [Reference.says "/Users/dev"; Reference.ok;
              Reference.says "       3"; Reference.ok; Reference.ok;
              Reference.says "       1"] EmptyString in
  let run := quickactions.emptyTrashInternal s in
  Observe.dirExists (events run) = true /\
  result run = Some (Observe.partial 1).
Proof.
  intros s run.
  assert (Hex : Observe.dirExists (events run) = true) by reflexivity.
  split; [exact Hex|].
  destruct (empty_trash_classification s Hex) as (_ & H & _).
  destruct H as (_ & _ & Hpartial & _).
  - vm_compute. discriminate.
  - apply Hpartial. vm_compute. split; reflexivity.
Defined.

End EmptyTrashRun.

(* ------------------------------------------------------------------ *)
(** ** Computations whose calls all satisfy a test *)

Section Only.
Context {L : Lib} {W : Type} {O : OS W}.
Variable P : Call -> bool.

Lemma Only_ret {A} (a : A) : Only (W := W) P (ret a).
Proof. intros s. constructor. Qed.

Lemma Only_bind {A B} (m : M W A) (k : A -> M W B) :
  Only P m -> (forall a, Only P (k a)) -> Only P (bind m k).
Proof.
  intros Hm Hk s. rewrite bind_events. apply Forall_app. split; [apply Hm|apply Hk].
Qed.

Lemma Only_call (c : Call) : P c = true -> Only P (call c).
Proof.
  intros Hc s. rewrite call_run. cbn [events snd]. repeat constructor. exact Hc.
Qed.

Lemma Only_get : Only (W := W) P get_cachedPassword.
Proof. intros s. constructor. Qed.

Lemma Only_set p : Only (W := W) P (set_cachedPassword p).
Proof. intros s. constructor. Qed.

End Only.

Create HintDb only.
#[export] Hint Resolve Only_ret Only_get Only_set : only.

(** Follow the structure of a computation down to its calls. *)
Ltac only_calls :=
  repeat first
    [ solve [auto with only]
    | solve [apply Only_call; reflexivity]
    | apply Only_bind; [|intros ?]
    | match goal with
      | |- Only _ (match ?x with _ => _ end) => destruct x
      | |- Only _ (if ?b then _ else _) => destruct b
      | |- Only _ (let _ := _ in _) => cbv zeta
      end ].

Section OnlyActions.
Context {L : Lib} {W : Type} {O : OS W}.
Import quickactions.


Lemma append_empty_r (a : string) : (a ++ EmptyString)%string = a.
Proof. induction a as [|x a IH]; cbn; [reflexivity | now rewrite IH]. Qed.



Section OnlyGateway.
Variable P : Call -> bool.
Hypothesis P_exec : forall argv stdin timeout capture,
  P (Exec argv stdin timeout capture) = true.

Lemma Only_promptPassword : Only P sudo.promptPassword.
Proof.
  unfold sudo.promptPassword. apply Only_bind; [apply Only_call, P_exec|].
  intros r. only_calls.
Qed.

Lemma Only_ensurePassword : Only P sudo.ensurePassword.
Proof.
  pose proof Only_promptPassword.
  unfold sudo.ensurePassword. only_calls.
Qed.

Lemma Only_Run command args : Only P (sudo.Run command args).
Proof.
  pose proof Only_ensurePassword.
  unfold sudo.Run.
  apply Only_bind; [apply Only_call, P_exec|]. intros r.
  destruct (err_of r); [|only_calls].
  destruct (negb _); [only_calls|].
  apply Only_bind; [assumption|]. intros [password [err|]]; [only_calls|].
  apply Only_bind; [apply Only_call, P_exec|]. intros r2. only_calls.
Qed.

Lemma Only_runCommandWithTimeout t name args :
  Only P (runCommandWithTimeout t name args).
Proof.
  unfold runCommandWithTimeout.
  apply Only_bind; [apply Only_call, P_exec|]. intros r. only_calls.
Qed.

Lemma Only_runShellWithTimeout t cmd : Only P (runShellWithTimeout t cmd).
Proof.
  unfold runShellWithTimeout.
  apply Only_bind; [apply Only_call, P_exec|]. intros r. only_calls.
Qed.

Lemma Only_runShellWithTimeoutOutput t cmd :
  Only P (runShellWithTimeoutOutput t cmd).
Proof.
  unfold runShellWithTimeoutOutput.
  apply Only_bind; [apply Only_call, P_exec|]. intros r. only_calls.
Qed.

Lemma Only_executeSudoShell cmd : Only P (executeSudoShell cmd).
Proof.
  pose proof Only_runShellWithTimeoutOutput.
  pose proof Only_Run.
  unfold executeSudoShell, sudo.RunShell. only_calls.
Qed.

Lemma Only_removeTrashContents path : Only P (removeTrashContents path).
Proof.
  pose proof Only_runShellWithTimeout.
  pose proof Only_executeSudoShell.
  unfold removeTrashContents. only_calls.
Qed.

End OnlyGateway.


End OnlyActions.

(* ------------------------------------------------------------------ *)
(** ** The command line *)

Section CleanupCommand.
Context {L : Lib} {W : Type} {O : OS W}.
Import quickactions Observe devcockpit.


Lemma len_cons {A} (x : A) (l : list A) : len (x :: l) = len l + 1.
Proof. unfold len. cbn [List.length]. lia. Qed.

Lemma len_nonneg {A} (l : list A) : 0 <= len l.
Proof. unfold len. lia. Qed.






End CleanupCommand.

Section CleanupRun.
#[local] Existing Instance Reference.ascii_lib.
#[local] Existing Instance Reference.scripted.


End CleanupRun.

(* ------------------------------------------------------------------ *)
(** ** The privilege escalation gateway *)

Section Gateway.
Context {L : Lib} {W : Type} {O : OS W}.
Import sudo Observe.

(** [promptPassword] makes one call; it returns the trimmed answer when
    that is usable and an error otherwise, [ErrCancelled] in particular
    for an empty answer. *)
Lemma promptPassword_run (s : St W) :
  exists dialog w,
    sys promptCall (world s) = (dialog, w) /\
    events (promptPassword s) = [(promptCall, dialog)] /\
    final (promptPassword s) = mkSt w (cachedPassword s) /\
    (usable dialog = true ->
       result (promptPassword s) = (TrimSpace (r_out dialog), None)) /\
    (usable dialog = false ->
       exists err, result (promptPassword s) = (EmptyString, Some err)) /\
    (r_err dialog = None -> is_empty (TrimSpace (r_out dialog)) = true ->
       result (promptPassword s) = (EmptyString, Some ErrCancelled)).
Proof.
  unfold promptPassword, bind, call, usable.
  destruct (sys promptCall (world s)) as [dialog w]. exists dialog, w.
  split; [reflexivity|].
  unfold err_of. destruct (r_err dialog) as [e|]; cbn [option_map].
  - destruct e as [[code| |] msg];
      [destruct code as [|[p|p|]|]|..]; cbn;
      repeat split; try discriminate; eauto.
  - destruct (is_empty (TrimSpace (r_out dialog))) eqn:E; cbn;
      repeat split; try discriminate; eauto.
Qed.


Lemma ensurePassword_cached (s : St W) :
  is_empty (cachedPassword s) = false ->
  ensurePassword s = ((cachedPassword s, None), s, []).
Proof.
  intros H. unfold ensurePassword, bind, get_cachedPassword, ret.
  rewrite H. reflexivity.
Qed.

Lemma ensurePassword_prompts (s : St W) :
  is_empty (cachedPassword s) = true ->
  exists dialog w,
    sys promptCall (world s) = (dialog, w) /\
    events (ensurePassword s) = [(promptCall, dialog)] /\
    (usable dialog = true ->
       result (ensurePassword s) = (TrimSpace (r_out dialog), None) /\
       final (ensurePassword s) = mkSt w (TrimSpace (r_out dialog))) /\
    (usable dialog = false ->
       (exists err, result (ensurePassword s) = (EmptyString, Some err)) /\
       final (ensurePassword s) = mkSt w (cachedPassword s)) /\
    (r_err dialog = None -> is_empty (TrimSpace (r_out dialog)) = true ->
       result (ensurePassword s) = (EmptyString, Some ErrCancelled)).
Proof.
  intros H.
  destruct (promptPassword_run s) as (dialog & w & Hsys & Hev & Hfin & Hok & Hbad & Hempty).
  exists dialog, w. split; [exact Hsys|].
  unfold ensurePassword. rewrite bind_run.
  change (get_cachedPassword s) with (cachedPassword s, s, @nil Event).
  cbn [result final events fst snd app].
  rewrite H. cbn [negb]. rewrite bind_run, Hev, Hfin.
  destruct (usable dialog) eqn:U.
  - rewrite (Hok eq_refl). cbn.
    repeat split; try discriminate.
    intros E1 E2. unfold usable in U. rewrite E1, E2 in U. discriminate.
  - destruct (Hbad eq_refl) as [err Herr]. rewrite Herr. cbn.
    repeat split; try discriminate; eauto.
    intros E1 E2. rewrite (Hempty E1 E2) in Herr. congruence.
Qed.

(** The calls, the result and the cache after [Run], case by case. *)
Lemma Run_shape (command : string) (args : list string) (s : St W) :
  let run := Run command args s in
  exists probe,
    (needsElevation probe = false /\
     events run = [(probeCall command args, probe)] /\
     cachedPassword (final run) = cachedPassword s) \/
    (needsElevation probe = true /\
     ((is_empty (cachedPassword s) = false /\
       exists r3,
         events run = [(probeCall command args, probe);
                       (elevatedCall command args (cachedPassword s), r3)] /\
         cachedPassword (final run) =
           (if rejected r3 then EmptyString else cachedPassword s)) \/
      (is_empty (cachedPassword s) = true /\
       exists dialog,
         (usable dialog = false /\
          events run = [(probeCall command args, probe); (promptCall, dialog)] /\
          cachedPassword (final run) = cachedPassword s /\
          (exists err, result run = (EmptyString, Some err)) /\
          (r_err dialog = None -> is_empty (TrimSpace (r_out dialog)) = true ->
             result run = (EmptyString, Some ErrCancelled))) \/
         (usable dialog = true /\
          exists r3,
            events run =
              [(probeCall command args, probe); (promptCall, dialog);
               (elevatedCall command args (TrimSpace (r_out dialog)), r3)] /\
            cachedPassword (final run) =
              (if rejected r3 then EmptyString
               else TrimSpace (r_out dialog)))))).
Proof.
  intros run. subst run. unfold Run. rewrite bind_run, call_run.
  destruct (sys (probeCall command args) (world s)) as [probe w1].
  cbn [result final events fst snd].
  exists probe. unfold needsElevation.
  destruct (err_of probe) as [err|] eqn:Eerr.
  2:{ left. cbn. auto. }
  destruct (requiresPassword (r_out probe) (Some err)) eqn:Eneed; cbn [negb].
  2:{ left. cbn. auto. }
  right. split; [reflexivity|].
  rewrite bind_run.
  destruct (is_empty (cachedPassword s)) eqn:Ecache.
  - right. split; [reflexivity|].
    destruct (ensurePassword_prompts (mkSt w1 (cachedPassword s)) Ecache)
      as (dialog & w2 & Hsys & Hev & Hok & Hbad & Hempty).
    exists dialog. rewrite Hev.
    destruct (usable dialog) eqn:U.
    + right. split; [reflexivity|].
      destruct (Hok eq_refl) as [Hres Hfin]. rewrite Hres, Hfin.
      rewrite bind_run, call_run. cbn [world cachedPassword].
      destruct (sys _ w2) as [r3 w3]. exists r3.
      cbn [result final events fst snd]. unfold rejected.
      destruct (err_of r3) as [runErr|];
        [destruct (requiresPassword (r_out r3) (Some runErr))|]; cbn; auto.
    + left. split; [reflexivity|].
      destruct (Hbad eq_refl) as [[e He] Hfin]. rewrite He, Hfin. cbn.
      repeat split; eauto.
      intros E1 E2. rewrite (Hempty E1 E2) in He. injection He as <-. reflexivity.
  - left. split; [reflexivity|].
    rewrite (ensurePassword_cached (mkSt w1 (cachedPassword s)) Ecache).
    cbn [result final events fst snd].
    rewrite bind_run, call_run. cbn [world cachedPassword].
    destruct (sys _ w1) as [r3 w3]. exists r3.
    cbn [result final events fst snd]. unfold rejected.
    destruct (err_of r3) as [runErr|];
      [destruct (requiresPassword (r_out r3) (Some runErr))|]; cbn; auto.
Qed.


Lemma usable_nonempty (r : Response) :
  usable r = true -> is_empty (TrimSpace (r_out r)) = false.
Proof.
  unfold usable. destruct (r_err r); [discriminate|].
  destruct (is_empty (TrimSpace (r_out r))); [discriminate|reflexivity].
Qed.

(** Populations and invalidations balance the occupancy of the cache,
    for one [Run]. *)
Lemma Run_balance (command : string) (args : list string) (s : St W) :
  let run := Run command args s in
  (populations (events run) + occupied s =
   invalidations (events run) + occupied (final run))%nat.
Proof.
  intros run.
  destruct (Run_shape command args s)
    as (probe & [(Hneed & Hev & Hc) |
                 (Hneed & [(Hfull & r3 & Hev & Hc) |
                           (Hnone & dialog &
                            [(Hu & Hev & Hc & _) | (Hu & r3 & Hev & Hc)])])]);
    fold run in Hev, Hc; unfold populations, invalidations, occupied;
    rewrite Hev, Hc; unfold populates, invalidates;
    cbn [filter fst snd isPrompt isElevated probeCall elevatedCall promptCall
         probeArgs sudoArgs app andb List.length].
  - reflexivity.
  - destruct (rejected r3); cbn [filter List.length is_empty];
      rewrite ?Hfull; reflexivity.
  - rewrite Hu. reflexivity.
  - rewrite Hu, Hnone. pose proof (usable_nonempty dialog Hu) as Hne.
    destruct (rejected r3); cbn [filter List.length is_empty];
      rewrite ?Hne; reflexivity.
Qed.

Lemma populations_app (e1 e2 : list Event) :
  populations (e1 ++ e2) = (populations e1 + populations e2)%nat.
Proof. unfold populations. now rewrite filter_app, length_app. Qed.

Lemma invalidations_app (e1 e2 : list Event) :
  invalidations (e1 ++ e2) = (invalidations e1 + invalidations e2)%nat.
Proof. unfold invalidations. now rewrite filter_app, length_app. Qed.

(** The same balance over any sequence of gateway calls. *)
Lemma runAll_balance (cmds : list (string * list string)) (s : St W) :
  (populations (events (runAll cmds s)) + occupied s =
   invalidations (events (runAll cmds s)) + occupied (final (runAll cmds s)))%nat.
Proof.
  revert s. induction cmds as [|[command args] rest IH]; intros s.
  - reflexivity.
  - cbn [runAll]. rewrite bind_run. cbn [events final fst snd].
    rewrite populations_app, invalidations_app.
    pose proof (Run_balance command args s) as H1. cbv zeta in H1.
    pose proof (IH (final (Run command args s))) as H2.
    lia.
Qed.

Lemma occupied_le_1 (s : St W) : (occupied s <= 1)%nat.
Proof. unfold occupied. destruct (is_empty (cachedPassword s)); lia. Qed.


(** C3. Over any sequence of elevated commands, fillings of the
    credential cache and invalidations balance its occupancy, so without
    an invalidation the cache is filled at most once.  With an empty
    cache, an elevation need is followed by the prompt; a secret from the
    dialog goes to the elevated command and stays cached unless that
    command fails with the privilege-required signature.  With a cached
    secret there is no prompt, the elevated command gets the cached
    secret, and afterwards the cache is empty exactly when the elevated
    command failed with that signature, and unchanged otherwise. *)
Theorem credential_cache_lifecycle :
  (forall cmds (s : St W),
     let run := runAll cmds s in
     (populations (events run) + occupied s =
      invalidations (events run) + occupied (final run))%nat /\
     (invalidations (events run) = 0%nat ->
      (populations (events run) <= 1)%nat)) /\
  (forall command args (s : St W),
     let run := Run command args s in
     is_empty (cachedPassword s) = true ->
     forall probe rest,
       events run = (probeCall command args, probe) :: rest ->
       needsElevation probe = true ->
       exists dialog rest',
         rest = (promptCall, dialog) :: rest' /\
         (usable dialog = true ->
            exists r3,
              rest' = [(elevatedCall command args (TrimSpace (r_out dialog)),
                        r3)] /\
              cachedPassword (final run) =
                (if rejected r3 then EmptyString
                 else TrimSpace (r_out dialog))) /\
         (usable dialog = false ->
            rest' = [] /\ cachedPassword (final run) = cachedPassword s)) /\
  (forall command args (s : St W),
     let run := Run command args s in
     is_empty (cachedPassword s) = false ->
     (forall e, In e (events run) -> isPrompt (fst e) = false) /\
     (forall c r, In (c, r) (events run) -> isElevated c = true ->
        c = elevatedCall command args (cachedPassword s)) /\
     (existsb invalidates (events run) = true ->
        cachedPassword (final run) = EmptyString) /\
     (existsb invalidates (events run) = false ->
        cachedPassword (final run) = cachedPassword s)).
Proof.
  split; [|split].
  - intros cmds s run. split; [apply runAll_balance|].
    intros Hinv. pose proof (runAll_balance cmds s) as Hb. fold run in Hb.
    pose proof (occupied_le_1 (final run)). lia.
  - intros command args s run Hempty probe rest Hev Hneed.
    destruct (Run_shape command args s)
      as (probe0 & [(Hneed0 & Hev0 & Hc) |
                    (Hneed0 & [(Hfull & r3 & Hev0 & Hc) |
                               (Hnone & dialog &
                                [(Hu & Hev0 & Hc & _) | (Hu & r3 & Hev0 & Hc)])])]);
      fold run in Hev0, Hc; rewrite Hev0 in Hev; injection Hev as <- <-.
    + congruence.
    + congruence.
    + exists dialog, []. split; [reflexivity|]. split; [congruence|auto].
    + exists dialog, [(elevatedCall command args (TrimSpace (r_out dialog)), r3)].
      split; [reflexivity|]. split; [eauto|congruence].
  - intros command args s run Hfull.
    destruct (Run_shape command args s)
      as (probe0 & [(Hneed0 & Hev0 & Hc) |
                    (Hneed0 & [(_ & r3 & Hev0 & Hc) |
                               (Hnone & _)])]);
      [| |congruence]; fold run in Hev0, Hc; rewrite Hev0, Hc.
    + repeat split.
      * intros e [<-|[]]. reflexivity.
      * intros c r [[= <- <-]|[]]. discriminate.
      * discriminate.
    + repeat split.
      * intros e [<-|[<-|[]]]; reflexivity.
      * intros c r [[= <- <-]|[[= <- <-]|[]]]; [discriminate|reflexivity].
      * unfold invalidates. cbn. destruct (rejected r3); [reflexivity|discriminate].
      * unfold invalidates. cbn. destruct (rejected r3); [discriminate|reflexivity].
Qed.


(** C10. A dialog that ends without error but with an empty (all blank)
    answer makes [promptPassword], [ensurePassword] and [Run] return
    [ErrCancelled] and leaves the cache as it was; [ensurePassword] never
    writes the empty string into the cache; and an empty cache counts as
    no credential: [ensurePassword] then always shows the dialog, while a
    non-empty cache is returned without any call. *)
Theorem empty_answer_is_cancellation :
  (forall (s : St W) dialog,
     events (promptPassword s) = [(promptCall, dialog)] ->
     r_err dialog = None -> is_empty (TrimSpace (r_out dialog)) = true ->
     result (promptPassword s) = (EmptyString, Some ErrCancelled)) /\
  (forall (s : St W) dialog,
     is_empty (cachedPassword s) = true ->
     events (ensurePassword s) = [(promptCall, dialog)] ->
     r_err dialog = None -> is_empty (TrimSpace (r_out dialog)) = true ->
     result (ensurePassword s) = (EmptyString, Some ErrCancelled) /\
     cachedPassword (final (ensurePassword s)) = cachedPassword s) /\
  (forall command args (s : St W) probe dialog rest,
     is_empty (cachedPassword s) = true ->
     events (Run command args s) =
       (probeCall command args, probe) :: (promptCall, dialog) :: rest ->
     r_err dialog = None -> is_empty (TrimSpace (r_out dialog)) = true ->
     result (Run command args s) = (EmptyString, Some ErrCancelled) /\
     rest = [] /\
     cachedPassword (final (Run command args s)) = cachedPassword s) /\
  (forall s : St W,
     cachedPassword (final (ensurePassword s)) <> cachedPassword s ->
     is_empty (cachedPassword (final (ensurePassword s))) = false) /\
  (forall s : St W,
     is_empty (cachedPassword s) = true ->
     calls (ensurePassword s) = [promptCall]) /\
  (forall s : St W,
     is_empty (cachedPassword s) = false ->
     ensurePassword s = ((cachedPassword s, None), s, [])).
Proof.
  assert (Hunusable : forall r, r_err r = None ->
            is_empty (TrimSpace (r_out r)) = true -> usable r = false).
  { intros r E1 E2. unfold usable. rewrite E1, E2. reflexivity. }
  split; [|split; [|split; [|split; [|split]]]].
  - intros s dialog Hev E1 E2.
    destruct (promptPassword_run s) as (d & w & _ & Hev' & _ & _ & _ & Hempty).
    rewrite Hev' in Hev. injection Hev as ->. auto.
  - intros s dialog Hc Hev E1 E2.
    destruct (ensurePassword_prompts s Hc)
      as (d & w & _ & Hev' & _ & Hbad & Hempty).
    rewrite Hev' in Hev. injection Hev as ->.
    split; [auto|].
    destruct (Hbad (Hunusable _ E1 E2)) as [_ Hfin]. rewrite Hfin. reflexivity.
  - intros command args s probe dialog rest Hc Hev E1 E2.
    destruct (Run_shape command args s)
      as (probe0 & [(_ & Hev0 & _) |
                    (_ & [(Hfull & _) |
                          (_ & d & [(Hu & Hev0 & Hfin & _ & Hcancel) |
                                    (Hu & r3 & Hev0 & _)])])]).
    + rewrite Hev0 in Hev. discriminate.
    + congruence.
    + rewrite Hev0 in Hev. injection Hev as <- <- <-. auto.
    + rewrite Hev0 in Hev. injection Hev as <- <- <-.
      rewrite (Hunusable _ E1 E2) in Hu. discriminate.
  - intros s H. destruct (is_empty (cachedPassword s)) eqn:E.
    + destruct (ensurePassword_prompts s E) as (d & w & _ & _ & Hok & Hbad & _).
      destruct (usable d) eqn:U.
      * destruct (Hok eq_refl) as [_ Hfin]. rewrite Hfin. cbn.
        apply usable_nonempty, U.
      * destruct (Hbad eq_refl) as [_ Hfin]. rewrite Hfin in H. cbn in H.
        congruence.
    + rewrite (ensurePassword_cached s E) in H. cbn in H. congruence.
  - intros s H. destruct (ensurePassword_prompts s H) as (d & w & _ & Hev' & _).
    unfold calls. rewrite Hev'. reflexivity.
  - intros. apply ensurePassword_cached. assumption.
Qed.

(** C9, as amended.  The elevated [sudo] is started with the vector
    [sudo -S -p <empty> command args...] whatever the secret is, so two
    secrets give the same vector; the secret, followed by a newline, is
    its standard input and is never empty; and the vector contains the
    secret only when the secret is one of the fixed words or one of the
    caller's own words. *)
Theorem secret_only_on_stdin :
  (forall command args p1 p2,
     argvOf (elevatedCall command args p1) =
     argvOf (elevatedCall command args p2)) /\
  (forall command args (s : St W) c r,
     In (c, r) (events (Run command args s)) -> isElevated c = true ->
     argvOf c = "sudo" :: "-S" :: "-p" :: EmptyString :: command :: args /\
     exists secret,
       stdinOf c = Some (secret ++ nl)%string /\
       is_empty secret = false /\
       (In secret (argvOf c) ->
        In secret ["sudo"; "-S"; "-p"] \/ In secret (command :: args))).
Proof.
  split; [reflexivity|].
  intros command args s c r Hin Hel.
  assert (Hargv : forall p,
            is_empty p = false ->
            argvOf (elevatedCall command args p) =
              "sudo" :: "-S" :: "-p" :: EmptyString :: command :: args /\
            exists secret,
              stdinOf (elevatedCall command args p) = Some (secret ++ nl)%string /\
              is_empty secret = false /\
              (In secret (argvOf (elevatedCall command args p)) ->
               In secret ["sudo"; "-S"; "-p"] \/ In secret (command :: args))).
  { intros p Hp. split; [reflexivity|]. exists p.
    split; [reflexivity|]. split; [exact Hp|].
    cbn. intros [H|[H|[H|[H|H]]]]; auto.
    subst p. discriminate. }
  destruct (Run_shape command args s)
    as (probe0 & [(_ & Hev0 & _) |
                  (_ & [(Hfull & r3 & Hev0 & _) |
                        (_ & d & [(Hu & Hev0 & _) |
                                  (Hu & r3 & Hev0 & _)])])]);
    rewrite Hev0 in Hin; cbn [In] in Hin.
  - destruct Hin as [[= <- <-]|[]]. discriminate.
  - destruct Hin as [[= <- <-]|[[= <- <-]|[]]]; [discriminate|].
    apply Hargv, Hfull.
  - destruct Hin as [[= <- <-]|[[= <- <-]|[]]]; discriminate.
  - destruct Hin as [[= <- <-]|[[= <- <-]|[[= <- <-]|[]]]]; try discriminate.
    apply Hargv, usable_nonempty, Hu.
Qed.

End Gateway.

Section GatewayRuns.
#[local] Existing Instance Reference.ascii_lib.
#[local] Existing Instance Reference.scripted.

(** Two elevated commands in a row: the first one prompts, the second
    one reuses the secret. *)
Lemma credential_cache_lifecycle_witness :
  let s := Reference.start
             [Reference.fails 1 "sudo: a password is required";
              Reference.says ("hunter2" ++ nl)%string; Reference.ok;
              Reference.fails 1 "sudo: a password is required";
              Reference.ok] EmptyString in
  let run := Observe.runAll [("purge", []); ("killall", ["coreaudiod"])] s in
  Observe.invalidations (events run) = 0%nat /\
  (Observe.populations (events run) <= 1)%nat /\
  cachedPassword (final run) = "hunter2".
Proof.
  intros s run.
  assert (Hinv : Observe.invalidations (events run) = 0%nat) by reflexivity.
  split; [exact Hinv|]. split; [|reflexivity].
  exact (proj2 (proj1 credential_cache_lifecycle
                  [("purge", []); ("killall", ["coreaudiod"])] s) Hinv).
Defined.

(** The operator confirms the dialog without typing anything. *)
Lemma empty_answer_is_cancellation_witness :
  let s := Reference.start
             [Reference.fails 1 "sudo: a password is required";
              Reference.says nl] EmptyString in
  let run := sudo.Run "purge" [] s in
  result run = (EmptyString, Some ErrCancelled) /\
  cachedPassword (final run) = EmptyString.
Proof.
  intros s run.
  assert (Hev : events (sudo.Run "purge" [] s) =
                [(sudo.probeCall "purge" [],
                  Reference.fails 1 "sudo: a password is required");
                 (sudo.promptCall, Reference.says nl)])
    by (vm_compute; reflexivity).
  assert (Hblank : is_empty (TrimSpace (r_out (Reference.says nl))) = true)
    by reflexivity.
  destruct (proj1 (proj2 (proj2 empty_answer_is_cancellation))
              "purge" [] s _ _ _ eq_refl Hev eq_refl Hblank)
    as (Hres & _ & Hcache).
  split; [exact Hres | exact Hcache].
Defined.

(** C9 as stated fails when the administrator password happens to be one
    of the words of the command: here the password is "purge" and the
    command is [purge], so the secret on standard input also occurs in
    the argument vector. *)
Lemma secret_in_argv_counterexample :
  let s := Reference.start
             [Reference.fails 1 "sudo: a password is required"; Reference.ok]
             "purge" in
  let run := sudo.Run "purge" [] s in
  exists c r,
    In (c, r) (events run) /\
    Observe.isElevated c = true /\
    Observe.stdinOf c = Some ("purge" ++ nl)%string /\
    In "purge" (Observe.argvOf c).
Proof.
  intros s run.
  exists (sudo.elevatedCall "purge" [] "purge"), Reference.ok.
  split; [right; left; reflexivity|].
  split; [reflexivity|]. split; [reflexivity|].
  cbn. do 4 right. left. reflexivity.
Qed.

(** The same run, read through the amended statement. *)
Lemma secret_only_on_stdin_witness :
  let s := Reference.start
             [Reference.fails 1 "sudo: a password is required"; Reference.ok]
             "purge" in
  Observe.argvOf (sudo.elevatedCall "purge" [] "purge") =
    ["sudo"; "-S"; "-p"; EmptyString; "purge"].
Proof.
  intros s.
  assert (Hin : In (sudo.elevatedCall "purge" [] "purge", Reference.ok)
                   (events (sudo.Run "purge" [] s)))
    by (right; left; reflexivity).
  exact (proj1 (proj2 secret_only_on_stdin "purge" [] s _ _ Hin eq_refl)).
Defined.

End GatewayRuns.

(* ------------------------------------------------------------------ *)
(** ** Fix WiFi *)

Section FixWiFi.
Context {L : Lib} {W : Type} {O : OS W}.
Import quickactions Observe.

(** What a [run...WithTimeout] helper returns for an answer. *)
Lemma runCommandWithTimeout_run (t : Z) (name : string) (args : list string)
    (s : St W) :
  let c := Exec (name :: args) None (Some t) NoCapture in
  let r := fst (sys c (world s)) in
  events (runCommandWithTimeout t name args s) = [(c, r)] /\
  final (runCommandWithTimeout t name args s) =
    mkSt (snd (sys c (world s))) (cachedPassword s) /\
  (succeeded r = true -> result (runCommandWithTimeout t name args s) = None) /\
  (succeeded r = false ->
     exists e, result (runCommandWithTimeout t name args s) = Some e).
Proof.
  intros c r. unfold runCommandWithTimeout. rewrite bind_run, call_run.
  fold c. fold r. cbn [result final events fst snd].
  unfold succeeded, err_of.
  destruct (r_deadline r); cbn; [repeat split; try discriminate; eauto|].
  destruct (r_err r); cbn; repeat split; try discriminate; eauto.
Qed.

Lemma powerCycleFirst_attempts (candidates : list string) (s : St W) :
  let run := powerCycleFirst candidates s in
  exists tried,
    Attempts tried (events run) (result run) /\
    (result run = true -> exists rest, candidates = tried ++ rest) /\
    (result run = false -> tried = candidates).
Proof.
  revert s. induction candidates as [|c rest IH]; intros s run; subst run.
  - exists []. split; [constructor|]. split; [discriminate|reflexivity].
  - cbn [powerCycleFirst]. rewrite bind_run.
    destruct (runCommandWithTimeout_run shortCommandTimeout "networksetup"
                ["-setairportpower"; c; "off"] s) as (Hev & Hfin & Hok & Hbad).
    cbv zeta in Hev, Hfin, Hok, Hbad.
    set (off := fst (sys _ (world s))) in *.
    rewrite Hev, Hfin.
    destruct (succeeded off) eqn:Eoff.
    + rewrite (Hok eq_refl). rewrite bind_run, call_run.
      cbn [result final events fst snd world cachedPassword].
      set (s1 := mkSt _ _). rewrite bind_run.
      destruct (runCommandWithTimeout_run shortCommandTimeout "networksetup"
                  ["-setairportpower"; c; "on"] s1) as (Hev2 & Hfin2 & Hok2 & Hbad2).
      cbv zeta in Hev2, Hfin2, Hok2, Hbad2.
      set (on := fst (sys _ (world s1))) in *.
      rewrite Hev2, Hfin2.
      destruct (succeeded on) eqn:Eon.
      * rewrite (Hok2 eq_refl). cbn [result final events fst snd app ret].
        exists [c]. split; [apply Attempts_won; assumption|].
        split; [intros _; exists rest; reflexivity | discriminate].
      * destruct (Hbad2 eq_refl) as [e He]. rewrite He.
        cbn [result final events fst snd app].
        destruct (IH (mkSt (snd (sys (Exec ("networksetup" :: ["-setairportpower"; c; "on"]) None (Some shortCommandTimeout) NoCapture) (world s1))) (cachedPassword s1)))
          as (tried & Hatt & Hwon & Hlost).
        exists (c :: tried). split; [apply Attempts_on_failed; assumption|].
        split.
        -- intros Hr. destruct (Hwon Hr) as [rest' ->]. exists rest'. reflexivity.
        -- intros Hr. rewrite (Hlost Hr). reflexivity.
    + destruct (Hbad eq_refl) as [e He]. rewrite He.
      cbn [result final events fst snd app].
      destruct (IH (mkSt (snd (sys (Exec ("networksetup" :: ["-setairportpower"; c; "off"]) None (Some shortCommandTimeout) NoCapture) (world s))) (cachedPassword s)))
        as (tried & Hatt & Hwon & Hlost).
      exists (c :: tried). split; [apply Attempts_off_failed; assumption|].
      split.
      * intros Hr. destruct (Hwon Hr) as [rest' ->]. exists rest'. reflexivity.
      * intros Hr. rewrite (Hlost Hr). reflexivity.
Qed.


Lemma Only_firstWithoutError (P : Call -> bool)
    (probe : string -> M W (option error)) (xs : list string) :
  (forall x, Only P (probe x)) -> Only P (firstWithoutError probe xs).
Proof.
  intros Hp. induction xs as [|x rest IH]; cbn [firstWithoutError].
  - apply Only_ret.
  - apply Only_bind; [apply Hp|]. intros [e|]; [exact IH|apply Only_ret].
Qed.

(** Finding the active interface switches nothing. *)
Lemma getActiveNetworkInterface_quiet : Only noPowerCommand getActiveNetworkInterface.
Proof.
  unfold getActiveNetworkInterface. cbv zeta.
  apply Only_bind.
  { unfold runShellWithTimeoutOutput. only_calls. }
  intros oe. destruct (match snd oe with Some _ => _ | None => _ end).
  { apply Only_ret. }
  apply Only_bind.
  { apply Only_firstWithoutError. intros x.
    unfold runShellWithTimeout. only_calls. }
  intros [iface|]; [apply Only_ret|].
  apply Only_bind.
  { apply Only_firstWithoutError. intros x.
    unfold runCommandWithTimeout. only_calls. }
  intros [service|]; apply Only_ret.
Qed.

(** C4. [fixWiFi] goes through the service names Wi-Fi, WiFi, AirPort in
    this order, and only when none of them worked through the interface
    names: the active interface (looked up at that moment, without any
    power command), en0, en1.  Each candidate gets the power-off command
    and, when that worked, a sleep of two seconds and the power-on
    command.  The first candidate whose cycle succeeds in full ends the
    run with success, so the candidates tried are a prefix of the list
    and no later candidate is touched; the error is returned only when
    every candidate of both lists has been tried without a full
    success. *)
Theorem fix_wifi_first_success (s : St W) :
  let run := fixWiFi s in
  exists tried1 ev1 won1,
    Attempts tried1 ev1 won1 /\
    (won1 = true ->
       (exists rest, wifiServices = tried1 ++ rest) /\
       events run = ev1 /\ result run = None) /\
    (won1 = false ->
       tried1 = wifiServices /\
       exists s1 tried2 ev2 won2,
         let lookup := getActiveNetworkInterface s1 in
         let interfaces := [result lookup; "en0"; "en1"] in
         events run = ev1 ++ events lookup ++ ev2 /\
         Forall (fun e => isPowerCommand (fst e) = false) (events lookup) /\
         Attempts tried2 ev2 won2 /\
         (won2 = true ->
            (exists rest, interfaces = tried2 ++ rest) /\ result run = None) /\
         (won2 = false ->
            tried2 = interfaces /\
            result run =
              Some (Errorf
                "could not reset WiFi - no working interface/service found"))).
Proof.
  intros run. subst run. unfold fixWiFi. rewrite bind_run.
  destruct (powerCycleFirst_attempts wifiServices s) as (tried1 & Hatt & Hwon & Hlost).
  cbv zeta in Hatt, Hwon, Hlost.
  set (run1 := powerCycleFirst wifiServices s) in *.
  exists tried1, (events run1), (result run1).
  split; [exact Hatt|]. split.
  - intros Hr. rewrite Hr. cbn [negb]. split; [auto|].
    rewrite bind_run. cbn. rewrite !app_nil_r. auto.
  - intros Hr. rewrite Hr. cbn [negb]. split; [auto|].
    rewrite bind_run. rewrite bind_run.
    set (s1 := final run1).
    set (lookup := getActiveNetworkInterface s1).
    destruct (powerCycleFirst_attempts [result lookup; "en0"; "en1"] (final lookup))
      as (tried2 & Hatt2 & Hwon2 & Hlost2).
    cbv zeta in Hatt2, Hwon2, Hlost2.
    set (run2 := powerCycleFirst [result lookup; "en0"; "en1"] (final lookup)) in *.
    exists s1, tried2, (events run2), (result run2). cbv zeta. fold lookup.
    cbn [result final events fst snd].
    split.
    { destruct (negb (result run2)); cbn; rewrite !app_nil_r; reflexivity. }
    split.
    { pose proof (getActiveNetworkInterface_quiet s1) as Hq. fold lookup in Hq.
      eapply Forall_impl; [|exact Hq]. intros e He. unfold noPowerCommand in He.
      now apply negb_true_iff in He. }
    split; [exact Hatt2|]. split.
    + intros Hr2. rewrite Hr2. split; [auto|reflexivity].
    + intros Hr2. rewrite Hr2. split; [auto|reflexivity].
Qed.

End FixWiFi.

Section FixWiFiRun.
#[local] Existing Instance Reference.ascii_lib.
#[local] Existing Instance Reference.scripted.

(** Only the third service name works: two failed power-offs, then the
    full cycle of AirPort, and nothing after it. *)
Example fix_wifi_third_candidate :
  let s := Reference.start
             [Reference.fails 10 EmptyString; Reference.fails 10 EmptyString;
              Reference.ok; Reference.ok; Reference.ok] EmptyString in
  let run := quickactions.fixWiFi s in
  result run = None /\
  calls run = [Observe.powerOff "Wi-Fi"; Observe.powerOff "WiFi";
               Observe.powerOff "AirPort"; Sleep 2000;
               Observe.powerOn "AirPort"].
Proof. split; reflexivity. Qed.

End FixWiFiRun.

(* ------------------------------------------------------------------ *)
(** ** Clean Downloads *)

Section CleanDownloads.
Context {L : Lib} {W : Type} {O : OS W}.
Import quickactions Observe.

Lemma counted_in_int (r : Response) : in_int (counted r).
Proof.
  unfold counted, scanCount.
  destruct (Sscan_int (TrimSpace (output r))) as [n|] eqn:E.
  - exact (Sscan_int_range _ _ E).
  - unfold in_int, int_min, int_max. lia.
Qed.

Lemma sub_zero_iff (a b : Z) :
  in_int a -> in_int b -> (Go.sub a b = 0 <-> a = b).
Proof.
  unfold in_int, int_min, int_max, Go.sub, wrap.
  change (2 ^ 63) with 9223372036854775808.
  change (2 ^ 64) with 18446744073709551616.
  intros Ha Hb.
  pose proof (Z.div_mod (a - b + 9223372036854775808) 18446744073709551616
                ltac:(lia)) as Hdm.
  pose proof (Z.mod_pos_bound (a - b + 9223372036854775808)
                18446744073709551616 ltac:(lia)) as Hbound.
  split; intros H; [lia|].
  subst b. replace (a - a + 9223372036854775808) with 9223372036854775808 by lia.
  reflexivity.
Qed.

Lemma cleanDownloads_shape (s : St W) :
  let run := cleanDownloads s in
  exists home st,
    let path := filepath_Join (r_out home) "Downloads" in
    (IsNotExist (err_of st) = true /\
     events run = [(UserHomeDir, home); (Stat path, st)] /\
     result run = Some (Errorf "downloads directory not found")) \/
    (IsNotExist (err_of st) = false /\
     exists before,
       (counted before = 0 /\
        events run = [(UserHomeDir, home); (Stat path, st);
                      (countOld path, before)] /\
        result run = None) \/
       (counted before <> 0 /\
        exists del,
          (succeeded del = false /\
           events run = [(UserHomeDir, home); (Stat path, st);
                         (countOld path, before); (deleteOld path, del)] /\
           exists e, result run =
                       Some (Errorf ("failed to clean downloads: " ++ Error e)%string)) \/
          (succeeded del = true /\
           exists after,
             events run = [(UserHomeDir, home); (Stat path, st);
                           (countOld path, before); (deleteOld path, del);
                           (countOld path, after)] /\
             result run =
               if ((Go.sub (counted before) (counted after) =? 0)%Z &&
                   (0 <? counted before)%Z)%bool
               then Some (Errorf
                      "could not remove old files (they may be in use)")
               else None))).
Proof.
  intros run. remember (cleanDownloads s) as run0 eqn:R. subst run.
  unfold cleanDownloads, userHomeDir, runShellWithTimeoutOutput,
    runShellWithTimeout in R.
  unfold bind, ret, call in R.
  step_in R. step_in R. exists r, r0. step_in R.
  - left. subst run0. auto.
  - right. split; [reflexivity|]. step_in R. exists r1.
    pose proof (scanCount_output r1) as Hc1.
    destruct (r_deadline r1) eqn:D1; cbn [fst snd app] in R, Hc1;
      rewrite Hc1 in R.
    all: destruct (counted r1 =? 0)%Z eqn:Z1;
      [ left; apply Z.eqb_eq in Z1; subst run0; auto
      | right; apply Z.eqb_neq in Z1; split; [exact Z1|] ].
    all: step_in R; exists r2; unfold succeeded, err_of in *.
    all: destruct (r_deadline r2) eqn:D2; cbn [fst snd app negb andb] in R |- *.
    all: try (left; split; [reflexivity|]; subst run0;
              cbn [events result fst snd app]; split; [reflexivity|];
              eexists; reflexivity).
    all: destruct (r_err r2) as [e2|] eqn:E2; cbn [option_map] in R |- *.
    all: try (left; split; [reflexivity|]; subst run0;
              cbn [events result fst snd app]; split; [reflexivity|];
              eexists; reflexivity).
    all: right; split; [reflexivity|]; step_in R; exists r3.
    all: pose proof (scanCount_output r3) as Hc3.
    all: destruct (r_deadline r3) eqn:D3; cbn [fst snd app] in R, Hc3;
      rewrite Hc3 in R.
    all: destruct ((Go.sub (counted r1) (counted r3) =? 0)%Z &&
                   (0 <? counted r1)%Z)%bool;
      subst run0; cbn [events result fst snd app]; auto.
Qed.


(** C5, as amended.  When the Downloads directory exists: a first count
    of 0 gives success after the home lookup, the [os.Stat] and the count,
    with nothing deleted.  Otherwise the one deleting command is
    [find <Downloads> -type f -mtime +30 -delete] (regular files older
    than 30 days).  When that command fails or times out the action fails
    without a recount.  When it succeeds the old files are counted again
    and the action fails exactly when the recount equals the positive
    first count, that is when nothing was removed; in particular it
    succeeds when only some of the old files are gone. *)
Theorem clean_downloads_outcome (s : St W) :
  let run := cleanDownloads s in
  let evs := events run in
  let path := downloadsPath evs in
  dirExists evs = true ->
  (preCount evs = 0 ->
     result run = None /\
     calls run = [UserHomeDir; Stat path; countOld path]) /\
  (preCount evs <> 0 ->
     (succeeded (deletion evs) = false ->
        calls run = [UserHomeDir; Stat path; countOld path; deleteOld path] /\
        result run <> None) /\
     (succeeded (deletion evs) = true ->
        calls run = [UserHomeDir; Stat path; countOld path; deleteOld path;
                     countOld path] /\
        (result run <> None <->
         postCount evs = preCount evs /\ 0 < preCount evs))) /\
  deleteOld path =
    Exec ["sh"; "-c";
          ("find " ++ path ++ " -type f -mtime +30 -delete 2>/dev/null")%string]
         None (Some 30000) NoCapture.
Proof.
  intros run evs path Hex.
  split; [|split; [|reflexivity]].
  - intros Hzero.
    destruct (cleanDownloads_shape s)
      as (home & st & [(Hne & Hev & Hres) | (Hne & before & Hcases)]);
      fold run in Hev || fold run in Hcases.
    + exfalso. unfold dirExists, response in Hex. subst evs.
      rewrite Hev in Hex. cbn in Hex. rewrite Hne in Hex. discriminate.
    + destruct Hcases as [(Hz & Hev & Hres) |
                          (Hnz & del & [(Hd & Hev & _) | (Hd & after & Hev & _)])];
        subst path; unfold downloadsPath, homeDir, preCount, response, calls in *;
        subst evs; rewrite Hev in *; cbn in Hzero |- *; try contradiction.
      split; [exact Hres | reflexivity].
  - intros Hnonzero.
    destruct (cleanDownloads_shape s)
      as (home & st & [(Hne & Hev & Hres) | (Hne & before & Hcases)]);
      fold run in Hev || fold run in Hcases.
    + exfalso. unfold dirExists, response in Hex. subst evs.
      rewrite Hev in Hex. cbn in Hex. rewrite Hne in Hex. discriminate.
    + destruct Hcases as [(Hz & Hev & Hres) |
                          (Hnz & del & [(Hd & Hev & e & Hres) |
                                        (Hd & after & Hev & Hres)])];
        subst path;
        unfold downloadsPath, homeDir, preCount, postCount, deletion,
          lastResponse, response, calls in *;
        subst evs; rewrite Hev in *; cbn in Hnonzero |- *; try contradiction.
      * split; [|intros H; congruence].
        intros _. split; [reflexivity|]. rewrite Hres. discriminate.
      * split; [intros H; congruence|].
        intros _. split; [reflexivity|]. rewrite Hres.
        pose proof (sub_zero_iff (counted before) (counted after)
                      (counted_in_int before) (counted_in_int after)) as Hsub.
        destruct (Z.eqb_spec (Go.sub (counted before) (counted after)) 0) as [E|E];
          destruct (Z.ltb_spec 0 (counted before)) as [P|P]; cbn [andb].
        -- split; [intros _; split; [symmetry; tauto | lia] | discriminate].
        -- split; [intros H; now elim H | intros [_ H]; lia].
        -- split; [intros H; now elim H | intros [H _]; symmetry in H; tauto].
        -- split; [intros H; now elim H | intros [_ H]; lia].
Qed.

End CleanDownloads.

Section CleanDownloadsRuns.
#[local] Existing Instance Reference.ascii_lib.
#[local] Existing Instance Reference.scripted.

(** C5 as stated fails: three old files are counted, the deletion
    command succeeds, one old file is still there afterwards, and the
    action reports success. *)
Lemma clean_downloads_partial_counterexample :
  let s := Reference.start
             [Reference.says "/Users/dev"; Reference.ok;
              Reference.says "       3"; Reference.ok;
              Reference.says "       1"] EmptyString in
  let run := quickactions.cleanDownloads s in
  Observe.dirExists (events run) = true /\
  Observe.preCount (events run) = 3 /\
  Observe.postCount (events run) = 1 /\
  result run = None.
Proof. repeat split. Qed.

(** The same run, read through the amended statement. *)
Lemma clean_downloads_outcome_witness :
  let s := Reference.start
             [Reference.says "/Users/dev"; Reference.ok;
              Reference.says "       3"; Reference.ok;
              Reference.says "       1"] EmptyString in
  let run := quickactions.cleanDownloads s in
  Observe.dirExists (events run) = true /\
  calls run =
    [UserHomeDir; Stat "/Users/dev/Downloads";
     Observe.countOld "/Users/dev/Downloads";
     Observe.deleteOld "/Users/dev/Downloads";
     Observe.countOld "/Users/dev/Downloads"].
Proof.
  intros s run.
  assert (Hex : Observe.dirExists (events run) = true) by reflexivity.
  split; [exact Hex|].
  destruct (clean_downloads_outcome s Hex) as (_ & H & _).
  assert (Hnz : Observe.preCount (events run) <> 0) by (vm_compute; discriminate).
  destruct (H Hnz) as (_ & Hok).
  exact (proj1 (Hok eq_refl)).
Defined.

End CleanDownloadsRuns.

(* ------------------------------------------------------------------ *)
(** ** Fix all common issues *)

Section FixAllCommon.
Context {L : Lib} {W : Type} {O : OS W}.
Import quickactions Observe.

(** One round of the loop of [fixAllCommon]. *)
Lemma runFixes_cons (fix_ : M W (option error))
    (rest : list (M W (option error))) (fixed failed : Z) (s : St W) :
  let r := fix_ s in
  let fixed' := if isNil (result r) then Go.add fixed 1 else fixed in
  let failed' := if isNil (result r) then failed else Go.add failed 1 in
  runFixes (fix_ :: rest) fixed failed s =
  (result (runFixes rest fixed' failed' (final r)),
   final (runFixes rest fixed' failed' (final r)),
   events r ++ events (runFixes rest fixed' failed' (final r))).
Proof.
  intros r fixed' failed'. cbn [runFixes]. rewrite bind_run. fold r.
  subst fixed' failed'. destruct (result r); reflexivity.
Qed.

(** C7. The composite action runs flushDNS, clearRAM, fixPermissions and
    rebuildLaunchServices, each from the state the one before left,
    whatever the one before returned: its calls are theirs, in this
    order.  With [fixed] sub-actions that returned nil and [failed] that
    returned an error, [fixed + failed = 4], the outcome is a success
    exactly when [failed = 0], and the message carries the two counts:
    "Fixed 4 common issues" without failures, and "Fixed <fixed> issues
    (<failed> failed)" otherwise, "Fixed 2 issues (2 failed)" when two of
    the four fail. *)
Theorem fix_all_common_counts (s : St W) :
  let r1 := flushDNS s in
  let r2 := clearRAM (final r1) in
  let r3 := fixPermissions (final r2) in
  let r4 := rebuildLaunchServices (final r3) in
  let outcomes := [result r1; result r2; result r3; result r4] in
  let fixed := succeededCount outcomes in
  let failed := failedCount outcomes in
  let run := fixAllCommonRun s in
  events run = events r1 ++ events r2 ++ events r3 ++ events r4 /\
  final run = final r4 /\
  fixed + failed = 4 /\
  (success (result run) = true <-> failed = 0) /\
  message (result run) =
    (if (failed =? 0)%Z
     then ("✓ Fixed " ++ itoa fixed ++ " common issues")%string
     else ("⚠ Fixed " ++ itoa fixed ++ " issues (" ++ itoa failed ++
           " failed)")%string) /\
  (failed = 2 ->
   result run = mkComplete "⚠ Fixed 2 issues (2 failed)" false).
Proof.
  intros r1 r2 r3 r4 outcomes fixed failed run.
  subst run. unfold fixAllCommonRun, commonFixes. rewrite bind_run.
  rewrite runFixes_cons. cbv zeta. fold r1.
  rewrite runFixes_cons. cbv zeta. fold r2.
  rewrite runFixes_cons. cbv zeta. fold r3.
  rewrite runFixes_cons. cbv zeta. fold r4.
  cbn [runFixes]. unfold ret.
  cbn [result final events fst snd].
  subst fixed failed outcomes. unfold succeededCount, failedCount.
  clearbody r4. clearbody r3. clearbody r2. clearbody r1.
  destruct (result r1), (result r2), (result r3), (result r4);
    cbn [isNil negb filter List.length];
    (split; [rewrite !app_nil_r; reflexivity|]);
    (split; [reflexivity|]);
    (split; [reflexivity|]);
    (split; [vm_compute; split; intros H; (reflexivity || discriminate)|]);
    (split; [vm_compute; reflexivity|]);
    intros H; (discriminate H || (vm_compute; reflexivity)).
Qed.

End FixAllCommon.

Section FixAllCommonRun.
#[local] Existing Instance Reference.ascii_lib.
#[local] Existing Instance Reference.scripted.

(** The operator dismisses every password dialog: DNS flush and RAM clear
    fail, the permission fix and the launch-services rebuild succeed. *)
Example fix_all_common_two_of_four :
  let denied := [Reference.fails 1 EmptyString;
                 Reference.fails 1 "sudo: a password is required";
                 Reference.fails 1 EmptyString] in
  let s := Reference.start (denied ++ denied ++ denied) EmptyString in
  result (quickactions.fixAllCommonRun s) =
    quickactions.mkComplete "⚠ Fixed 2 issues (2 failed)" false.
Proof. vm_compute. reflexivity. Qed.

End FixAllCommonRun.

(* ------------------------------------------------------------------ *)
(** ** The session state machine *)

Section Session.
Import quickactions Observe.

(** While the running flag is set, a message that neither reports a
    completion nor moves the focus leaves the flag set and starts
    nothing. *)
Lemma running_persists (m : Model) (msg : Msg) (m' : Model) (c : Cmd) :
  running m = true -> keepsRunning msg = true ->
  Update m msg = Some (m', c) ->
  running m' = true /\ startsAction c = false.
Proof.
  intros Hrun Hkeep Hup.
  destruct msg as [w h| | | |key|done|]; try discriminate;
    cbn [Update] in Hup; rewrite ?Hrun in Hup;
    injection Hup as <- <-; auto.
Qed.

(** C8, as amended.  While the running flag is set, every key message
    leaves the model as it is and issues no command; whatever the
    message, a command that starts an action (one catalog action or the
    composite one) is only ever issued from a model whose flag is clear,
    in answer to one of the keys enter, space and f, and leaves the flag
    set; and from then on the flag stays set and no action is started
    until a completion, Blur or Focus message arrives. *)
Theorem one_action_at_a_time :
  (forall m key,
     running m = true -> Update m (KeyMsg key) = Some (m, CmdNil)) /\
  (forall m msg m' c,
     Update m msg = Some (m', c) -> startsAction c = true ->
     running m = false /\ running m' = true /\
     exists key, msg = KeyMsg key /\ key_is key ["enter"; " "; "f"] = true) /\
  (forall msgs m m' cs,
     running m = true -> forallb keepsRunning msgs = true ->
     deliver m msgs = Some (m', cs) ->
     running m' = true /\ existsb startsAction cs = false).
Proof.
  split; [|split].
  - intros m key Hrun. unfold Update. rewrite Hrun. reflexivity.
  - intros m msg m' c Hup Hstart.
    destruct msg as [w h| | | |key|done|]; cbn [Update] in Hup.
    + injection Hup as <- <-. discriminate.
    + destruct (clampSelection _); [|discriminate].
      injection Hup as <- <-. discriminate.
    + injection Hup as <- <-. discriminate.
    + destruct (running m); injection Hup as <- <-; discriminate.
    + destruct (running m) eqn:Hrun; [injection Hup as <- <-; discriminate|].
      split; [reflexivity|].
      destruct (key_is key ["up"; "k"]) eqn:K1.
      { destruct (0 <? actionIndex m)%Z; injection Hup as <- <-; discriminate. }
      destruct (key_is key ["down"; "j"]) eqn:K2.
      { destruct (actionIndex m <? _)%Z; injection Hup as <- <-; discriminate. }
      destruct (key_is key ["enter"; " "]) eqn:K3.
      { destruct (actionIndex m <? _)%Z;
          [|injection Hup as <- <-; discriminate].
        destruct (index (actions m) (actionIndex m)) as [action|];
          [|discriminate].
        injection Hup as <- <-. split; [reflexivity|].
        exists key. split; [reflexivity|].
        unfold key_is in *. cbn [existsb] in *.
        apply orb_true_iff in K3. destruct K3 as [->|K3]; [reflexivity|].
        apply orb_true_iff in K3. destruct K3 as [->|K3]; [|discriminate].
        apply orb_true_r. }
      destruct (key_is key ["f"]) eqn:K4.
      { injection Hup as <- <-. split; [reflexivity|].
        exists key. split; [reflexivity|].
        unfold key_is in *. cbn [existsb] in *.
        apply orb_true_iff in K4. destruct K4 as [->|K4]; [|discriminate].
        rewrite !orb_true_r. reflexivity. }
      destruct (key_is key ["g"]); [injection Hup as <- <-; discriminate|].
      destruct (key_is key ["G"]); injection Hup as <- <-; discriminate.
    + injection Hup as <- <-. discriminate.
    + injection Hup as <- <-. discriminate.
  - induction msgs as [|msg rest IH]; intros m m' cs Hrun Hkeep Hdel.
    + cbn in Hdel. injection Hdel as <- <-. auto.
    + cbn [forallb] in Hkeep. apply andb_true_iff in Hkeep.
      destruct Hkeep as [Hk Hrest]. cbn [deliver] in Hdel.
      destruct (Update m msg) as [[m1 c]|] eqn:Hup; [|discriminate].
      destruct (deliver m1 rest) as [[m2 cs']|] eqn:Hd; [|discriminate].
      injection Hdel as <- <-.
      destruct (running_persists m msg m1 c Hrun Hk Hup) as [Hr1 Hc].
      destruct (IH m1 m2 cs' Hr1 Hrest Hd) as [Hr2 Hcs].
      split; [exact Hr2|]. cbn [existsb]. rewrite Hc, Hcs. reflexivity.
Qed.

(** C6, as amended.  A Blur message only clears the running flag and the
    name of the running action: the outcome message, its kind and the
    spinner tick stay as they are, and no command is issued, so nothing
    reaches an action that is executing.  It is the next Focus message
    that clears the outcome and sets the tick to zero. *)
Theorem blur_keeps_outcome :
  (forall m,
     Update m Blur = Some (with_running m false EmptyString, CmdNil) /\
     status (with_running m false EmptyString) = status m /\
     statusType (with_running m false EmptyString) = statusType m /\
     spinnerFrame (with_running m false EmptyString) = spinnerFrame m) /\
  (forall m m' c,
     Update m Focus = Some (m', c) ->
     c = CmdNil /\ status m' = EmptyString /\ statusType m' = EmptyString /\
     spinnerFrame m' = 0 /\ running m' = false).
Proof.
  split.
  - intros m. repeat split.
  - intros m m' c Hup. cbn [Update] in Hup.
    unfold clampSelection in Hup.
    destruct (visibleActions _) as [acts|]; [|discriminate].
    destruct (len acts =? 0)%Z.
    + injection Hup as <- <-. repeat split.
    + cbn [actionIndex with_spinnerFrame with_status with_running] in Hup.
      destruct (actionIndex m <? 0)%Z;
        match type of Hup with
        | context [if ?b then _ else _] => destruct b
        end;
        injection Hup as <- <-; repeat split.
Qed.

End Session.

(** C6 as stated fails.  After an action has completed, the view is idle
    and shows its outcome; a Blur message leaves that outcome in place.
    And a Blur that arrives while an action runs leaves the view idle
    with a tick that is not zero, which a second Blur does not reset. *)
Lemma blur_leaves_outcome_counterexample :
  let done := quickactions.mkComplete
                "✓ Kill Heavy Processes completed successfully" true in
  (exists m m',
     Observe.deliver quickactions.New
       [quickactions.KeyMsg "enter"; quickactions.ActionComplete done]
       = Some (m, [quickactions.CmdBatch quickactions.tickSpinner
                     (quickactions.CmdRunAction
                        (quickactions.mkAction "Kill Heavy Processes"
                           "Terminate resource-intensive processes"
                           "Performance" quickactions.m_killHeavyProcesses
                           false));
                   quickactions.CmdNil]) /\
     quickactions.running m = false /\
     quickactions.Update m quickactions.Blur = Some (m', quickactions.CmdNil) /\
     quickactions.status m' =
       "✓ Kill Heavy Processes completed successfully") /\
  (exists m m' cs,
     Observe.deliver quickactions.New
       [quickactions.KeyMsg "enter"; quickactions.spinnerTickMsg;
        quickactions.Blur] = Some (m, cs) /\
     quickactions.running m = false /\
     quickactions.Update m quickactions.Blur = Some (m', quickactions.CmdNil) /\
     quickactions.spinnerFrame m' = 1).
Proof.
  intros done. split.
  - eexists. eexists. split; [vm_compute; reflexivity|].
    split; [reflexivity|]. split; reflexivity.
  - eexists. eexists. eexists. split; [vm_compute; reflexivity|].
    split; [reflexivity|]. split; reflexivity.
Qed.

(** The amended statement on two sessions.  In the first an action has
    completed and its outcome is shown: Blur leaves it there and the
    Focus after it clears it.  In the second the view lost focus while an
    action ran and the spinner stood at frame 2: a further Blur leaves
    the frame, the Focus after it sets it to zero. *)
Lemma blur_keeps_outcome_witness :
  let after msgs :=
    match Observe.deliver quickactions.New msgs with
    | Some (m, _) => m
    | None => quickactions.New
    end in
  let done := quickactions.mkComplete "✗ Fix WiFi failed: timed out" false in
  let shown := after [quickactions.KeyMsg "enter"; quickactions.spinnerTickMsg;
                      quickactions.ActionComplete done] in
  let ticking := after [quickactions.KeyMsg "enter";
                        quickactions.spinnerTickMsg;
                        quickactions.spinnerTickMsg; quickactions.Blur] in
  (quickactions.status shown = "✗ Fix WiFi failed: timed out" /\
   exists blurred focused,
     quickactions.Update shown quickactions.Blur =
       Some (blurred, quickactions.CmdNil) /\
     quickactions.status blurred = "✗ Fix WiFi failed: timed out" /\
     quickactions.statusType blurred = "error" /\
     quickactions.Update blurred quickactions.Focus =
       Some (focused, quickactions.CmdNil) /\
     quickactions.status focused = EmptyString /\
     quickactions.statusType focused = EmptyString) /\
  (quickactions.spinnerFrame ticking = 2 /\
   exists blurred focused,
     quickactions.Update ticking quickactions.Blur =
       Some (blurred, quickactions.CmdNil) /\
     quickactions.spinnerFrame blurred = 2 /\
     quickactions.Update blurred quickactions.Focus =
       Some (focused, quickactions.CmdNil) /\
     quickactions.spinnerFrame focused = 0).
Proof.
  intros after done shown ticking.
  assert (Hfocus : forall m,
            quickactions.categories m = quickactions.categories quickactions.New ->
            quickactions.categoryIndex m = 0 ->
            exists m', quickactions.Update m quickactions.Focus =
                         Some (m', quickactions.CmdNil)).
  { intros m Hc Hi. cbn [quickactions.Update].
    unfold quickactions.clampSelection, quickactions.visibleActions.
    cbn [quickactions.categories quickactions.categoryIndex
         quickactions.with_spinnerFrame quickactions.with_status
         quickactions.with_running].
    rewrite Hc, Hi. cbn.
    destruct (quickactions.len _ =? 0)%Z; [eexists; reflexivity|].
    destruct (_ <? 0)%Z;
      match goal with
      | |- context [if ?b then _ else _] => destruct b
      end; eexists; reflexivity. }
  split.
  - split; [reflexivity|].
    destruct (proj1 blur_keeps_outcome shown) as (Hb & Hs & Ht & _).
    destruct (Hfocus (quickactions.with_running shown false EmptyString)
                eq_refl eq_refl) as (focused & Hf).
    destruct (proj2 blur_keeps_outcome _ _ _ Hf) as (_ & Hs' & Ht' & _).
    exists (quickactions.with_running shown false EmptyString), focused.
    split; [exact Hb|]. split; [rewrite Hs; reflexivity|].
    split; [rewrite Ht; reflexivity|].
    split; [exact Hf|]. split; [exact Hs'|exact Ht'].
  - split; [reflexivity|].
    destruct (proj1 blur_keeps_outcome ticking) as (Hb & _ & _ & Hfr).
    destruct (Hfocus (quickactions.with_running ticking false EmptyString)
                eq_refl eq_refl) as (focused & Hf).
    destruct (proj2 blur_keeps_outcome _ _ _ Hf) as (_ & _ & _ & Hfr' & _).
    exists (quickactions.with_running ticking false EmptyString), focused.
    split; [exact Hb|]. split; [rewrite Hfr; reflexivity|].
    split; [exact Hf|exact Hfr'].
Defined.

(** C8 as stated fails.  The keys Enter (focus), Enter, Esc, Enter
    (focus again), Down, Enter reach the module as the messages below:
    the Blur that follows Esc clears the running flag while Kill Heavy
    Processes executes, and the last Enter starts Clear RAM.  No
    completion message lies between the two starts, so the second action
    starts from a session that is not idle and two actions execute at
    the same time. *)
Lemma second_action_before_completion_counterexample :
  let run c := quickactions.CmdBatch quickactions.tickSpinner
                 (quickactions.CmdRunAction c) in
  exists m first second,
    nth_error quickactions.catalog 0 = Some first /\
    nth_error quickactions.catalog 1 = Some second /\
    Observe.deliver quickactions.New
      [quickactions.Focus; quickactions.KeyMsg "enter";
       quickactions.KeyMsg "esc"; quickactions.Blur;
       quickactions.Focus; quickactions.KeyMsg "down";
       quickactions.KeyMsg "enter"]
    = Some (m, [quickactions.CmdNil; run first; quickactions.CmdNil;
                quickactions.CmdNil; quickactions.CmdNil;
                quickactions.CmdNil; run second]) /\
    Observe.startsAction (run first) = true /\
    Observe.startsAction (run second) = true /\
    quickactions.runningAction m = "Clear RAM".
Proof.
  intros run. eexists. eexists. eexists.
  split; [reflexivity|]. split; [reflexivity|].
  split; [vm_compute; reflexivity|]. repeat split.
Qed.

(** The amended statement on a session.  Enter starts the first catalog
    action; while it runs, keys, ticks and a resize start nothing and
    leave the flag set. *)
Lemma one_action_at_a_time_witness :
  let started := quickactions.Update quickactions.New
                   (quickactions.KeyMsg "enter") in
  let m := match started with
           | Some (m, _) => m
           | None => quickactions.New
           end in
  let msgs := [quickactions.KeyMsg "f"; quickactions.spinnerTickMsg;
               quickactions.KeyMsg "enter"; quickactions.WindowSizeMsg 80 24;
               quickactions.KeyMsg " "] in
  (exists c, started = Some (m, c) /\ Observe.startsAction c = true) /\
  exists m' cs,
    Observe.deliver m msgs = Some (m', cs) /\
    quickactions.running m' = true /\
    existsb Observe.startsAction cs = false.
Proof.
  intros started m msgs. split.
  - eexists. split; [vm_compute; reflexivity|reflexivity].
  - destruct (Observe.deliver m msgs) as [[m' cs]|] eqn:Hd;
      [|vm_compute in Hd; discriminate Hd].
    exists m', cs. split; [reflexivity|].
    exact (proj2 (proj2 one_action_at_a_time) msgs m m' cs
             eq_refl eq_refl Hd).
Defined.

(* ------------------------------------------------------------------ *)
(** ** Further properties: the gateway, the actions, the session, the
    command line, the cleanup and network modules, the layout *)

Section GatewayMore.
Context {L : Lib} {W : Type} {O : OS W}.
Import sudo Observe Traces.

(** One run of the dialog: the call, the state and the result. *)
Lemma promptPassword_outcome (s : St W) :
  exists dialog w res,
    promptPassword s = (res, mkSt w (cachedPassword s), [(promptCall, dialog)]) /\
    (usable dialog = true -> res = (TrimSpace (r_out dialog), None)) /\
    (usable dialog = false ->
       exists err, res = (EmptyString, Some err) /\
         (dismissed dialog = true -> err = ErrCancelled) /\
         (dismissed dialog = false -> Is_ErrCancelled err = false)).
Proof.
  unfold promptPassword, bind, call, usable, dismissed.
  destruct (sys promptCall (world s)) as [dialog w]. exists dialog, w.
  unfold err_of. destruct (r_err dialog) as [e|]; cbn [option_map].
  - destruct e as [[code| |] msg];
      [destruct code as [|[p|p|]|]|..]; cbn;
      eexists; (split; [reflexivity|]); split; try discriminate;
      intros _; eexists; (split; [reflexivity|]); split;
      try discriminate; reflexivity.
  - destruct (is_empty (TrimSpace (r_out dialog))) eqn:E; cbn;
      eexists; (split; [reflexivity|]); split; try discriminate;
      try reflexivity.
    intros _; eexists; (split; [reflexivity|]); split;
      try discriminate; reflexivity.
Qed.

(** The calls and the result of [Run], case by case. *)
Lemma Run_outcome (command : string) (args : list string) (s : St W) :
  let run := Run command args s in
  exists probe,
    (needsElevation probe = false /\
     events run = [(probeCall command args, probe)] /\
     result run =
       (TrimRight_nl (r_out probe),
        match err_of probe with
        | None => None
        | Some _ => Some (Errorf (TrimSpace (r_out probe)))
        end)) \/
    (needsElevation probe = true /\
     ((exists dialog err,
         is_empty (cachedPassword s) = true /\
         usable dialog = false /\
         events run = [(probeCall command args, probe); (promptCall, dialog)] /\
         result run = (EmptyString, Some err) /\
         (dismissed dialog = true -> err = ErrCancelled) /\
         (dismissed dialog = false -> Is_ErrCancelled err = false)) \/
      (exists before password r3,
         (is_empty (cachedPassword s) = false /\ before = [] /\
          password = cachedPassword s \/
          is_empty (cachedPassword s) = true /\
          exists dialog, usable dialog = true /\
            before = [(promptCall, dialog)] /\
            password = TrimSpace (r_out dialog)) /\
         events run =
           (probeCall command args, probe) :: before ++
           [(elevatedCall command args password, r3)] /\
         result run =
           (TrimRight_nl (r_out r3),
            match err_of r3 with
            | None => None
            | Some _ => Some (Errorf (TrimSpace (r_out r3)))
            end)))).
Proof.
  intros run. subst run. unfold Run. rewrite bind_run, call_run.
  destruct (sys (probeCall command args) (world s)) as [probe w1].
  cbn [result final events fst snd].
  exists probe. unfold needsElevation.
  destruct (err_of probe) as [err|] eqn:Eerr.
  2:{ left. cbn. auto. }
  destruct (requiresPassword (r_out probe) (Some err)) eqn:Eneed; cbn [negb].
  2:{ left. cbn. auto. }
  right. split; [reflexivity|].
  rewrite bind_run.
  destruct (is_empty (cachedPassword s)) eqn:Ecache.
  - unfold ensurePassword. rewrite bind_run.
    change (get_cachedPassword (mkSt w1 (cachedPassword s)))
      with (cachedPassword s, mkSt w1 (cachedPassword s), @nil Event).
    cbn [result final events fst snd app cachedPassword].
    rewrite Ecache. cbn [negb]. rewrite bind_run.
    destruct (promptPassword_outcome (mkSt w1 (cachedPassword s)))
      as (dialog & w2 & res & Hp & Hok & Hbad).
    rewrite Hp. cbn [result final events fst snd app world cachedPassword].
    destruct (usable dialog) eqn:U.
    + right. rewrite (Hok eq_refl).
      rewrite !bind_run.
      cbn [result final events fst snd app ret set_cachedPassword
           get_cachedPassword cachedPassword world].
      pose proof (call_run (elevatedCall command args (TrimSpace (r_out dialog)))
                    (mkSt w2 (TrimSpace (r_out dialog)))) as Hc.
      cbn [world cachedPassword] in Hc.
      destruct (sys _ w2) as [r3 w3].
      exists [(promptCall, dialog)], (TrimSpace (r_out dialog)), r3.
      split.
      { right. split; [reflexivity|]. exists dialog. auto. }
      rewrite !bind_run, Hc.
      cbn [result final events fst snd app].
      destruct (err_of r3) as [runErr|];
        [destruct (requiresPassword (r_out r3) (Some runErr))|]; cbn; auto.
    + left. destruct (Hbad eq_refl) as (e & -> & Hd1 & Hd2).
      exists dialog, e. cbn. repeat split; auto.
  - right.
    rewrite (ensurePassword_cached (mkSt w1 (cachedPassword s)) Ecache).
    cbn [result final events fst snd].
    rewrite bind_run, call_run. cbn [world cachedPassword].
    destruct (sys _ w1) as [r3 w3].
    exists [], (cachedPassword s), r3.
    split; [left; auto|].
    cbn [result final events fst snd app].
    destruct (err_of r3) as [runErr|];
      [destruct (requiresPassword (r_out r3) (Some runErr))|]; cbn; auto.
Qed.

Lemma lastEvent_snoc (evs : list Event) (e : Event) :
  lastEvent (evs ++ [e]) = Some e.
Proof. unfold lastEvent. rewrite rev_app_distr. reflexivity. Qed.

(** X1.  Every [Run] starts with the non-interactive probe [sudo -n]; the
    dialog is shown exactly when the probe fails with the
    privilege-required signature while no credential is cached; there is
    never more than one dialog and one elevated execution, so at most
    three calls and no second attempt after a rejected secret; and a run
    whose probe shows no elevation need consists of the probe alone and
    leaves the cache as it was. *)
Theorem run_dialog_only_when_needed (command : string) (args : list string)
    (s : St W) :
  let run := Run command args s in
  let probe := response 0 (events run) in
  hd_error (calls run) = Some (probeCall command args) /\
  existsb isPrompt (calls run) =
    (needsElevation probe && is_empty (cachedPassword s))%bool /\
  (List.length (filter isPrompt (calls run)) <= 1)%nat /\
  (List.length (filter isElevated (calls run)) <= 1)%nat /\
  (List.length (calls run) <= 3)%nat /\
  (needsElevation probe = false ->
     calls run = [probeCall command args] /\
     cachedPassword (final run) = cachedPassword s).
Proof.
  intros run probe.
  destruct (Run_shape command args s)
    as (p & [(Hneed & Hev & Hc) |
             (Hneed & [(Hfull & r3 & Hev & Hc) |
                       (Hnone & dialog &
                        [(Hu & Hev & Hc & _) | (Hu & r3 & Hev & Hc)])])]);
    fold run in Hev, Hc; subst probe; unfold calls, response;
    rewrite Hev; cbn [map fst snd nth]; rewrite Hneed;
    cbn [hd_error existsb filter isPrompt isElevated probeCall probeArgs
         elevatedCall sudoArgs promptCall app orb andb List.length];
    rewrite ?Hfull, ?Hnone;
    repeat split; try reflexivity; try lia; try discriminate; auto.
Qed.

(** X2.  What [Run] returns is decided by the last process it started.  When
    that is a [sudo] process (the probe or the elevated execution), the
    output is what that process wrote, without trailing newlines, and the
    error is nil exactly when it exited without error, and otherwise
    carries its trimmed output.  When it is the dialog, the command was
    never executed with the secret, the output is empty and the error is
    [ErrCancelled] exactly when the dialog was dismissed. *)
Theorem run_reports_last_process (command : string) (args : list string)
    (s : St W) :
  let run := Run command args s in
  exists e,
    lastEvent (events run) = Some e /\
    if isPrompt (fst e)
    then existsb isElevated (calls run) = false /\
         fst (result run) = EmptyString /\
         (exists err, snd (result run) = Some err /\
            (err = ErrCancelled <-> dismissed (snd e) = true) /\
            (Is_ErrCancelled err = true <-> dismissed (snd e) = true))
    else fst (result run) = TrimRight_nl (r_out (snd e)) /\
         snd (result run) =
           if sudoExitedClean e then None
           else Some (Errorf (TrimSpace (r_out (snd e)))).
Proof.
  intros run.
  destruct (Run_outcome command args s)
    as (probe & [(Hneed & Hev & Hres) |
                 (Hneed & [(dialog & err & Hc & Hu & Hev & Hres & Hd1 & Hd2) |
                           (before & password & r3 & Hb & Hev & Hres)])]);
    fold run in Hev, Hres.
  - exists (probeCall command args, probe). rewrite Hev, Hres.
    split; [reflexivity|]. cbn.
    destruct (err_of probe); auto.
  - exists (promptCall, dialog). unfold calls. rewrite Hev, Hres.
    split; [reflexivity|]. cbn.
    repeat split; auto. exists err. split; [reflexivity|].
    destruct (dismissed dialog) eqn:D.
    + rewrite (Hd1 eq_refl). cbn. repeat split; auto.
    + specialize (Hd2 eq_refl). repeat split; try congruence.
      intros ->. discriminate.
  - exists (elevatedCall command args password, r3). rewrite Hev, Hres.
    split.
    + change ((probeCall command args, probe)
              :: before ++ [(elevatedCall command args password, r3)])
        with (((probeCall command args, probe) :: before)
              ++ [(elevatedCall command args password, r3)]).
      apply lastEvent_snoc.
    + cbn. destruct (err_of r3); auto.
Qed.

Lemma sudoOutcome_not_cancelled (res : string * option error) (e : error) :
  quickactions.sudoOutcome res = Some e -> Is_ErrCancelled e = false.
Proof.
  unfold quickactions.sudoOutcome. destruct (snd res) as [err|]; [|discriminate].
  destruct (Is_ErrCancelled err) eqn:E; intros H; injection H as <-;
    [reflexivity|exact E].
Qed.

(** [executeSudoShell] is [executeSudoCommand] on [sh -c]. *)
Lemma executeSudoShell_as_command (shellCmd : string) :
  quickactions.executeSudoShell shellCmd =
  quickactions.executeSudoCommand "sh" ["-c"; shellCmd].
Proof. reflexivity. Qed.

(** The calls and the result of [executeSudoCommand], case by case. *)
Lemma executeSudoCommand_shape (command : string) (args : list string)
    (s : St W) :
  let run := quickactions.executeSudoCommand command args s in
  exists plain w,
    sys (plainCall command args) (world s) = (plain, w) /\
    (succeeded plain = true ->
       run = (None, mkSt w (cachedPassword s),
              [(plainCall command args, plain)])) /\
    (succeeded plain = false ->
       let gate := Run command args (mkSt w (cachedPassword s)) in
       run = (quickactions.sudoOutcome (result gate), final gate,
              (plainCall command args, plain) :: events gate)).
Proof.
  intros run. subst run.
  unfold quickactions.executeSudoCommand,
    quickactions.runCommandWithTimeoutOutput.
  rewrite bind_assoc, bind_run, call_run.
  fold (plainCall command args).
  destruct (sys (plainCall command args) (world s)) as [plain w].
  exists plain, w. split; [reflexivity|].
  cbn [result final events fst snd]. unfold succeeded.
  destruct (r_deadline plain).
  - split; [discriminate|]. intros _.
    rewrite bind_run. cbn [ret result final events fst snd app].
    rewrite bind_run. cbn [ret result final events fst snd app].
    rewrite app_nil_r. reflexivity.
  - rewrite bind_run. cbn [ret result final events fst snd app negb andb].
    unfold err_of. destruct (r_err plain); cbn [option_map].
    + split; [discriminate|]. intros _.
      rewrite bind_run. cbn [ret result final events fst snd app].
      rewrite app_nil_r. reflexivity.
    + split; [|discriminate]. intros _. reflexivity.
Qed.

(** X3.  A privileged command is first tried as it is, without privilege and
    under the 30 second deadline.  When that attempt returns nil nothing
    else runs: no [sudo], no dialog.  Otherwise (an error, or the deadline
    passed) the command goes through the gateway, with no deadline, and
    the result is the gateway's, except that the gateway's cancellation
    is never passed on: a dismissed dialog gives the error
    "administrator approval cancelled". *)
Theorem sudo_command_unprivileged_first (command : string)
    (args : list string) (s : St W) :
  let run := quickactions.executeSudoCommand command args s in
  let plain := response 0 (events run) in
  hd_error (calls run) = Some (plainCall command args) /\
  (succeeded plain = true ->
     calls run = [plainCall command args] /\ result run = None /\
     cachedPassword (final run) = cachedPassword s) /\
  (succeeded plain = false ->
     exists s',
       cachedPassword s' = cachedPassword s /\
       events run =
         (plainCall command args, plain) :: events (Run command args s') /\
       result run = quickactions.sudoOutcome (result (Run command args s')) /\
       (result run = None <-> snd (result (Run command args s')) = None)) /\
  (forall e, result run = Some e -> Is_ErrCancelled e = false) /\
  (forall dialog,
     lastEvent (events run) = Some (promptCall, dialog) ->
     dismissed dialog = true -> result run = Some cancelled).
Proof.
  intros run plain.
  destruct (executeSudoCommand_shape command args s)
    as (p & w & Hsys & Hok & Hbad).
  fold run in Hok, Hbad.
  destruct (succeeded p) eqn:Sp.
  - specialize (Hok eq_refl). subst plain. unfold calls, response.
    rewrite Hok. cbn [events result final map fst snd nth hd_error].
    rewrite Sp. cbn [cachedPassword].
    repeat split; try discriminate; auto.
  - specialize (Hbad eq_refl). cbv zeta in Hbad.
    set (s' := mkSt w (cachedPassword s)) in *.
    subst plain. unfold calls, response.
    rewrite Hbad. cbn [events result final map fst snd nth hd_error].
    rewrite Sp.
    split; [reflexivity|]. split; [discriminate|]. split.
    { intros _. exists s'. repeat split; auto.
      - unfold quickactions.sudoOutcome.
        destruct (snd (result (Run command args s'))); [|reflexivity].
        destruct (Is_ErrCancelled e); discriminate.
      - unfold quickactions.sudoOutcome. intros ->. reflexivity. }
    split; [apply sudoOutcome_not_cancelled|].
    intros dialog Hlast Hdis.
    destruct (Run_outcome command args s')
      as (probe & [(Hneed & Hev & Hres) |
                   (Hneed & [(dialog' & err & Hc & Hu & Hev & Hres & Hd1 & Hd2) |
                             (before & password & r3 & Hb & Hev & Hres)])]).
    + rewrite Hev in Hlast. cbn in Hlast. discriminate.
    + rewrite Hev in Hlast. cbn in Hlast. injection Hlast as <-.
      rewrite Hres. rewrite (Hd1 Hdis). reflexivity.
    + exfalso. rewrite Hev in Hlast.
      change ((plainCall command args, p)
              :: (probeCall command args, probe)
              :: before ++ [(elevatedCall command args password, r3)])
        with (((plainCall command args, p)
               :: (probeCall command args, probe) :: before)
              ++ [(elevatedCall command args password, r3)]) in Hlast.
      rewrite lastEvent_snoc in Hlast. discriminate.
Qed.

Lemma Run_prompts (command : string) (args : list string) (s : St W) :
  (List.length (filter isPrompt (calls (Run command args s))) <= 1)%nat.
Proof.
  destruct (Run_shape command args s)
    as (p & [(Hneed & Hev & Hc) |
             (Hneed & [(Hfull & r3 & Hev & Hc) |
                       (Hnone & dialog &
                        [(Hu & Hev & Hc & _) | (Hu & r3 & Hev & Hc)])])]);
    unfold calls; rewrite Hev; cbn; lia.
Qed.

Lemma executeSudoCommand_prompts (command : string) (args : list string)
    (s : St W) :
  isPrompt (plainCall command args) = false ->
  (List.length (filter isPrompt
     (calls (quickactions.executeSudoCommand command args s))) <= 1)%nat.
Proof.
  intros Hp.
  destruct (executeSudoCommand_shape command args s)
    as (p & w & _ & Hok & Hbad).
  destruct (succeeded p).
  - rewrite (Hok eq_refl). unfold calls. cbn [events snd map fst filter].
    rewrite Hp. cbn. lia.
  - rewrite (Hbad eq_refl). unfold calls. cbn [events snd map fst filter].
    rewrite Hp. apply Run_prompts.
Qed.

(** X4.  Flush DNS always attempts both of its commands, [dscacheutil
    -flushcache] and then [killall -HUP mDNSResponder], each first without
    privilege: the second is attempted whatever became of the first, also
    after a dismissed password dialog, so that one run can show the dialog
    twice but never more often.  It fails only when both commands
    failed. *)
Theorem flush_dns_attempts_both (s : St W) :
  let run := quickactions.flushDNS s in
  let first := quickactions.executeSudoCommand "dscacheutil" ["-flushcache"] s in
  let second := quickactions.executeSudoCommand "killall"
                  ["-HUP"; "mDNSResponder"] (final first) in
  events run = events first ++ events second /\
  hd_error (calls first) = Some (plainCall "dscacheutil" ["-flushcache"]) /\
  hd_error (calls second) =
    Some (plainCall "killall" ["-HUP"; "mDNSResponder"]) /\
  (result run = None <-> result first = None \/ result second = None) /\
  (result run <> None ->
     result run =
       Some (Errorf "DNS flush failed - admin privileges required")) /\
  (List.length (filter isPrompt (calls run)) <= 2)%nat.
Proof.
  intros run first second. subst run. unfold quickactions.flushDNS.
  rewrite bind_run. fold first. cbn [result final events fst snd].
  rewrite bind_run. fold second. cbn [result final events fst snd].
  pose proof (executeSudoCommand_prompts "dscacheutil" ["-flushcache"] s
                eq_refl) as P1.
  pose proof (executeSudoCommand_prompts "killall" ["-HUP"; "mDNSResponder"]
                (final first) eq_refl) as P2.
  fold first in P1. fold second in P2.
  assert (H1 : hd_error (calls first) =
               Some (plainCall "dscacheutil" ["-flushcache"])).
  { subst first.
    destruct (executeSudoCommand_shape "dscacheutil" ["-flushcache"] s)
      as (p & w & _ & Hok & Hbad).
    destruct (succeeded p); [rewrite (Hok eq_refl)|rewrite (Hbad eq_refl)];
      reflexivity. }
  assert (H2 : hd_error (calls second) =
               Some (plainCall "killall" ["-HUP"; "mDNSResponder"])).
  { subst second.
    destruct (executeSudoCommand_shape "killall" ["-HUP"; "mDNSResponder"]
                (final first)) as (p & w & _ & Hok & Hbad).
    destruct (succeeded p); [rewrite (Hok eq_refl)|rewrite (Hbad eq_refl)];
      reflexivity. }
  clearbody second. clearbody first.
  unfold calls in *.
  destruct (result first) as [e1|], (result second) as [e2|];
    cbn [ret result final events fst snd]; rewrite ?app_nil_r;
    (split; [reflexivity|]); (split; [exact H1|]); (split; [exact H2|]);
    (split; [split; intros H; try discriminate; auto;
             destruct H; discriminate|]);
    (split; [congruence|]);
    rewrite map_app, filter_app, length_app;
    exact (Nat.add_le_mono _ _ _ _ P1 P2).
Qed.

End GatewayMore.

Section GatewayMoreRuns.
#[local] Existing Instance Reference.ascii_lib.
#[local] Existing Instance Reference.scripted.

(** [purge] needs privilege, nothing is cached, and the user dismisses
    the dialog: three calls, none of them elevated, and the error the
    status line shows. *)
Example dismissed_dialog_is_reported :
  let s := Reference.start
             [Reference.fails 1 EmptyString; Reference.fails 1 EmptyString;
              Reference.fails 1 EmptyString] EmptyString in
  let run := quickactions.executeSudoCommand "purge" [] s in
  calls run = [Traces.plainCall "purge" []; sudo.probeCall "purge" [];
               sudo.promptCall] /\
  result run = Some Traces.cancelled.
Proof. split; reflexivity. Qed.

(** Flush DNS with a dialog dismissed twice. *)
Example flush_dns_two_dialogs :
  let s := Reference.start
             [Reference.fails 1 EmptyString; Reference.fails 1 EmptyString;
              Reference.fails 1 EmptyString; Reference.fails 1 EmptyString;
              Reference.fails 1 EmptyString; Reference.fails 1 EmptyString]
             EmptyString in
  let run := quickactions.flushDNS s in
  List.length (filter Observe.isPrompt (calls run)) = 2%nat /\
  result run = Some (Errorf "DNS flush failed - admin privileges required").
Proof. split; reflexivity. Qed.

End GatewayMoreRuns.

Section Unprivileged.
Context {L : Lib} {W : Type} {O : OS W}.
Import quickactions Observe Traces.

Lemma Only_powerCycleFirst (candidates : list string) :
  Only boundedUnprivileged (powerCycleFirst candidates).
Proof.
  induction candidates as [|c rest IH]; cbn [powerCycleFirst].
  - apply Only_ret.
  - unfold runCommandWithTimeout. only_calls.
Qed.

Lemma Only_chmodExisting (dirs : list string) (success : Z) :
  Only boundedUnprivileged (chmodExisting dirs success).
Proof.
  revert success. induction dirs as [|d rest IH]; intros success;
    cbn [chmodExisting].
  - apply Only_ret.
  - unfold runShellWithTimeout. only_calls.
Qed.

Lemma Only_killEach (pids : list string) (killed : Z) :
  Only boundedUnprivileged (killEach pids killed).
Proof.
  revert killed. induction pids as [|p rest IH]; intros killed;
    cbn [killEach].
  - apply Only_ret.
  - unfold runCommandWithTimeout. only_calls.
Qed.

Lemma Only_getActiveNetworkInterface :
  Only boundedUnprivileged getActiveNetworkInterface.
Proof.
  unfold getActiveNetworkInterface. cbv zeta.
  apply Only_bind.
  { unfold runShellWithTimeoutOutput. only_calls. }
  intros oe. destruct (match snd oe with Some _ => _ | None => _ end).
  { apply Only_ret. }
  apply Only_bind.
  { apply Only_firstWithoutError. intros x.
    unfold runShellWithTimeout. only_calls. }
  intros [iface|]; [apply Only_ret|].
  apply Only_bind.
  { apply Only_firstWithoutError. intros x.
    unfold runCommandWithTimeout. only_calls. }
  intros [service|]; apply Only_ret.
Qed.

(** X5.  Fix WiFi, Clean Downloads, Fix Permissions, Rebuild Launch Services,
    Disable Animations and Kill Heavy Processes never ask for privilege
    and never wait without bound: on every path, each process they start
    is neither [sudo] nor the password dialog, reads no standard input and
    runs under a deadline of at most 60 seconds. *)
Theorem unprivileged_actions_stay_unprivileged (Fields : string -> list string) :
  Only boundedUnprivileged fixWiFi /\
  Only boundedUnprivileged cleanDownloads /\
  Only boundedUnprivileged fixPermissions /\
  Only boundedUnprivileged rebuildLaunchServices /\
  Only boundedUnprivileged disableAnimations /\
  Only boundedUnprivileged (killHeavyProcesses Fields).
Proof.
  pose proof Only_powerCycleFirst.
  pose proof Only_chmodExisting.
  pose proof Only_killEach.
  pose proof Only_getActiveNetworkInterface.
  repeat split.
  - unfold fixWiFi. only_calls.
  - unfold cleanDownloads, userHomeDir, runShellWithTimeoutOutput,
      runShellWithTimeout. only_calls.
  - unfold fixPermissions, userHomeDir, runShellWithTimeout,
      runCommandWithTimeout. only_calls.
  - unfold rebuildLaunchServices, runCommandWithTimeout. only_calls.
  - unfold disableAnimations, animationCommands, writePreferences,
      runCommandWithTimeout. only_calls.
  - unfold killHeavyProcesses, runShellWithTimeoutOutput. only_calls.
Qed.

End Unprivileged.

Section UnprivilegedRuns.
#[local] Existing Instance Reference.ascii_lib.
#[local] Existing Instance Reference.scripted.

(** Empty Trash is not among them: when both removal methods fail it
    goes through the gateway. *)
Example empty_trash_can_elevate :
  let s := Reference.start
             [Reference.says "/Users/dev"; Reference.ok;
              Reference.says "2"; Reference.ok;
              Reference.fails 1 EmptyString; Reference.ok;
              Reference.fails 1 EmptyString; Reference.fails 1 EmptyString;
              Reference.ok; Reference.says "0"] EmptyString in
  let run := quickactions.emptyTrash s in
  result run = None /\
  In (sudo.probeCall "sh" ["-c"; Traces.sudoRemoveCmd "/Users/dev/.Trash"])
     (calls run) /\
  forallb Traces.boundedUnprivileged (calls run) = false.
Proof.
  split; [reflexivity|]. split; [|reflexivity].
  do 8 right. left. reflexivity.
Qed.

End UnprivilegedRuns.

Section Steps.
Context {L : Lib} {W : Type} {O : OS W}.
Import quickactions Observe Traces.

Lemma bind_calls {A B} (m : M W A) (k : A -> M W B) (s : St W) :
  calls (bind m k s) = calls (m s) ++ calls (k (result (m s)) (final (m s))).
Proof. unfold calls. rewrite bind_events, map_app. reflexivity. Qed.

(** The triple of a [runCommandWithTimeout]. *)
Lemma runCommandWithTimeout_triple (t : Z) (name : string)
    (args : list string) (s : St W) :
  exists r w e,
    sys (command t name args) (world s) = (r, w) /\
    runCommandWithTimeout t name args s =
      (if succeeded r then None else Some e,
       mkSt w (cachedPassword s), [(command t name args, r)]).
Proof.
  unfold runCommandWithTimeout, command. rewrite bind_run, call_run.
  destruct (sys _ (world s)) as [r w].
  cbn [result final events fst snd]. unfold succeeded, err_of.
  destruct (r_deadline r) eqn:D.
  - exists r, w, timedOut. rewrite D. split; reflexivity.
  - destruct (r_err r) as [e|] eqn:E.
    + exists r, w, (OSErr e). rewrite D, E. split; reflexivity.
    + exists r, w, timedOut. rewrite D, E. split; reflexivity.
Qed.

Lemma runShellWithTimeout_triple (t : Z) (cmd : string) (s : St W) :
  exists r w e,
    sys (shell t NoCapture cmd) (world s) = (r, w) /\
    runShellWithTimeout t cmd s =
      (if succeeded r then None else Some e,
       mkSt w (cachedPassword s), [(shell t NoCapture cmd, r)]).
Proof. exact (runCommandWithTimeout_triple t "sh" ["-c"; cmd] s). Qed.

Lemma writePreferences_run (commands : list (string * list string)) (s : St W) :
  calls (writePreferences commands s) =
    map (fun c => command shortCommandTimeout (fst c) (snd c)) commands /\
  cachedPassword (final (writePreferences commands s)) = cachedPassword s.
Proof.
  revert s. induction commands as [|[name args] rest IH]; intros s.
  - split; reflexivity.
  - cbn [writePreferences]. rewrite bind_calls, bind_final.
    destruct (runCommandWithTimeout_triple shortCommandTimeout name args s)
      as (r & w & e & _ & ->).
    cbn [result final fst snd].
    destruct (IH (mkSt w (cachedPassword s))) as [IH1 IH2].
    rewrite IH1, IH2. split; reflexivity.
Qed.

(** X6.  Disable Animations always runs the same five processes in the same
    order: the four [defaults write] commands, whether or not they work,
    and then [killall Dock].  What it returns is decided by [killall Dock]
    alone: the four writes can all fail and the action still reports
    success. *)
Theorem disable_animations_ignores_failed_writes (s : St W) :
  let run := disableAnimations s in
  calls run =
    map (fun c => command shortCommandTimeout (fst c) (snd c))
        animationCommands ++
    [command shortCommandTimeout "killall" ["Dock"]] /\
  (result run = None <-> succeeded (lastResponse (events run)) = true).
Proof.
  intros run. subst run. unfold disableAnimations.
  rewrite bind_calls, bind_result, bind_events.
  destruct (writePreferences_run animationCommands s) as [Hc _].
  rewrite Hc.
  destruct (runCommandWithTimeout_triple shortCommandTimeout "killall" ["Dock"]
              (final (writePreferences animationCommands s)))
    as (r & w & e & _ & ->).
  cbn [result final events fst snd].
  split; [reflexivity|].
  rewrite lastResponse_snoc.
  destruct (succeeded r); split; intros H; congruence.
Qed.

Lemma add_one (a : Z) : 0 <= a < int_max -> Go.add a 1 = a + 1.
Proof.
  unfold Go.add, wrap, int_max. intros H.
  rewrite Z.mod_small; lia.
Qed.

Lemma successes_cons (e : Event) (evs : list Event) :
  successes (e :: evs) =
  (if processSucceeded e then 1 else 0) + successes evs.
Proof.
  unfold successes. cbn [filter].
  destruct (processSucceeded e); cbn [List.length]; lia.
Qed.

Lemma successes_app (e1 e2 : list Event) :
  successes (e1 ++ e2) = successes e1 + successes e2.
Proof. unfold successes. rewrite filter_app, length_app. lia. Qed.

Lemma successes_nonneg (evs : list Event) : 0 <= successes evs.
Proof. unfold successes. lia. Qed.

Lemma successes_pos (evs : list Event) :
  0 < successes evs <-> existsb processSucceeded evs = true.
Proof.
  induction evs as [|e evs IH]; [cbn; split; [lia|discriminate]|].
  rewrite successes_cons. cbn [existsb]. pose proof (successes_nonneg evs).
  destruct (processSucceeded e); cbn [orb]; [split; [reflexivity|lia]|].
  rewrite <- IH. split; lia.
Qed.

Lemma killEach_run (pids : list string) (k : Z) (s : St W) :
  0 <= k -> k + len pids <= int_max ->
  calls (killEach pids k s) = map killCall (filter nonEmpty pids) /\
  result (killEach pids k s) = k + successes (events (killEach pids k s)).
Proof.
  revert k s. induction pids as [|p rest IH]; intros k s Hk Hb.
  - split; [reflexivity|]. cbn. unfold successes. cbn. lia.
  - cbn [killEach filter]. rewrite len_cons in Hb.
    pose proof (len_nonneg rest) as Hr. unfold nonEmpty at 1.
    destruct (negb (is_empty p)).
    + rewrite bind_calls, bind_result, bind_events.
      destruct (runCommandWithTimeout_triple shortCommandTimeout "kill"
                  ["-9"; p] s) as (r & w & e & _ & ->).
      cbn [result final events fst snd]. rewrite successes_app.
      unfold calls at 1. cbn [events snd map fst app].
      rewrite successes_cons. unfold processSucceeded at 1.
      cbn [fst snd command]. change (successes []) with 0.
      destruct (succeeded r).
      * destruct (IH (Go.add k 1) (mkSt w (cachedPassword s))) as [IH1 IH2].
        { rewrite add_one; lia. } { rewrite add_one; lia. }
        rewrite IH1, IH2, add_one by lia. split; [reflexivity|lia].
      * destruct (IH k (mkSt w (cachedPassword s))) as [IH1 IH2]; [lia|lia|].
        rewrite IH1, IH2. split; [reflexivity|lia].
    + destruct (IH k s) as [IH1 IH2]; [lia|lia|]. auto.
Qed.

Lemma killHeavyProcesses_shape (Fields : string -> list string) (s : St W) :
  exists listing s1,
    cachedPassword s1 = cachedPassword s /\
    ((succeeded listing = false /\
      exists e,
        killHeavyProcesses Fields s =
          (Some (Errorf ("failed to get heavy processes: " ++ Error e)%string),
           s1, [(listHeavyProcesses, listing)])) \/
     (succeeded listing = true /\
      let loop := killEach (Fields (TrimSpace (r_out listing))) 0 s1 in
      killHeavyProcesses Fields s =
        (if (result loop =? 0)%Z
         then Some (Errorf "no heavy processes found or killed") else None,
         final loop, (listHeavyProcesses, listing) :: events loop))).
Proof.
  unfold killHeavyProcesses, runShellWithTimeoutOutput.
  rewrite bind_assoc, bind_run, call_run.
  fold (shell shortCommandTimeout Combined heavyProcessesCmd).
  fold listHeavyProcesses.
  destruct (sys listHeavyProcesses (world s)) as [r w].
  cbn [result final events fst snd].
  exists r, (mkSt w (cachedPassword s)). split; [reflexivity|].
  unfold succeeded.
  destruct (r_deadline r) eqn:D; cbn [negb andb].
  - left. split; [reflexivity|].
    rewrite bind_run. cbn [ret result final events fst snd app].
    eexists; reflexivity.
  - rewrite bind_run. cbn [ret result final events fst snd app].
    unfold err_of. destruct (r_err r) as [e|]; cbn [option_map].
    + left. split; [reflexivity|]. eexists; reflexivity.
    + right. split; [reflexivity|]. cbv zeta.
      rewrite bind_run.
      destruct (result (killEach _ 0 _) =? 0)%Z;
        cbn [ret result final events fst snd app]; rewrite app_nil_r;
        reflexivity.
Qed.

(** X7.  Kill Heavy Processes lists the candidates with one shell pipeline.
    When the listing fails or times out nothing is killed.  Otherwise
    [kill -9] is sent to every non-empty field of the listing, in order,
    each under the short deadline, and the action succeeds exactly when
    at least one [kill] returned nil: an empty listing is reported as an
    error. *)
Theorem kill_heavy_processes_outcome (Fields : string -> list string)
    (s : St W) :
  let run := killHeavyProcesses Fields s in
  let listing := response 0 (events run) in
  let pids := Fields (TrimSpace (r_out listing)) in
  len pids <= int_max ->
  (succeeded listing = false ->
     calls run = [listHeavyProcesses] /\
     exists e, result run =
       Some (Errorf ("failed to get heavy processes: " ++ Error e)%string)) /\
  (succeeded listing = true ->
     calls run = listHeavyProcesses :: map killCall (filter nonEmpty pids) /\
     (result run = None <-> existsb processSucceeded (tl (events run)) = true) /\
     (result run <> None ->
        result run = Some (Errorf "no heavy processes found or killed"))).
Proof.
  intros run listing pids. subst pids listing run.
  destruct (killHeavyProcesses_shape Fields s)
    as (r & s1 & _ & [(Hs & e & ->) | (Hs & ->)]);
    unfold calls, response;
    cbn [result final events fst snd map nth tl]; rewrite Hs.
  - intros _. split; [|discriminate]. intros _.
    split; [reflexivity|]. eexists; reflexivity.
  - intros Hb. split; [discriminate|]. intros _.
    destruct (killEach_run (Fields (TrimSpace (r_out r))) 0 s1)
      as [Hc Hres]; [lia|lia|].
    unfold calls in Hc. rewrite Hc, Hres, <- successes_pos.
    pose proof (successes_nonneg
                  (events (killEach (Fields (TrimSpace (r_out r))) 0 s1))).
    split; [reflexivity|].
    destruct (Z.eqb_spec (0 + successes
                (events (killEach (Fields (TrimSpace (r_out r))) 0 s1))) 0).
    + repeat split; try discriminate; try lia.
    + repeat split; try congruence; try lia.
Qed.

Lemma chmodExisting_run (dirs : list string) (k : Z) (s : St W) :
  0 <= k -> k + len dirs <= int_max ->
  result (chmodExisting dirs k s) =
    k + successes (events (chmodExisting dirs k s)) /\
  result (chmodExisting dirs k s) <= k + len dirs.
Proof.
  revert k s. induction dirs as [|d rest IH]; intros k s Hk Hb.
  - cbn. unfold successes. cbn. lia.
  - cbn [chmodExisting]. rewrite len_cons in *.
    pose proof (len_nonneg rest) as Hr.
    rewrite bind_result, bind_events, call_run.
    cbn [result final events fst snd]. rewrite successes_app.
    rewrite successes_cons. unfold processSucceeded at 1. cbn [fst snd].
    change (successes []) with 0.
    destruct (err_of (fst (sys (Stat d) (world s)))).
    + destruct (IH k (mkSt (snd (sys (Stat d) (world s))) (cachedPassword s)))
        as [IH1 IH2]; [lia|lia|]. rewrite IH1 in *. lia.
    + rewrite bind_result, bind_events.
      destruct (runShellWithTimeout_triple shortCommandTimeout
                  ("chmod 755 " ++ d)
                  (mkSt (snd (sys (Stat d) (world s))) (cachedPassword s)))
        as (r & w & e & _ & ->).
      cbn [result final events fst snd]. rewrite successes_app.
      rewrite successes_cons. unfold processSucceeded at 1.
      cbn [fst snd shell]. change (successes []) with 0.
      set (s' := mkSt w _).
      destruct (succeeded r).
      * destruct (IH (Go.add k 1) s') as [IH1 IH2];
          [rewrite add_one; lia|rewrite add_one; lia|].
        rewrite add_one in * by lia. rewrite IH1 in *. lia.
      * destruct (IH k s') as [IH1 IH2]; [lia|lia|]. rewrite IH1 in *. lia.
Qed.

Lemma fixPermissions_shape (s : St W) :
  exists home r1 s1 r2 s2,
    let dirs := [filepath_Join (r_out home) "Desktop";
                 filepath_Join (r_out home) "Documents";
                 filepath_Join (r_out home) "Downloads"] in
    let k1 := if succeeded r1 then Go.add 0 1 else 0 in
    let loop := chmodExisting dirs k1 s1 in
    let k2 := if succeeded r2 then Go.add (result loop) 1 else result loop in
    fixPermissions s =
      (if (k2 =? 0)%Z then Some (Errorf "permission repair failed") else None,
       s2,
       [(UserHomeDir, home);
        (shell shortCommandTimeout NoCapture ("chmod 755 " ++ r_out home), r1)]
       ++ events loop ++
       [(command defaultCommandTimeout "diskutil" ["verifyVolume"; "/"], r2)]).
Proof.
  unfold fixPermissions, userHomeDir.
  rewrite bind_assoc, bind_run, call_run.
  cbn [result final events fst snd].
  destruct (sys UserHomeDir (world s)) as [home w0].
  cbn [fst snd]. rewrite bind_run. cbn [ret result final events fst snd app].
  rewrite bind_run.
  destruct (runShellWithTimeout_triple shortCommandTimeout
              ("chmod 755 " ++ r_out home) (mkSt w0 (cachedPassword s)))
    as (r1 & w1 & e1 & _ & ->).
  cbn [result final events fst snd cachedPassword].
  exists home, r1, (mkSt w1 (cachedPassword s)).
  replace (match (if succeeded r1 then None else Some e1) with
           | Some _ => 0 | None => Go.add 0 1 end)
    with (if succeeded r1 then Go.add 0 1 else 0)
    by (destruct (succeeded r1); reflexivity).
  set (loop := chmodExisting _ _ (mkSt w1 (cachedPassword s))).
  pose proof (runCommandWithTimeout_triple defaultCommandTimeout "diskutil"
                ["verifyVolume"; "/"] (final loop)) as (r2 & w2 & e2 & _ & H2).
  exists r2, (mkSt w2 (cachedPassword (final loop))). cbv zeta. fold loop.
  rewrite bind_run. fold loop. rewrite bind_run, H2.
  cbn [result final events fst snd].
  replace (match (if succeeded r2 then None else Some e2) with
           | Some _ => result loop | None => Go.add (result loop) 1 end)
    with (if succeeded r2 then Go.add (result loop) 1 else result loop)
    by (destruct (succeeded r2); reflexivity).
  destruct (_ =? 0)%Z; cbn [ret result final events fst snd app];
    rewrite ?app_nil_r; reflexivity.
Qed.

(** X8.  Fix Permissions succeeds exactly when at least one of the processes
    it started ([chmod 755] on the home directory and on those of Desktop,
    Documents and Downloads that exist, then [diskutil verifyVolume /])
    returned nil; it fails with "permission repair failed" only when every
    one of them failed or timed out. *)
Theorem fix_permissions_needs_one_success (s : St W) :
  let run := fixPermissions s in
  (result run = None <-> existsb processSucceeded (events run) = true) /\
  (result run <> None ->
     result run = Some (Errorf "permission repair failed")).
Proof.
  intros run. subst run. rewrite <- successes_pos.
  destruct (fixPermissions_shape s) as (home & r1 & s1 & r2 & s2 & H).
  cbv zeta in H. rewrite H. clear H.
  cbn [result final events fst snd].
  set (k1 := if succeeded r1 then Go.add 0 1 else 0).
  assert (Hk1 : k1 = if succeeded r1 then 1 else 0)
    by (subst k1; destruct (succeeded r1); reflexivity).
  set (dirs := [filepath_Join (r_out home) "Desktop";
                filepath_Join (r_out home) "Documents";
                filepath_Join (r_out home) "Downloads"]).
  assert (Hloop : result (chmodExisting dirs k1 s1) =
                    k1 + successes (events (chmodExisting dirs k1 s1)) /\
                  result (chmodExisting dirs k1 s1) <= k1 + len dirs).
  { apply chmodExisting_run; rewrite Hk1; destruct (succeeded r1);
      unfold int_max; cbn; lia. }
  destruct Hloop as [Hloop Hle]. change (len dirs) with 3 in Hle.
  set (loop := chmodExisting dirs k1 s1) in *.
  pose proof (successes_nonneg (events loop)) as Hn.
  rewrite !successes_app, !successes_cons.
  unfold processSucceeded at 1 2 3. cbn [fst snd shell command].
  change (successes []) with 0.
  destruct (succeeded r2).
  - assert (Hpos : 0 <= result loop <= 4)
      by (rewrite Hk1 in Hle; rewrite Hloop, Hk1 in *;
          destruct (succeeded r1); lia).
    rewrite add_one by (unfold int_max; lia).
    destruct (Z.eqb_spec (result loop + 1) 0); [lia|].
    repeat split; try congruence. intros _. destruct (succeeded r1); lia.
  - destruct (Z.eqb_spec (result loop) 0) as [E|E].
    + split; [split; [discriminate|]|reflexivity].
      rewrite Hloop, Hk1 in E. destruct (succeeded r1); lia.
    + split; [split; [|reflexivity]|congruence].
      intros _. rewrite Hloop, Hk1 in E. destruct (succeeded r1); lia.
Qed.

Lemma poweredOn_isPowerCommand (e : Event) :
  poweredOn e = true -> isPowerCommand (fst e) = true.
Proof.
  unfold poweredOn. destruct (fst e) as [argv ? ? ?| | | | |]; try discriminate.
  destruct argv as [|n [|f [|t [|st [|]]]]]; try discriminate.
  intros H. apply andb_true_iff in H. destruct H as [H _].
  apply andb_true_iff in H. destruct H as [H _].
  apply andb_true_iff in H. destruct H as [H1 H2].
  apply String.eqb_eq in H1, H2. subst. reflexivity.
Qed.

Lemma quiet_not_poweredOn (evs : list Event) :
  Forall (fun e : Event => noPowerCommand (fst e) = true) evs ->
  existsb poweredOn evs = false.
Proof.
  induction 1 as [|e evs He _ IH]; [reflexivity|].
  cbn [existsb]. rewrite IH. rewrite orb_false_r.
  destruct (poweredOn e) eqn:P; [|reflexivity].
  apply poweredOn_isPowerCommand in P. unfold noPowerCommand in He.
  rewrite P in He. discriminate.
Qed.

(** The service loop of [resetNetwork] raises the counter exactly when
    one of its power-on commands returned nil. *)
Lemma resetWiFiServices_run (services : list string) (k : Z) (s : St W) :
  0 <= k <= 1 ->
  let run := resetWiFiServices services k s in
  k <= result run <= k + 2 /\
  (result run = k <-> existsb poweredOn (events run) = false).
Proof.
  intros Hk. revert s. induction services as [|sv rest IH]; intros s run;
    subst run.
  - cbn. split; [lia|]. split; auto.
  - cbn [resetWiFiServices]. rewrite bind_run.
    destruct (runCommandWithTimeout_triple shortCommandTimeout "networksetup"
                ["-setairportpower"; sv; "off"] s) as (off & w1 & e1 & _ & ->).
    cbn [result final events fst snd].
    destruct (succeeded off).
    + rewrite bind_run, call_run. cbn [result final events fst snd world
                                        cachedPassword].
      set (s2 := mkSt _ _). rewrite bind_run.
      destruct (runCommandWithTimeout_triple shortCommandTimeout "networksetup"
                  ["-setairportpower"; sv; "on"] s2) as (on & w3 & e3 & _ & ->).
      cbn [result final events fst snd].
      destruct (succeeded on) eqn:Son.
      * rewrite bind_run.
        destruct (runCommandWithTimeout_triple defaultCommandTimeout
                    "networksetup" ["-setdhcp"; sv] (mkSt w3 (cachedPassword s2)))
          as (dhcp & w4 & e4 & _ & ->).
        cbn [result final events fst snd app existsb].
        unfold poweredOn at 3. cbn [fst snd command]. rewrite Son.
        cbn [String.eqb Ascii.eqb Bool.eqb andb orb].
        rewrite !add_one by (unfold int_max; lia).
        destruct (succeeded dhcp); cbn [ret result fst];
          rewrite ?add_one by (unfold int_max; lia);
          (split; [lia|]); split; intros H; try lia; rewrite orb_true_r in H;
          discriminate.
      * cbn [app existsb]. unfold poweredOn at 1 2 3.
        cbn [fst snd command]. rewrite Son.
        cbn [String.eqb Ascii.eqb Bool.eqb andb orb].
        apply IH.
    + cbn [app existsb]. unfold poweredOn at 1. cbn [fst snd command].
      cbn [String.eqb Ascii.eqb Bool.eqb andb orb].
      apply IH.
Qed.

(** X9.  Reset Network flushes the DNS cache first and then works on the
    WiFi power.  It succeeds exactly when the DNS flush returned nil or
    one of its WiFi power-on commands did: a renewed DHCP lease alone
    cannot make it succeed, since the lease is only renewed after a
    power-on that worked.  The only error it returns is "network reset
    failed". *)
Theorem reset_network_needs_one_success (s : St W) :
  let run := resetNetwork s in
  exists rest,
    events run = events (flushDNS s) ++ rest /\
    (result run = None <->
     result (flushDNS s) = None \/ existsb poweredOn rest = true) /\
    (result run <> None ->
       result run =
         Some (Errorf
           "network reset failed - try checking Network settings manually")).
Proof.
  intros run. subst run. unfold resetNetwork.
  rewrite bind_run. set (dns := flushDNS s).
  cbn [result final events fst snd].
  set (k0 := match result dns with Some _ => 0 | None => Go.add 0 1 end).
  assert (Hk0 : 0 <= k0 <= 1 /\ (k0 = 0 <-> result dns <> None)).
  { subst k0. destruct (result dns); cbn; split; try lia;
      split; congruence. }
  destruct Hk0 as [Hk0 Hdns].
  rewrite bind_run.
  destruct (resetWiFiServices_run ["Wi-Fi"; "WiFi"] k0 (final dns) Hk0)
    as [Hb1 Hp1].
  set (loop := resetWiFiServices ["Wi-Fi"; "WiFi"] k0 (final dns)) in *.
  clearbody loop. cbn [result final events fst snd].
  assert (F : result loop = 0 <->
              result dns <> None /\ existsb poweredOn (events loop) = false).
  { split.
    - intros E. assert (k0 = 0) by lia. split; [apply Hdns; assumption|].
      apply Hp1. lia.
    - intros [H1 H2]. apply Hdns in H1. apply Hp1 in H2. lia. }
  assert (G : result dns = None \/ existsb poweredOn (events loop) = true <->
              result loop <> 0).
  { rewrite F. destruct (result dns), (existsb poweredOn (events loop));
      split; intros H; try (now left); try (now right);
      try (intros [H1 H2]; congruence).
    - destruct H; discriminate.
    - exfalso. apply H. split; [discriminate|reflexivity]. }
  clear Hp1 Hdns F. clearbody dns k0.
  rewrite bind_run.
  destruct (Z.ltb_spec (result loop) 2) as [Hlt|Hge].
  - rewrite bind_run.
    pose proof (getActiveNetworkInterface_quiet (final loop)) as Hq.
    apply quiet_not_poweredOn in Hq.
    set (lookup := getActiveNetworkInterface (final loop)) in *.
    clearbody lookup. rewrite bind_run.
    destruct (runCommandWithTimeout_triple shortCommandTimeout "networksetup"
                ["-setairportpower"; result lookup; "off"] (final lookup))
      as (off & w1 & e1 & _ & ->).
    cbn [result final events fst snd].
    destruct (succeeded off).
    + rewrite bind_run, call_run.
      cbn [result final events fst snd world cachedPassword].
      set (s2 := mkSt _ _). rewrite bind_run.
      destruct (runCommandWithTimeout_triple shortCommandTimeout "networksetup"
                  ["-setairportpower"; result lookup; "on"] s2)
        as (on & w3 & e3 & _ & ->).
      cbn [result final events fst snd].
      eexists. split; [reflexivity|].
      rewrite !existsb_app, Hq. cbn [existsb app].
      unfold poweredOn at 2 3 4. cbn [fst snd command].
      cbn [String.eqb Ascii.eqb Bool.eqb andb orb].
      destruct (succeeded on); cbn [ret result final events fst snd app
                                     existsb orb];
        rewrite ?orb_false_r, ?orb_true_r;
        rewrite ?add_one by (unfold int_max; lia).
      * destruct (Z.eqb_spec (result loop + 1) 0); [lia|].
        unfold ret; cbn [result fst]. repeat split; auto; try congruence.
      * destruct (Z.eqb_spec (result loop) 0) as [E|E]; unfold ret;
          cbn [result events fst snd existsb];
          rewrite ?orb_false_r, ?G; repeat split; congruence.
    + eexists. split; [reflexivity|].
      rewrite !existsb_app, Hq. cbn [existsb app ret result final events
                                     fst snd].
      unfold poweredOn at 2. cbn [fst snd command].
      cbn [String.eqb Ascii.eqb Bool.eqb andb orb].
      destruct (Z.eqb_spec (result loop) 0) as [E|E]; unfold ret;
        cbn [result events fst snd existsb];
        rewrite ?orb_false_r, ?G; repeat split; congruence.
  - cbn [ret result final events fst snd app].
    eexists. split; [reflexivity|].
    destruct (Z.eqb_spec (result loop) 0) as [E|E]; [lia|]. unfold ret.
    cbn [result events fst snd existsb].
    rewrite ?app_nil_r, ?G. repeat split; congruence.
Qed.

Lemma removeTrashContents_shape (path : string) (s : St W) :
  exists unlock rm,
    (succeeded rm = true /\
     events (removeTrashContents path s) =
       combine (directRemoval path) [unlock; rm] /\
     result (removeTrashContents path s) = true) \/
    (succeeded rm = false /\
     exists funlock del,
       (succeeded del = true /\
        events (removeTrashContents path s) =
          combine (directRemoval path ++ findRemoval path)
                  [unlock; rm; funlock; del] /\
        result (removeTrashContents path s) = true) \/
       (succeeded del = false /\
        exists s',
          cachedPassword s' = cachedPassword s /\
          events (removeTrashContents path s) =
            combine (directRemoval path ++ findRemoval path)
                    [unlock; rm; funlock; del] ++
            events (executeSudoShell (sudoRemoveCmd path) s') /\
          result (removeTrashContents path s) =
            isNil (result (executeSudoShell (sudoRemoveCmd path) s')))).
Proof.
  unfold removeTrashContents. cbv zeta.
  fold (unlockCmd path) (removeCmd path) (findUnlockCmd path)
       (findDeleteCmd path) (sudoRemoveCmd path).
  rewrite bind_run.
  destruct (runShellWithTimeout_triple shortCommandTimeout (unlockCmd path) s)
    as (unlock & w1 & e1 & _ & ->).
  cbn [result final events fst snd]. set (s1 := mkSt w1 _).
  rewrite bind_run.
  destruct (runShellWithTimeout_triple defaultCommandTimeout (removeCmd path) s1)
    as (rm & w2 & e2 & _ & ->).
  cbn [result final events fst snd]. set (s2 := mkSt w2 _).
  exists unlock, rm.
  destruct (succeeded rm).
  - left. split; [reflexivity|].
    rewrite bind_run. cbn [negb ret result final events fst snd app].
    split; reflexivity.
  - right. split; [reflexivity|].
    rewrite bind_run. cbn [negb]. rewrite bind_run.
    destruct (runShellWithTimeout_triple defaultCommandTimeout
                (findUnlockCmd path) s2) as (funlock & w3 & e3 & _ & ->).
    cbn [result final events fst snd]. set (s3 := mkSt w3 _).
    rewrite bind_run.
    destruct (runShellWithTimeout_triple defaultCommandTimeout
                (findDeleteCmd path) s3) as (del & w4 & e4 & _ & ->).
    cbn [result final events fst snd ret]. set (s4 := mkSt w4 _).
    exists funlock, del.
    destruct (succeeded del).
    + left. split; [reflexivity|]. cbn [negb ret result final events fst snd
                                        app combine directRemoval findRemoval].
      split; reflexivity.
    + right. split; [reflexivity|]. exists s4. split; [reflexivity|].
      cbn [negb]. rewrite bind_run.
      cbn [ret result final events fst snd app combine directRemoval
           findRemoval].
      rewrite app_nil_r.
      destruct (result (executeSudoShell (sudoRemoveCmd path) s4));
        split; reflexivity.
Qed.

(** X10.  The removal methods of Empty Trash escalate in a fixed order.  [rm]
    under the 30 second deadline always runs (after clearing the file
    flags).  [find -delete] runs only when [rm] failed or timed out, and
    the privileged removal, which can bring up the password dialog, only
    when [find -delete] failed as well: a run in which [rm] or
    [find -delete] returned nil starts no [sudo] and shows no dialog. *)
Theorem trash_removal_escalates_in_order (path : string) (s : St W) :
  let run := removeTrashContents path s in
  let rm := response 1 (events run) in
  let del := response 3 (events run) in
  firstn 2 (calls run) = directRemoval path /\
  (succeeded rm = true -> calls run = directRemoval path /\ result run = true) /\
  (succeeded rm = false ->
     firstn 4 (calls run) = directRemoval path ++ findRemoval path /\
     (succeeded del = true ->
        calls run = directRemoval path ++ findRemoval path /\
        result run = true) /\
     (succeeded del = false ->
        exists s',
          cachedPassword s' = cachedPassword s /\
          events run = firstn 4 (events run) ++
                       events (executeSudoShell (sudoRemoveCmd path) s') /\
          result run =
            isNil (result (executeSudoShell (sudoRemoveCmd path) s')))).
Proof.
  intros run rm del. subst rm del run.
  destruct (removeTrashContents_shape path s)
    as (unlock & rm &
        [(Hrm & Hev & Hres) |
         (Hrm & funlock & del &
          [(Hdel & Hev & Hres) | (Hdel & s' & Hc & Hev & Hres)])]);
    unfold calls, response; rewrite Hev, Hres;
    cbn [combine directRemoval findRemoval app map fst snd nth firstn];
    rewrite Hrm; try rewrite Hdel.
  - repeat split; try discriminate; auto.
  - repeat split; try discriminate; auto.
  - split; [reflexivity|]. split; [discriminate|]. intros _.
    split; [reflexivity|]. split; [discriminate|]. intros _.
    exists s'. repeat split; auto.
Qed.



End Steps.

Section StepsRuns.
#[local] Existing Instance Reference.ascii_lib.
#[local] Existing Instance Reference.scripted.

(** Two heavy processes, of which the second cannot be killed. *)
Lemma kill_heavy_processes_outcome_witness :
  let s := Reference.start
             [Reference.says ("101" ++ nl ++ "202" ++ nl)%string;
              Reference.ok; Reference.fails 1 EmptyString] EmptyString in
  let run := quickactions.killHeavyProcesses Reference.fields s in
  calls run = [Traces.listHeavyProcesses; Traces.killCall "101";
               Traces.killCall "202"] /\
  result run = None.
Proof.
  intros s run.
  assert (Hb : quickactions.len
                 (Reference.fields
                    (TrimSpace (r_out (Observe.response 0 (events run)))))
               <= int_max) by (vm_compute; discriminate).
  assert (Hs : Observe.succeeded (Observe.response 0 (events run)) = true)
    by reflexivity.
  destruct (proj2 (kill_heavy_processes_outcome Reference.fields s Hb) Hs)
    as (Hc & Hr & _).
  split; [etransitivity; [exact Hc|reflexivity]|apply Hr; reflexivity].
Defined.

(** Reset Network with the DNS flush refused and the WiFi service
    cycled: the power-on that worked makes it a success. *)
Example reset_network_by_power_cycle :
  let refused := Reference.fails 1 "operation not permitted" in
  let s := Reference.start
             [refused; refused; refused; refused;
              Reference.ok; Reference.ok; Reference.ok; refused;
              Reference.says "en0"; Reference.ok; Reference.ok; Reference.ok]
             EmptyString in
  let run := quickactions.resetNetwork s in
  result (quickactions.flushDNS s) <> None /\ result run = None /\
  List.length (filter Observe.isPowerCommand (calls run)) = 4%nat.
Proof. split; [discriminate|split; reflexivity]. Qed.

End StepsRuns.

Section SessionStates.
Import quickactions Observe Traces.

Lemma rem_10_bound (f : Z) : 0 <= f < 10 -> 0 <= Go.rem (Go.add f 1) 10 < 10.
Proof.
  intros H. unfold Go.rem, Go.add, wrap.
  rewrite Z.mod_small by lia.
  replace (f + 1 + 2 ^ 63 - 2 ^ 63) with (f + 1) by lia.
  pose proof (Z.rem_bound_pos (f + 1) 10 ltac:(lia) ltac:(lia)). lia.
Qed.

Lemma steady_New : steady New.
Proof. unfold steady. cbn. repeat split; lia. Qed.

Lemma steady_index (m : Model) :
  steady m -> exists a, index (actions m) (actionIndex m) = Some a.
Proof.
  intros (Ha & _ & _ & _ & Hi & _). rewrite Ha. unfold index.
  destruct (Z.ltb_spec (actionIndex m) 0); [lia|].
  destruct (nth_error catalog (Z.to_nat (actionIndex m))) eqn:E; [eauto|].
  apply nth_error_None in E. change (len catalog) with 17 in Hi.
  change (List.length catalog) with 17%nat in E. lia.
Qed.

Lemma steady_clampSelection (m : Model) :
  steady m -> clampSelection m = Some m.
Proof.
  intros (Ha & Hg & Hc & Hci & Hi & Hf).
  unfold clampSelection, visibleActions. rewrite Hc, Hci, Hg.
  cbn [New initActions]. 
  change (len catalog) with 17 in Hi.
  cbn.
  destruct (Z.ltb_spec (actionIndex m) 0); [lia|].
  destruct (Z.leb_spec 17 (actionIndex m)); [lia|]. reflexivity.
Qed.

Lemma steady_Update (m : Model) (msg : Msg) :
  steady m -> exists m' c, Update m msg = Some (m', c) /\ steady m'.
Proof.
  intros Hs. pose proof Hs as (Ha & Hg & Hc & Hci & Hi & Hf).
  change (len catalog) with 17 in Hi.
  destruct msg as [w h| | | |key|c|]; cbn [Update].
  - eexists _, _. split; [reflexivity|]. unfold steady; cbn; auto 10.
  - rewrite steady_clampSelection.
    + eexists _, _. split; [reflexivity|].
      unfold steady; cbn; repeat split; auto; lia.
    + unfold steady; cbn; repeat split; auto; lia.
  - eexists _, _. split; [reflexivity|]. unfold steady; cbn; auto 10.
  - destruct (running m).
    + eexists _, _. split; [reflexivity|].
      pose proof (rem_10_bound _ Hf).
      unfold steady; cbn; repeat split; auto; lia.
    + eexists _, _. split; [reflexivity|]. exact Hs.
  - destruct (running m); [eexists _, _; split; [reflexivity|exact Hs]|].
    rewrite Ha. change (len catalog) with 17.
    change (Go.sub 17 1) with 16.
    destruct (key_is key ["up"; "k"]).
    { destruct (Z.ltb_spec 0 (actionIndex m)).
      - eexists _, _. split; [reflexivity|].
        assert (Go.sub (actionIndex m) 1 = actionIndex m - 1).
        { unfold Go.sub, wrap. rewrite Z.mod_small by lia. lia. }
        unfold steady; cbn; repeat split; auto; lia.
      - eexists _, _. split; [reflexivity|exact Hs]. }
    destruct (key_is key ["down"; "j"]).
    { destruct (Z.ltb_spec (actionIndex m) 16).
      - eexists _, _. split; [reflexivity|].
        assert (Go.add (actionIndex m) 1 = actionIndex m + 1).
        { unfold Go.add, wrap. rewrite Z.mod_small by lia. lia. }
        unfold steady; cbn; repeat split; auto; lia.
      - eexists _, _. split; [reflexivity|exact Hs]. }
    destruct (key_is key ["enter"; " "]).
    { destruct (Z.ltb_spec (actionIndex m) 17); [|lia].
      destruct (steady_index m Hs) as [a Hidx]. rewrite Ha in Hidx.
      rewrite Hidx. eexists _, _. split; [reflexivity|].
      unfold steady; cbn; repeat split; auto; lia. }
    destruct (key_is key ["f"]).
    { eexists _, _. split; [reflexivity|].
      unfold steady; cbn; repeat split; auto; lia. }
    destruct (key_is key ["g"]).
    { eexists _, _. split; [reflexivity|].
      unfold steady; cbn; repeat split; auto; lia. }
    destruct (key_is key ["G"]).
    { eexists _, _. split; [reflexivity|].
      unfold steady; cbn; repeat split; auto; lia. }
    eexists _, _. split; [reflexivity|exact Hs].
  - eexists _, _. split; [reflexivity|].
    unfold steady; cbn; repeat split; auto; lia.
  - eexists _, _. split; [reflexivity|exact Hs].
Qed.

Lemma reachable_steady (m : Model) : reachable m -> steady m.
Proof.
  induction 1 as [|m msg m' c _ IH Hu]; [apply steady_New|].
  destruct (steady_Update m msg IH) as (m'' & c'' & Hu' & Hs).
  rewrite Hu in Hu'. injection Hu' as <- <-. exact Hs.
Qed.

(** X11.  In every state the module can reach from [New], whatever the
    messages: [Update] does not panic, for any further message; the
    catalog is the one [initActions] built; the cursor points at one of
    its 17 actions, so Enter always finds an action to run; and the
    spinner frame is one of the ten frames. *)
Theorem session_never_panics (m : Model) :
  reachable m ->
  (forall msg, Update m msg <> None) /\
  actions m = catalog /\
  0 <= actionIndex m < 17 /\
  (exists a, index (actions m) (actionIndex m) = Some a) /\
  0 <= spinnerFrame m < 10.
Proof.
  intros Hr. pose proof (reachable_steady m Hr) as Hs.
  pose proof Hs as (Ha & _ & _ & _ & Hi & Hf).
  split; [|split; [exact Ha|split; [exact Hi|split; [|exact Hf]]]].
  - intros msg. destruct (steady_Update m msg Hs) as (m' & c & -> & _).
    discriminate.
  - apply steady_index, Hs.
Qed.

(** The state after G (last action) and Enter. *)
Lemma session_never_panics_witness :
  exists m c,
    deliver New [KeyMsg "G"; KeyMsg "enter"] = Some (m, c) /\
    running m = true /\ runningAction m = "Purge Memory" /\
    forall msg, Update m msg <> None.
Proof.
  eexists _, _. split; [reflexivity|]. split; [reflexivity|].
  split; [reflexivity|].
  refine (proj1 (session_never_panics _ _)).
  eapply (reachable_Update _ (KeyMsg "enter"));
    [eapply (reachable_Update New (KeyMsg "G"));
       [apply reachable_New|reflexivity]
    |reflexivity].
Defined.

Lemma find_filter_other (g : Groups) (k k' : string) :
  k <> k' ->
  find (fun kv => String.eqb (fst kv) k')
       (filter (fun kv => negb (String.eqb (fst kv) k)) g) =
  find (fun kv => String.eqb (fst kv) k') g.
Proof.
  intros Hne. induction g as [|[key v] g IH]; [reflexivity|].
  cbn [filter find fst].
  destruct (String.eqb_spec key k) as [->|Hk]; cbn [negb].
  - destruct (String.eqb_spec k k'); [contradiction|exact IH].
  - cbn [find fst]. destruct (String.eqb key k'); [reflexivity|exact IH].
Qed.

Lemma groups_get_set_same (g : Groups) (k : string) (v : list Action) :
  groups_get (groups_set g k v) k = v.
Proof. unfold groups_get, groups_set. cbn. now rewrite String.eqb_refl. Qed.

Lemma groups_get_set_other (g : Groups) (k k' : string) (v : list Action) :
  k <> k' -> groups_get (groups_set g k v) k' = groups_get g k'.
Proof.
  intros Hne. unfold groups_get, groups_set. cbn [find fst].
  destruct (String.eqb_spec k k'); [contradiction|].
  now rewrite find_filter_other.
Qed.

(** The loop of [rebuildGroups] over the actions appends each action to
    the group of its category. *)
Lemma group_actions (acts : list Action) (g : Groups) (c : string) :
  groups_get
    (fold_left (fun g action =>
                  groups_set g (Category action)
                             (groups_get g (Category action) ++ [action]))
               acts g) c =
  groups_get g c ++ inCategory c acts.
Proof.
  revert g. induction acts as [|a rest IH]; intros g.
  - cbn. now rewrite app_nil_r.
  - cbn [fold_left inCategory filter]. rewrite IH.
    destruct (String.eqb_spec (Category a) c) as [<-|Hne].
    + rewrite groups_get_set_same, <- app_assoc. reflexivity.
    + rewrite groups_get_set_other by exact Hne. reflexivity.
Qed.

(** X12.  [rebuildGroups] touches only the groups, and after it the group of
    every category holds exactly the actions of that category, in catalog
    order; the group All holds every action (followed, should an action
    carry the category All, by those once more).  On the catalog of
    [initActions] the groups of Performance, Network, System and Cleanup,
    one after the other, are the catalog itself. *)
Theorem rebuild_groups_partitions (m : Model) (c : string) :
  groups_get (grouped (rebuildGroups m)) c =
    (if String.eqb c "All" then actions m else []) ++ inCategory c (actions m) /\
  actions (rebuildGroups m) = actions m /\
  categories (rebuildGroups m) = categories m /\
  actionIndex (rebuildGroups m) = actionIndex m /\
  groups_get (grouped New) "All" = catalog /\
  inCategory "Performance" catalog ++ inCategory "Network" catalog ++
  inCategory "System" catalog ++ inCategory "Cleanup" catalog = catalog.
Proof.
  split; [|repeat split].
  unfold rebuildGroups. cbn [grouped with_catalog]. rewrite group_actions.
  f_equal. cbn [fold_left].
  repeat match goal with
  | |- groups_get (groups_set _ ?k _) c = _ =>
      destruct (String.eqb_spec k c) as [<-|?];
        [rewrite groups_get_set_same; reflexivity
        |rewrite groups_get_set_other by assumption]
  end.
  destruct (String.eqb_spec c "All"); [congruence|reflexivity].
Qed.

(** X13.  [shiftCategory] moves the category cursor by [delta] around the ring
    of categories and puts the action cursor back on the first action:
    for a cursor in range and a step of at most one full turn the new
    cursor is [(index + delta) mod total], again in range, and a step
    forward followed by a step back returns to the category it started
    from. *)
Theorem shift_category_wraps (m : Model) (delta : Z) :
  let total := len (categories m) in
  0 <= categoryIndex m < total -> - total <= delta <= total ->
  total <= 2 ^ 61 ->
  categoryIndex (shiftCategory m delta) = (categoryIndex m + delta) mod total /\
  0 <= categoryIndex (shiftCategory m delta) < total /\
  actionIndex (shiftCategory m delta) = 0 /\
  categories (shiftCategory m delta) = categories m /\
  categoryIndex (shiftCategory (shiftCategory m 1) (-1)) = categoryIndex m.
Proof.
  intros total Hi Hd Ht.
  assert (Hshift : forall m' d,
            len (categories m') = total -> 0 <= categoryIndex m' < total ->
            - total <= d <= total ->
            categoryIndex (shiftCategory m' d) = (categoryIndex m' + d) mod total /\
            categories (shiftCategory m' d) = categories m' /\
            actionIndex (shiftCategory m' d) = 0).
  { intros m' d Hl Hi' Hd'. unfold shiftCategory. rewrite Hl.
    destruct (Z.eqb_spec total 0) as [E|E]; [lia|].
    cbn [categoryIndex with_actionIndex categories actionIndex].
    unfold Go.rem, Go.add, wrap.
    rewrite (Z.mod_small (categoryIndex m' + d + 2 ^ 63)) by lia.
    replace (categoryIndex m' + d + 2 ^ 63 - 2 ^ 63 + total + 2 ^ 63)
      with (categoryIndex m' + d + total + 2 ^ 63) by lia.
    rewrite (Z.mod_small (categoryIndex m' + d + total + 2 ^ 63)) by lia.
    replace (categoryIndex m' + d + total + 2 ^ 63 - 2 ^ 63)
      with (categoryIndex m' + d + total) by lia.
    rewrite Z.rem_mod_nonneg by lia.
    replace (categoryIndex m' + d + total)
      with (categoryIndex m' + d + 1 * total) by lia.
    rewrite Z.mod_add by lia. auto. }
  destruct (Hshift m delta eq_refl Hi Hd) as (H1 & H2 & H3).
  pose proof (Z.mod_pos_bound (categoryIndex m + delta) total ltac:(lia)) as Hb.
  split; [exact H1|]. split; [rewrite H1; exact Hb|].
  split; [exact H3|]. split; [exact H2|].
  destruct (Hshift m 1 eq_refl Hi ltac:(lia)) as (F1 & F2 & _).
  pose proof (Z.mod_pos_bound (categoryIndex m + 1) total ltac:(lia)) as Hb1.
  destruct (Hshift (shiftCategory m 1) (-1)) as (B1 & _ & _).
  { rewrite F2. reflexivity. } { rewrite F1. exact Hb1. } { lia. }
  rewrite B1, F1.
  destruct (Z.eq_dec (categoryIndex m + 1) total) as [E|E].
  - rewrite E, Z.mod_same by lia. cbn [Z.add].
    replace (-1) with (total - 1 + (-1) * total) by lia.
    rewrite Z.mod_add by lia. rewrite Z.mod_small by lia. lia.
  - rewrite (Z.mod_small (categoryIndex m + 1)) by lia.
    replace (categoryIndex m + 1 + -1) with (categoryIndex m) by lia.
    apply Z.mod_small. lia.
Qed.

(** From the last category of [New], a step forward lands on All. *)
Lemma shift_category_wraps_witness :
  let m := shiftCategory New (-1) in
  categoryIndex m = 4 /\ categoryIndex (shiftCategory m 1) = 0.
Proof.
  intros m. split; [reflexivity|].
  assert (H1 : 0 <= categoryIndex m < len (categories m))
    by (vm_compute; split; [discriminate|reflexivity]).
  assert (H2 : - len (categories m) <= 1 <= len (categories m))
    by (vm_compute; split; discriminate).
  assert (H3 : len (categories m) <= 2 ^ 61) by (vm_compute; discriminate).
  rewrite (proj1 (shift_category_wraps m 1 H1 H2 H3)). reflexivity.
Defined.

(** X14.  While an action runs the spinner advances with every tick and asks
    for the next one, and after ten ticks it shows the frame it started
    from; once nothing runs a tick changes nothing and asks for no further
    tick, so the chain of ticks ends with the action. *)
Theorem spinner_cycles_while_running (m : Model) :
  0 <= spinnerFrame m < 10 ->
  (running m = true ->
     deliver m (repeat spinnerTickMsg 10) = Some (m, repeat tickSpinner 10) /\
     exists m', Update m spinnerTickMsg = Some (m', tickSpinner) /\
                spinnerFrame m' = (spinnerFrame m + 1) mod 10) /\
  (running m = false -> Update m spinnerTickMsg = Some (m, CmdNil)).
Proof.
  intros Hf. split.
  - intros Hr. destruct m as [w h acts g cats ci ai r ra st ty f].
    cbn in Hf, Hr. subst r.
    assert (Hcases : f = 0 \/ f = 1 \/ f = 2 \/ f = 3 \/ f = 4 \/ f = 5 \/
                     f = 6 \/ f = 7 \/ f = 8 \/ f = 9) by lia.
    repeat (destruct Hcases as [->|Hcases]); try subst f;
      (split; [reflexivity|eexists; split; reflexivity]).
  - intros Hr. cbn [Update]. rewrite Hr. reflexivity.
Qed.

Lemma spinner_cycles_while_running_witness :
  let m := fst (executeAction New (mkAction "Fix WiFi" "Reset WiFi configuration"
                                     "Network" m_fixWiFi false)) in
  deliver m (repeat spinnerTickMsg 10) = Some (m, repeat tickSpinner 10).
Proof.
  intros m.
  assert (H : 0 <= spinnerFrame m < 10) by (vm_compute; split; [discriminate|reflexivity]).
  exact (proj1 (proj1 (spinner_cycles_while_running m H) eq_refl)).
Defined.

End SessionStates.

Section Completion.
Context {L : Lib} {W : Type} {O : OS W}.
Import quickactions Observe Traces.

(** X15.  What an action returns is what the status line shows.  The function
    that [executeAction] hands to the runtime makes no call of its own
    beyond those of the action, and when its message comes back [Update]
    stops the spinner, leaves the cursor where it is and reports success
    exactly when the action returned nil; after a failure the status text
    carries the action's name and the text of its error. *)
Theorem action_outcome_reaches_status (name : string)
    (command : M W (option error)) (s : St W) (m : Model) :
  let run := executeActionRun name command s in
  events run = events (command s) /\
  final run = final (command s) /\
  exists m',
    Update m (ActionComplete (result run)) = Some (m', CmdNil) /\
    running m' = false /\ runningAction m' = EmptyString /\
    spinnerFrame m' = 0 /\ actionIndex m' = actionIndex m /\
    (statusType m' = "success" <-> result (command s) = None) /\
    (statusType m' = "error" <-> result (command s) <> None) /\
    (forall e, result (command s) = Some e ->
       status m' = ("✗ " ++ name ++ " failed: " ++ Error e)%string) /\
    (result (command s) = None ->
       status m' = ("✓ " ++ name ++ " completed successfully")%string).
Proof.
  intros run. subst run. unfold executeActionRun. rewrite bind_run.
  destruct (result (command s)) as [e|];
    cbn [ret result final events fst snd]; rewrite app_nil_r;
    (split; [reflexivity|]); (split; [reflexivity|]);
    eexists; (split; [reflexivity|]); cbn;
    repeat split; try discriminate; try congruence; auto.
Qed.

(** X16.  A directory that is not there is an error of its own, reported
    before anything is counted or removed: Empty Trash returns "trash
    directory not found", and Clean Downloads "downloads directory not
    found", exactly when [os.Stat] reports that the directory does not
    exist, and then the run is the home-directory lookup and the
    [os.Stat] and nothing else. *)
Theorem missing_directory_is_reported (s : St W) :
  (let run := emptyTrashInternal s in
   (result run = Some (Errorf "trash directory not found") <->
    dirExists (events run) = false) /\
   (dirExists (events run) = false ->
    calls run = [UserHomeDir; Stat (trashPath (events run))])) /\
  (let run := cleanDownloads s in
   (result run = Some (Errorf "downloads directory not found") <->
    dirExists (events run) = false) /\
   (dirExists (events run) = false ->
    calls run = [UserHomeDir; Stat (downloadsPath (events run))])).
Proof.
  split.
  - intros run. subst run.
    destruct (emptyTrash_shape s)
      as (home & st & [(Hne & Hev & Hres) | (Hne & before & Hcases)]).
    + unfold dirExists, calls, trashPath, homeDir, response.
      rewrite Hev, Hres. cbn [map fst snd nth]. rewrite Hne.
      repeat split; auto.
    + destruct Hcases as [(Hz & Hev & Hres) | (Hnz & s0 & after & Hev & Hres)];
        unfold dirExists, calls, response; rewrite Hev, Hres;
        cbn [map fst snd nth app]; rewrite Hne; cbn [negb];
        (split; [split|]); try discriminate.
      unfold verdict, partial, failure.
      destruct (_ =? 0)%Z; [discriminate|].
      destruct (_ <? _)%Z; discriminate.
  - intros run. subst run.
    destruct (cleanDownloads_shape s)
      as (home & st & [(Hne & Hev & Hres) | (Hne & before & Hcases)]).
    + unfold dirExists, calls, downloadsPath, homeDir, response.
      rewrite Hev, Hres. cbn [map fst snd nth]. rewrite Hne.
      repeat split; auto.
    + destruct Hcases
        as [(Hz & Hev & Hres) |
            (Hnz & del & [(Hdel & Hev & e & Hres) |
                          (Hdel & after & Hev & Hres)])];
        unfold dirExists, calls, response; rewrite Hev, Hres;
        cbn [map fst snd nth app]; rewrite Hne; cbn [negb];
        (split; [split|]); try discriminate.
      destruct (_ && _)%bool; discriminate.
Qed.

End Completion.

Section CommandLine.
Context {L : Lib} {W : Type} {O : OS W}.
Import quickactions Observe devcockpit Traces.

Lemma arg1_subcommand (args : list string) :
  (if (1 <? len args)%Z then index args 1 else None) = subcommand args.
Proof.
  destruct args as [|a0 [|a1 rest]]; try reflexivity.
  assert (H : (1 <? len (a0 :: a1 :: rest))%Z = true).
  { apply Z.ltb_lt. rewrite !len_cons. pose proof (len_nonneg rest). lia. }
  rewrite H. reflexivity.
Qed.

Lemma key_is_In (a : string) (l : list string) :
  key_is a l = true -> In a l.
Proof.
  unfold key_is. intros H. apply existsb_exists in H.
  destruct H as (x & Hin & Heq). apply String.eqb_eq in Heq. now subst.
Qed.

Lemma key_is_app (a : string) (l1 l2 : list string) :
  key_is a (l1 ++ l2) = (key_is a l1 || key_is a l2)%bool.
Proof. unfold key_is. apply existsb_app. Qed.

(** X17.  Only [os.Args[1]] selects a subcommand.  When it is none of the
    subcommand words, which includes every command line that puts a flag
    such as [--debug] before the subcommand, both revisions of [main] set
    the program up and launch the interactive program, whatever else the
    command line holds; main.go does so for [uninstall] and [update] as
    well, which only the later revision knows. *)
Theorem only_first_argument_selects (version : string) (args : list string)
    (s : St W) :
  (isOneOf earlyCommands (subcommand args) = false ->
   main version args s = launch args s) /\
  (isOneOf laterCommands (subcommand args) = false ->
   main_cli_first version args s = launch args s).
Proof.
  split.
  - intros H. unfold main, launch. rewrite !bind_run.
    destruct (r_err (result (startup args s))); [reflexivity|].
    rewrite arg1_subcommand.
    destruct (subcommand args) as [a|]; [|reflexivity].
    cbn [isOneOf] in H. unfold earlyCommands in H.
    rewrite !key_is_app in H.
    repeat match goal with
    | |- context [if key_is a ?l then _ else _] =>
        destruct (key_is a l);
          [cbn [orb] in H; rewrite ?orb_true_r in H; discriminate|]
    end.
    reflexivity.
  - intros H. unfold main_cli_first, launch. rewrite arg1_subcommand.
    destruct (subcommand args) as [a|]; [|reflexivity].
    cbn [isOneOf] in H. unfold laterCommands, earlyCommands in H.
    rewrite !key_is_app in H.
    repeat match goal with
    | |- context [if key_is a ?l then _ else _] =>
        destruct (key_is a l);
          [cbn [orb] in H; rewrite ?orb_true_r in H; discriminate|]
    end.
    reflexivity.
Qed.

Lemma Only_EmptyTrash_notConfigLoad : Only notConfigLoad EmptyTrash.
Proof.
  assert (Hexec : forall argv stdin timeout capture,
            notConfigLoad (Exec argv stdin timeout capture) = true)
    by reflexivity.
  pose proof (Only_runShellWithTimeoutOutput notConfigLoad Hexec).
  pose proof (Only_removeTrashContents notConfigLoad Hexec).
  unfold EmptyTrash, emptyTrashInternal, userHomeDir. only_calls.
Qed.

(** X18.  For the subcommands [version], [cleanup] and [logs] the later
    revision of [main] does what main.go does once its start-up is
    through, but without the start-up: same calls, same exit status.  For
    [help] both revisions print one help text and exit with status 0, but
    not the same text: each has a [showHelp] of its own.  On none of the
    four does the later revision load the configuration.  main.go loads
    it first, and when that fails it exits with status 1 without looking
    at the command line, also for [version] and [help]. *)
Theorem later_main_skips_startup (version : string) (args : list string)
    (s : St W) :
  isOneOf earlyCommands (subcommand args) = true ->
  let pre := startup args s in
  let early := main version args s in
  let later := main_cli_first version args (final pre) in
  let help := isOneOf ["help"; "--help"; "-h"] (subcommand args) in
  (r_err (result pre) = None ->
     result early = result later /\
     (help = false ->
        final early = final later /\
        events early = events pre ++ events later) /\
     (help = true ->
        result early = 0 /\
        calls early = calls pre ++ [Print (helpText version)] /\
        calls later = [Print (helpText_cli_first version)] /\
        helpText version <> helpText_cli_first version)) /\
  (r_err (result pre) <> None ->
     result early = 1 /\ events early = events pre) /\
  Only notConfigLoad (main_cli_first version args).
Proof.
  intros H pre early later help. subst early later help.
  assert (Hlater : forall s0,
            main_cli_first version args s0 =
            match subcommand args with
            | Some a =>
                (if key_is a ["version"; "--version"; "-v"]
                 then call (Print ("Dev Cockpit v" ++ version ++ nl)%string) ;;
                      ret 0
                 else if key_is a ["cleanup"] then cleanup args
                 else if key_is a ["help"; "--help"; "-h"]
                 then showHelp_cli_first version ;; ret 0
                 else if key_is a ["logs"; "--logs"]
                 then path <- GetLogPath ;;
                      call (Print ("Log file location: " ++ path ++ nl)%string) ;;
                      ret 0
                 else runTUI) s0
            | None => runTUI s0
            end).
  { intros s0. unfold main_cli_first. rewrite arg1_subcommand.
    destruct (subcommand args) as [a|]; [|discriminate].
    cbn [isOneOf] in H. unfold earlyCommands in H. rewrite !key_is_app in H.
    destruct (key_is a ["version"; "--version"; "-v"]); [reflexivity|].
    destruct (key_is a ["cleanup"]); [reflexivity|].
    destruct (key_is a ["help"; "--help"; "-h"]); [reflexivity|].
    destruct (key_is a ["logs"; "--logs"]); [reflexivity|discriminate]. }
  assert (Hdiffer : helpText version <> helpText_cli_first version).
  { unfold helpText, helpText_cli_first, nl. cbn [append]. discriminate. }
  split; [|split].
  - intros Hcfg. rewrite Hlater. unfold main. rewrite bind_run. fold pre.
    rewrite Hcfg, arg1_subcommand.
    destruct (subcommand args) as [a|]; [|discriminate].
    cbn [isOneOf] in *. unfold earlyCommands in H. rewrite !key_is_app in H.
    cbn [result final events fst snd]. unfold calls.
    cbn [result final events fst snd].
    destruct (key_is a ["version"; "--version"; "-v"]) eqn:Kv.
    { apply key_is_In in Kv.
      destruct Kv as [<-|[<-|[<-|[]]]]; cbn [key_is existsb String.eqb
        Ascii.eqb Bool.eqb orb]; repeat split; auto; discriminate. }
    destruct (key_is a ["cleanup"]) eqn:Kc.
    { apply key_is_In in Kc.
      destruct Kc as [<-|[]]; cbn [key_is existsb String.eqb
        Ascii.eqb Bool.eqb orb]; repeat split; auto; discriminate. }
    destruct (key_is a ["help"; "--help"; "-h"]).
    { unfold showHelp, showHelp_cli_first.
      rewrite !bind_run, !call_run.
      cbn [ret result final events fst snd app map].
      rewrite map_app. cbn [map fst].
      repeat split; auto; discriminate. }
    destruct (key_is a ["logs"; "--logs"]); [|discriminate].
    repeat split; auto; discriminate.
  - intros Hcfg. unfold main. rewrite bind_run. fold pre.
    destruct (r_err (result pre)); [|contradiction].
    cbn [ret result final events fst snd]. rewrite app_nil_r. auto.
  - intros s0. rewrite Hlater.
    destruct (subcommand args) as [a|]; [|discriminate].
    cbn [isOneOf] in H. unfold earlyCommands in H. rewrite !key_is_app in H.
    destruct (key_is a ["version"; "--version"; "-v"]).
    { revert s0. change (Only notConfigLoad
        (call (Print ("Dev Cockpit v" ++ version ++ nl)%string) ;; ret 0)).
      only_calls. }
    destruct (key_is a ["cleanup"]).
    { revert s0. change (Only notConfigLoad (cleanup args)).
      pose proof Only_EmptyTrash_notConfigLoad.
      unfold cleanup, Println. only_calls. }
    destruct (key_is a ["help"; "--help"; "-h"]).
    { revert s0. change (Only notConfigLoad
        (showHelp_cli_first version ;; ret 0)).
      unfold showHelp_cli_first. only_calls. }
    destruct (key_is a ["logs"; "--logs"]); [|discriminate].
    revert s0. change (Only notConfigLoad
      (path <- GetLogPath ;;
       call (Print ("Log file location: " ++ path ++ nl)%string) ;; ret 0)).
    unfold GetLogPath. only_calls.
Qed.

(** X19.  [cleanup] without a subcommand, or with any word other than
    [empty-trash] and [--empty-trash]: the usage line is all that is
    printed, the exit status is 1, and nothing is looked up, counted or
    removed. *)
Theorem cleanup_usage (version : string) (args : list string) (s : St W) :
  subcommand args = Some "cleanup" ->
  invokesEmptyTrash args = false ->
  let run := main_cli_first version args s in
  result run = 1 /\
  calls run = [Print usageLine] /\
  stdout (events run) = usageLine.
Proof.
  intros Hsub Hno run. subst run.
  unfold main_cli_first. rewrite arg1_subcommand, Hsub.
  cbn [key_is existsb String.eqb Ascii.eqb Bool.eqb orb andb].
  destruct args as [|a0 [|a1 rest]]; try discriminate.
  cbn in Hsub. injection Hsub as ->.
  unfold cleanup.
  assert (Husage : forall s0 : St W,
            let u := (Println "Usage: devcockpit cleanup empty-trash" ;; ret 1) s0 in
            result u = 1 /\ calls u = [Print usageLine] /\
            stdout (events u) = usageLine).
  { intros s0 u. subst u. unfold Println, calls.
    rewrite !bind_run, call_run.
    cbn [ret result final events fst snd app map stdout].
    rewrite append_empty_r. auto. }
  destruct rest as [|sub rest].
  - cbn. apply Husage.
  - assert (Hlen : (2 <? len (a0 :: "cleanup" :: sub :: rest))%Z = true).
    { apply Z.ltb_lt. rewrite !len_cons. pose proof (len_nonneg rest). lia. }
    rewrite Hlen. cbn [index Z.ltb Z.compare].
    change (Z.to_nat 2) with 2%nat. cbn [nth_error].
    cbn [invokesEmptyTrash String.eqb Ascii.eqb Bool.eqb andb] in Hno.
    rewrite Hno. apply Husage.
Qed.

Lemma debugFlag_unflagged (b : bool) (post : list string) :
  ~ In "--debug" post -> ~ In "--no-debug" post ->
  fold_left
    (fun debugMode arg =>
       if String.eqb arg "--debug" then true
       else if String.eqb arg "--no-debug" then false
       else debugMode) post b = b.
Proof.
  revert b. induction post as [|a post IH]; intros b H1 H2; [reflexivity|].
  cbn [fold_left].
  destruct (String.eqb_spec a "--debug") as [->|_]; [elim H1; now left|].
  destruct (String.eqb_spec a "--no-debug") as [->|_]; [elim H2; now left|].
  apply IH; intros H; [apply H1|apply H2]; now right.
Qed.

(** X20.  Of the flags [--debug] and [--no-debug] the last one on the command
    line decides, wherever it stands, also after a subcommand; other
    words do not matter, and without either flag debug logging is off. *)
Theorem debug_flag_last_wins (pre post : list string) :
  ~ In "--debug" post -> ~ In "--no-debug" post ->
  debugFlag (pre ++ "--debug" :: post) = true /\
  debugFlag (pre ++ "--no-debug" :: post) = false /\
  debugFlag post = false /\
  debugFlag (pre ++ post) = debugFlag pre.
Proof.
  intros H1 H2. unfold debugFlag. rewrite !fold_left_app. cbn [fold_left].
  cbn [String.eqb Ascii.eqb Bool.eqb].
  rewrite !debugFlag_unflagged by assumption. auto.
Qed.

End CommandLine.

Section CommandLineRuns.
#[local] Existing Instance Reference.ascii_lib.
#[local] Existing Instance Reference.scripted.

(** [devcockpit version]: main.go prints its banner first, the later
    revision the version line alone.  [devcockpit help]: each revision
    prints its own help text. *)
Lemma later_main_skips_startup_witness :
  let s := Reference.start [] EmptyString in
  (let args := ["devcockpit"; "version"] in
   devcockpit.stdout (events (devcockpit.main_cli_first "1.0" args s)) =
     ("Dev Cockpit v1.0" ++ nl)%string /\
   events (devcockpit.main "1.0" args s) =
     events (devcockpit.startup args s) ++
     events (devcockpit.main_cli_first "1.0" args
               (final (devcockpit.startup args s)))) /\
  (let args := ["devcockpit"; "help"] in
   calls (devcockpit.main_cli_first "1.0" args
            (final (devcockpit.startup args s))) =
     [Print (devcockpit.helpText_cli_first "1.0")] /\
   calls (devcockpit.main "1.0" args s) =
     calls (devcockpit.startup args s) ++ [Print (devcockpit.helpText "1.0")]).
Proof.
  intros s. split.
  - intros args. split; [reflexivity|].
    assert (H : Traces.isOneOf Traces.earlyCommands (Traces.subcommand args)
                = true) by reflexivity.
    assert (Hcfg : r_err (result (devcockpit.startup args s)) = None)
      by reflexivity.
    destruct (proj1 (later_main_skips_startup "1.0" args s H) Hcfg)
      as (_ & Hsame & _).
    exact (proj2 (Hsame eq_refl)).
  - intros args.
    assert (H : Traces.isOneOf Traces.earlyCommands (Traces.subcommand args)
                = true) by reflexivity.
    assert (Hcfg : r_err (result (devcockpit.startup args s)) = None)
      by reflexivity.
    destruct (proj1 (later_main_skips_startup "1.0" args s H) Hcfg)
      as (_ & _ & Hhelp).
    destruct (Hhelp eq_refl) as (_ & Hearly & Hlater & _).
    split; [exact Hlater|exact Hearly].
Defined.

(** [devcockpit cleanup downloads] is answered with the usage line. *)
Lemma cleanup_usage_witness :
  let args := ["devcockpit"; "cleanup"; "downloads"] in
  let run := devcockpit.main_cli_first "1.0" args
               (Reference.start [] EmptyString) in
  result run = 1 /\ devcockpit.stdout (events run) = Traces.usageLine.
Proof.
  intros args run.
  assert (H1 : Traces.subcommand args = Some "cleanup") by reflexivity.
  assert (H2 : Observe.invokesEmptyTrash args = false) by reflexivity.
  destruct (cleanup_usage "1.0" args (Reference.start [] EmptyString) H1 H2)
    as (Hr & _ & Hout).
  split; [exact Hr|exact Hout].
Defined.

(** [devcockpit --debug cleanup empty-trash --no-debug]. *)
Lemma debug_flag_last_wins_witness :
  devcockpit.debugFlag
    (["devcockpit"; "--debug"; "cleanup"; "empty-trash"] ++
     "--no-debug" :: []) = false.
Proof.
  assert (H1 : ~ In "--debug" (@nil string)) by (intros []).
  assert (H2 : ~ In "--no-debug" (@nil string)) by (intros []).
  exact (proj1 (proj2 (debug_flag_last_wins
    ["devcockpit"; "--debug"; "cleanup"; "empty-trash"] [] H1 H2))).
Defined.

End CommandLineRuns.

Section FormatBytes.
Import cleanup.

Lemma scale_more (k fuel : nat) (n div exp : Z) :
  n < 1024 ^ Z.of_nat fuel ->
  scale (fuel + k) n div exp = scale fuel n div exp.
Proof.
  revert n div exp. induction fuel as [|fuel IH]; intros n div exp Hn.
  - cbn [Nat.add scale]. change (1024 ^ Z.of_nat 0) with 1 in Hn.
    destruct k; [reflexivity|]. cbn [scale].
    destruct (Z.leb_spec 1024 n); [lia|reflexivity].
  - cbn [Nat.add scale]. destruct (Z.leb_spec 1024 n); [|reflexivity].
    apply IH. rewrite Nat2Z.inj_succ, Z.pow_succ_r in Hn by lia.
    apply Z.div_lt_upper_bound; lia.
Qed.

Lemma scale_spec (bytes : Z) (fuel : nat) :
  0 <= bytes < 2 ^ 64 ->
  forall e n,
    0 <= e -> e + Z.of_nat fuel <= 100 ->
    n = bytes / 1024 ^ (e + 1) -> 1 <= n -> n < 1024 ^ Z.of_nat fuel ->
    exists exp,
      scale fuel n (1024 ^ (e + 1)) e = (1024 ^ (exp + 1), exp) /\
      e <= exp /\
      1024 ^ (exp + 1) <= bytes < 1024 * 1024 ^ (exp + 1).
Proof.
  intros Hb. induction fuel as [|fuel IH]; intros e n He Hf Hn H1 Hlt.
  - change (1024 ^ Z.of_nat 0) with 1 in Hlt. lia.
  - assert (Hpos : 0 < 1024 ^ (e + 1)) by (apply Z.pow_pos_nonneg; lia).
    pose proof (Z.mul_div_le bytes (1024 ^ (e + 1)) Hpos) as Hle.
    pose proof (Z.mul_succ_div_gt bytes (1024 ^ (e + 1)) Hpos) as Hgt.
    rewrite <- Hn in Hle, Hgt.
    cbn [scale]. destruct (Z.leb_spec 1024 n) as [Hbig|Hsmall].
    + assert (Hpow : 1024 ^ (e + 1) * 1024 = 1024 ^ (e + 1 + 1)).
      { rewrite (Z.pow_add_r 1024 (e + 1) 1) by lia. reflexivity. }
      assert (Hu : u64 (1024 ^ (e + 1) * 1024) = 1024 ^ (e + 1 + 1)).
      { unfold u64. rewrite Z.mod_small; [exact Hpow|]. nia. }
      assert (Ha : Go.add e 1 = e + 1).
      { unfold Go.add, wrap. rewrite Z.mod_small by lia. lia. }
      rewrite Hu, Ha.
      destruct (IH (e + 1) (n / 1024)) as (exp & Hs & Hexp & Hbounds).
      * lia.
      * rewrite Nat2Z.inj_succ in Hf. lia.
      * rewrite Hn, <- Hpow. rewrite Z.div_div by lia. reflexivity.
      * apply Z.div_le_lower_bound; lia.
      * rewrite Nat2Z.inj_succ, Z.pow_succ_r in Hlt by lia.
        apply Z.div_lt_upper_bound; lia.
      * exists exp. split; [exact Hs|]. split; [lia|exact Hbounds].
    + exists e. split; [reflexivity|]. split; [lia|]. nia.
Qed.

Lemma roundHalfEven_bounds (num den : Z) :
  0 <= num -> 0 < den ->
  num / den <= roundHalfEven num den <= num / den + 1 /\
  (num mod den = 0 -> roundHalfEven num den = num / den).
Proof.
  intros Hn Hd. unfold roundHalfEven.
  pose proof (Z.mod_pos_bound num den Hd) as Hr.
  split.
  - destruct (den <? 2 * (num mod den))%Z; [lia|].
    destruct (2 * (num mod den) =? den)%Z; [|lia].
    destruct (Z.even (num / den)); lia.
  - intros H0. rewrite H0.
    destruct (Z.ltb_spec den (2 * 0)); [lia|].
    destruct (Z.eqb_spec (2 * 0) den); [lia|reflexivity].
Qed.

(** Rounding to [float64] does not cross a power of two. *)
Lemma float64_of_uint64_bounds (n a b : Z) :
  0 < n -> 0 <= a -> 0 <= b -> 2 ^ a <= n -> n <= 2 ^ b ->
  2 ^ a <= float64_of_uint64 n <= 2 ^ b.
Proof.
  intros Hn Ha Hb Hlo Hhi. unfold float64_of_uint64.
  destruct (Z.ltb_spec n (2 ^ 53)) as [Hs|Hbig]; [lia|]. cbv zeta.
  pose proof (Z.log2_spec n Hn) as [Hl1 Hl2].
  assert (H53 : 53 <= Z.log2 n).
  { apply Z.log2_le_pow2; [lia|exact Hbig]. }
  set (e := Z.log2 n - 52) in *.
  assert (He : 1 <= e) by (subst e; lia).
  assert (Hpe : 0 < 2 ^ e) by (apply Z.pow_pos_nonneg; lia).
  assert (Hlog : Z.log2 n = e + 52) by (subst e; lia).
  rewrite Hlog in Hl1. replace (Z.succ (Z.log2 n)) with (e + 53) in Hl2 by lia.
  rewrite (Z.pow_add_r 2 e 52) in Hl1 by lia.
  rewrite (Z.pow_add_r 2 e 53) in Hl2 by lia.
  destruct (roundHalfEven_bounds n (2 ^ e) ltac:(lia) Hpe) as [[Hq1 Hq2] Hex].
  assert (Hq : 2 ^ 52 <= n / 2 ^ e < 2 ^ 53).
  { split.
    - apply Z.div_le_lower_bound; lia.
    - apply Z.div_lt_upper_bound; lia. }
  assert (Hale : a <= e + 52).
  { rewrite <- Hlog. apply Z.log2_le_pow2; lia. }
  assert (Hpa : 2 ^ a <= 2 ^ e * 2 ^ 52).
  { rewrite <- Z.pow_add_r by lia. apply Z.pow_le_mono_r; lia. }
  split; [nia|].
  destruct (Z.eq_dec n (2 ^ b)) as [->|Hne].
  - (* a power of two is exact *)
    assert (Hbe : b = e + 52).
    { rewrite <- Hlog. symmetry. apply Z.log2_pow2. lia. }
    assert (Hmod : 2 ^ b mod 2 ^ e = 0).
    { rewrite Hbe, Z.pow_add_r by lia. rewrite Z.mul_comm.
      apply Z.mod_mul. lia. }
    rewrite (Hex Hmod), Hbe, Z.pow_add_r by lia.
    rewrite (Z.mul_comm (2 ^ e) (2 ^ 52)), Z.div_mul by lia. lia.
  - assert (Hlt : n < 2 ^ b) by lia.
    assert (Hble : e + 53 <= b).
    { apply Z.log2_lt_pow2 in Hlt; lia. }
    assert (Hpb : 2 ^ e * 2 ^ 53 <= 2 ^ b).
    { rewrite <- Z.pow_add_r by lia. apply Z.pow_le_mono_r; lia. }
    nia.
Qed.

Lemma pow_1024 (k : Z) : 0 <= k -> 1024 ^ k = 2 ^ (10 * k).
Proof. intros H. rewrite Z.pow_mul_r by lia. reflexivity. Qed.

Lemma hundredths_bounds (f div : Z) :
  0 < div -> div <= f <= 1024 * div ->
  100 <= hundredths f div <= 102400.
Proof.
  intros Hd Hf. unfold hundredths.
  destruct (roundHalfEven_bounds (100 * f) div ltac:(lia) Hd) as [[H1 H2] Hex].
  assert (Hq1 : 100 <= 100 * f / div) by (apply Z.div_le_lower_bound; lia).
  split; [lia|].
  destruct (Z.eq_dec f (1024 * div)) as [->|Hne].
  - assert (E : 100 * (1024 * div) = 102400 * div) by lia.
    rewrite E in *. rewrite Z.mod_mul in Hex by lia.
    rewrite (Hex eq_refl), Z.div_mul; lia.
  - assert (100 * f / div < 102400)
      by (apply Z.div_lt_upper_bound; lia).
    lia.
Qed.

(** X21.  [formatBytes] never indexes past the six unit letters, and its loop
    needs at most six rounds: for every [uint64] from 1024 on it returns
    the quotient of [float64(bytes)] by [div], rounded to two decimals,
    followed by the letter of [exp], where [div] is the largest power of
    1024 that is at most [bytes] and [exp], between 0 and 5, is that power
    less one.  The number shown lies between 1.00 and 1024.00, both
    included; below 2^53 the conversion to [float64] is exact.  Below
    1024 the result is the plain count followed by B. *)
Theorem format_bytes_picks_unit (bytes : Z) :
  0 <= bytes < 2 ^ 64 ->
  (bytes < 1024 ->
     formatBytes bytes = Some (itoa bytes ++ " B")%string) /\
  (1024 <= bytes ->
     exists exp letter,
       0 <= exp <= 5 /\
       nth_error ["K"; "M"; "G"; "T"; "P"; "E"] (Z.to_nat exp) = Some letter /\
       1024 ^ (exp + 1) <= bytes < 1024 * 1024 ^ (exp + 1) /\
       formatBytes bytes =
         Some (Sprintf_2f (float64_of_uint64 bytes) (1024 ^ (exp + 1)) ++
               " " ++ letter ++ "B")%string /\
       100 <= hundredths (float64_of_uint64 bytes) (1024 ^ (exp + 1))
           <= 102400 /\
       (bytes < 2 ^ 53 -> float64_of_uint64 bytes = bytes) /\
       forall k, scale (7 + k) (bytes / 1024) 1024 0 =
                 (1024 ^ (exp + 1), exp)).
Proof.
  intros Hb. unfold formatBytes. split.
  - intros Hs. destruct (Z.ltb_spec bytes 1024); [reflexivity|lia].
  - intros Hl. destruct (Z.ltb_spec bytes 1024); [lia|].
    destruct (scale_spec bytes 7 Hb 0 (bytes / 1024)) as (exp & Hs & He & Hbd).
    + lia.
    + cbn; lia.
    + reflexivity.
    + apply Z.div_le_lower_bound; lia.
    + apply Z.div_lt_upper_bound; [lia|].
      change (1024 ^ Z.of_nat 7) with 1180591620717411303424.
      change (2 ^ 64) with 18446744073709551616 in Hb. lia.
    + change (1024 ^ (0 + 1)) with 1024 in Hs.
      assert (Hexp : exp <= 5).
      { destruct (Z_le_gt_dec exp 5) as [|Hgt]; [assumption|exfalso].
        assert (1024 ^ 7 <= 1024 ^ (exp + 1))
          by (apply Z.pow_le_mono_r; lia).
        change (1024 ^ 7) with 1180591620717411303424 in *.
        change (2 ^ 64) with 18446744073709551616 in Hb. lia. }
      assert (Hcases : exp = 0 \/ exp = 1 \/ exp = 2 \/ exp = 3 \/ exp = 4 \/
                       exp = 5) by lia.
      rewrite Hs.
      assert (Hletter : exists letter,
                nth_error ["K"; "M"; "G"; "T"; "P"; "E"] (Z.to_nat exp) =
                  Some letter /\ unitLetter exp = Some letter).
      { repeat (destruct Hcases as [->|Hcases]); try subst exp;
          eexists; split; reflexivity. }
      destruct Hletter as (letter & Hn & Hu).
      exists exp, letter. rewrite Hu.
      split; [lia|]. split; [exact Hn|]. split; [exact Hbd|].
      split; [reflexivity|]. split; [|split].
      * assert (Hdiv : 0 < 1024 ^ (exp + 1)) by (apply Z.pow_pos_nonneg; lia).
        apply hundredths_bounds; [exact Hdiv|].
        replace (1024 * 1024 ^ (exp + 1)) with (1024 ^ (exp + 1 + 1)) in *
          by (rewrite (Z.pow_add_r 1024 (exp + 1) 1) by lia; lia).
        rewrite !pow_1024 in * by lia.
        apply float64_of_uint64_bounds; lia.
      * intros Hsmall. unfold float64_of_uint64.
        destruct (Z.ltb_spec bytes (2 ^ 53)); [reflexivity|lia].
      * intros k. rewrite scale_more; [exact Hs|].
        apply Z.div_lt_upper_bound; [lia|].
        change (1024 ^ Z.of_nat 7) with 1180591620717411303424.
        change (2 ^ 64) with 18446744073709551616 in Hb. lia.
Qed.

(** The rounding at work: one byte short of a mebibyte shows as 1024.00 KB,
    and the largest [uint64] as 16.00 EB. *)
Example format_bytes_shows_1024 :
  formatBytes 1048575 = Some "1024.00 KB" /\
  formatBytes 1536 = Some "1.50 KB" /\
  formatBytes 1029 = Some "1.00 KB" /\
  formatBytes 5368709120 = Some "5.00 GB" /\
  formatBytes (2 ^ 64 - 1) = Some "16.00 EB" /\
  float64_of_uint64 (2 ^ 53 + 1) = 2 ^ 53 /\
  float64_of_uint64 (2 ^ 53 + 3) = 2 ^ 53 + 4.
Proof. vm_compute. repeat split. Qed.

(** Five gibibytes. *)
Lemma format_bytes_picks_unit_witness :
  exists exp letter,
    0 <= exp <= 5 /\
    formatBytes 5368709120 =
      Some (Sprintf_2f 5368709120 (1024 ^ (exp + 1)) ++ " " ++ letter ++ "B")%string /\
    100 <= hundredths 5368709120 (1024 ^ (exp + 1)) <= 102400.
Proof.
  assert (Hb : 0 <= 5368709120 < 2 ^ 64)
    by (vm_compute; split; [discriminate|reflexivity]).
  assert (Hl : 1024 <= 5368709120) by (vm_compute; discriminate).
  destruct (proj2 (format_bytes_picks_unit 5368709120 Hb) Hl)
    as (exp & letter & He & _ & _ & H & Hh & Hex & _).
  rewrite Hex in H, Hh by (vm_compute; reflexivity).
  exists exp, letter. split; [exact He|]. split; [exact H|exact Hh].
Defined.

End FormatBytes.

Section Layout.
Import components.

Lemma wrap_small (z : Z) : in_int z -> wrap z = z.
Proof.
  unfold in_int, int_min, int_max, wrap. intros H.
  rewrite Z.mod_small by lia. lia.
Qed.

(** X22.  Whatever the terminal size, a layout keeps its minimum content area
    of 40 by 10 and a box its minimum interior of 10 by 3; a terminal of
    at least 44 by 19 gets its width less 4 and its height less 9.
    [WithHint] sets the hint height to 3 but computes the content height
    from the hint height of the layout it is called on: on a layout fresh
    from [NewLayout] the content height stays what it was, and only a
    second [WithHint] takes the three rows off. *)
Theorem layout_minimums (width height : Z) :
  let l := NewLayout width height in
  40 <= ContentWidth l /\ 10 <= ContentHeight l /\
  (44 <= width <= int_max -> ContentWidth l = width - 4) /\
  (19 <= height <= int_max -> ContentHeight l = height - 9) /\
  HintHeight (WithHint l) = 3 /\
  ContentHeight (WithHint l) = ContentHeight l /\
  ContentWidth (WithHint l) = ContentWidth l /\
  (22 <= height <= int_max ->
     ContentHeight (WithHint (WithHint l)) = ContentHeight l - 3) /\
  (forall ow oh px py border,
     10 <= InnerWidth (CalculateBoxDimensions ow oh px py border) /\
     3 <= InnerHeight (CalculateBoxDimensions ow oh px py border)).
Proof.
  intros l. subst l. unfold NewLayout, WithHint.
  cbn [ContentWidth ContentHeight HintHeight Height TabsHeight FooterHeight
       Width].
  repeat split.
  - destruct (Z.ltb_spec (Go.sub width 4) 40); lia.
  - destruct (Z.ltb_spec (Go.sub (Go.sub (Go.sub height 4) 3) 2) 10); lia.
  - intros H. unfold Go.sub. rewrite wrap_small
      by (unfold in_int, int_min, int_max in *; lia).
    destruct (Z.ltb_spec (width - 4) 40); lia.
  - intros H. unfold Go.sub. unfold int_max in H.
    rewrite (wrap_small (height - 4)) by (unfold in_int, int_min, int_max; lia).
    rewrite (wrap_small (height - 4 - 3)) by (unfold in_int, int_min, int_max; lia).
    rewrite (wrap_small (height - 4 - 3 - 2)) by (unfold in_int, int_min, int_max; lia).
    destruct (Z.ltb_spec (height - 4 - 3 - 2) 10); lia.
  - assert (E : Go.sub (Go.sub (Go.sub height 4) 3) 0 =
                Go.sub (Go.sub height 4) 3).
    { unfold Go.sub at 1. rewrite Z.sub_0_r. unfold Go.sub at 1.
      unfold wrap.
      pose proof (Z.mod_pos_bound (Go.sub height 4 - 3 + 2 ^ 63) (2 ^ 64)
                    ltac:(lia)).
      rewrite (Z.mod_small (_ - 2 ^ 63 + 2 ^ 63)) by lia.
      unfold Go.sub at 2. unfold wrap. lia. }
    rewrite E. reflexivity.
  - intros H. unfold Go.sub. unfold int_max in H.
    rewrite (wrap_small (height - 4)) by (unfold in_int, int_min, int_max; lia).
    rewrite (wrap_small (height - 4 - 3)) by (unfold in_int, int_min, int_max; lia).
    rewrite (wrap_small (height - 4 - 3 - 2)) by (unfold in_int, int_min, int_max; lia).
    rewrite (wrap_small (height - 4 - 3 - 3)) by (unfold in_int, int_min, int_max; lia).
    rewrite (wrap_small (height - 4 - 3 - 3 - 2)) by (unfold in_int, int_min, int_max; lia).
    destruct (Z.ltb_spec (height - 4 - 3 - 3 - 2) 10); [lia|].
    destruct (Z.ltb_spec (height - 4 - 3 - 2) 10); lia.
  - unfold CalculateBoxDimensions. cbn [InnerWidth].
    destruct (Z.ltb_spec
                (Go.sub (Go.sub ow (if border then 2 else 0)) (mul px 2)) 10);
      lia.
  - unfold CalculateBoxDimensions. cbn [InnerHeight].
    destruct (Z.ltb_spec
                (Go.sub (Go.sub oh (if border then 2 else 0)) (mul py 2)) 3);
      lia.
Qed.

(** X23.  [SplitHorizontal] answers a column count of zero or less with no
    columns at all, and otherwise with exactly that many columns of one
    common width of at least 20.  When the content area is wide enough
    for 20 per column plus the spacing, the columns and the spacing
    between them fit into the content width and waste less than one cell
    per column. *)
Theorem split_horizontal_columns (l : Layout) (columns spacing : Z) :
  (columns <= 0 -> SplitHorizontal l columns spacing = []) /\
  (0 < columns ->
     exists w,
       SplitHorizontal l columns spacing = repeat w (Z.to_nat columns) /\
       quickactions.len (SplitHorizontal l columns spacing) = columns /\
       20 <= w /\
       (0 <= spacing <= 2 ^ 31 -> columns <= 2 ^ 31 ->
        20 * columns + spacing * (columns - 1) <= ContentWidth l <= 2 ^ 31 ->
        columns * w + spacing * (columns - 1) <= ContentWidth l /\
        ContentWidth l < columns * (w + 1) + spacing * (columns - 1))).
Proof.
  unfold SplitHorizontal. split.
  - intros H. destruct (Z.leb_spec columns 0); [reflexivity|lia].
  - intros H. destruct (Z.leb_spec columns 0); [lia|].
    eexists. split; [reflexivity|]. split.
    { unfold quickactions.len. rewrite repeat_length. lia. }
    split.
    { match goal with
      | |- 20 <= (if (?x <? 20)%Z then _ else _) =>
          destruct (Z.ltb_spec x 20); lia
      end. }
    intros Hs Hc Hw. unfold quot, mul, Go.sub.
    change (2 ^ 31) with 2147483648 in *.
    rewrite (wrap_small (columns - 1))
      by (unfold in_int, int_min, int_max; lia).
    rewrite (wrap_small (spacing * (columns - 1)))
      by (unfold in_int, int_min, int_max; nia).
    rewrite (wrap_small (ContentWidth l - spacing * (columns - 1)))
      by (unfold in_int, int_min, int_max; nia).
    set (avail := ContentWidth l - spacing * (columns - 1)).
    assert (Ha : 20 * columns <= avail) by (subst avail; lia).
    assert (Hau : avail <= 2147483648) by (subst avail; nia).
    rewrite Z.quot_div_nonneg by lia.
    pose proof (Z.mul_div_le avail columns ltac:(lia)) as H1.
    pose proof (Z.mul_succ_div_gt avail columns ltac:(lia)) as H2.
    assert (H3 : 20 <= avail / columns)
      by (apply Z.div_le_lower_bound; lia).
    rewrite wrap_small by (unfold in_int, int_min, int_max; nia).
    destruct (Z.ltb_spec (avail / columns) 20); [lia|].
    subst avail. split; nia.
Qed.

(** Three columns with a spacing of 2 in a terminal 104 cells wide. *)
Lemma split_horizontal_columns_witness :
  quickactions.len (SplitHorizontal (NewLayout 104 40) 3 2) = 3 /\
  SplitHorizontal (NewLayout 104 40) 3 2 = [32; 32; 32].
Proof.
  assert (H : 0 < 3) by reflexivity.
  destruct (proj2 (split_horizontal_columns (NewLayout 104 40) 3 2) H)
    as (w & _ & Hlen & _).
  split; [exact Hlen|reflexivity].
Defined.

(** X24.  [TruncateString] never returns more than [width] runes.  A text that
    fits is returned as it is; a longer one is cut to exactly [width]
    runes, the last three of which are full stops when [width] is more
    than 3, after the first [width - 3] runes of the text; a width of zero
    or less gives the empty text. *)
Theorem truncate_string_fits (runes : list Z) (width : Z) :
  width <= int_max ->
  let out := TruncateString runes width in
  quickactions.len out <= Z.max 0 width /\
  (quickactions.len runes <= width -> 0 < width -> out = runes) /\
  (0 < width < quickactions.len runes ->
     quickactions.len out = width /\
     (width <= 3 -> out = firstn (Z.to_nat width) runes) /\
     (3 < width ->
        out = firstn (Z.to_nat (width - 3)) runes ++ [46; 46; 46])) /\
  (width <= 0 -> out = []).
Proof.
  intros Hw out. subst out. unfold TruncateString, quickactions.len.
  destruct (Z.leb_spec width 0) as [H0|H0].
  { cbn [List.length]. repeat split; intros; try lia; reflexivity. }
  destruct (Z.leb_spec (Z.of_nat (List.length runes)) width) as [H1|H1].
  { repeat split; intros; try lia; reflexivity. }
  destruct (Z.leb_spec width 3) as [H3|H3].
  - rewrite length_firstn.
    repeat split; intros; try lia; reflexivity.
  - unfold Go.sub. rewrite wrap_small
      by (unfold in_int, int_min, int_max in *; lia).
    rewrite length_app, length_firstn. cbn [List.length].
    repeat split; intros; try lia; reflexivity.
Qed.

(** A title of 13 runes in 8 cells. *)
Lemma truncate_string_fits_witness :
  let title := [68; 101; 118; 32; 67; 111; 99; 107; 112; 105; 116; 32; 49] in
  TruncateString title 8 =
    firstn (Z.to_nat (8 - 3)) title ++ [46; 46; 46] /\
  TruncateString title 8 = [68; 101; 118; 32; 67; 46; 46; 46].
Proof.
  intros title.
  assert (H : 8 <= int_max) by (vm_compute; discriminate).
  assert (H1 : 0 < 8 < quickactions.len title)
    by (vm_compute; split; reflexivity).
  assert (H2 : 3 < 8) by reflexivity.
  destruct (truncate_string_fits title 8 H) as (_ & _ & T & _).
  destruct (T H1) as (_ & _ & T3).
  split; [exact (T3 H2)|reflexivity].
Defined.

End Layout.


Section NetworkCursor.
Variable InterfaceStat : Type.
Import network.

(** X25.  The cursor of the network module never leaves the list of
    interfaces: if it is 0 or the index of an interface, it still is
    after any message.  A refresh that brings fewer interfaces than the
    cursor needs sends it back to 0, the up and down keys stop at the
    ends, and no message other than a refresh changes the list. *)
Theorem network_cursor_in_range (m : Model InterfaceStat)
    (msg : Msg InterfaceStat) :
  0 <= cursor m ->
  cursor m = 0 \/ cursor m < quickactions.len (ifaces m) ->
  quickactions.len (ifaces m) <= int_max ->
  let m' := fst (Update m msg) in
  0 <= cursor m' /\
  (cursor m' = 0 \/ cursor m' < quickactions.len (ifaces m')) /\
  ((forall ifs gw note, msg <> netMsg ifs gw note) -> ifaces m' = ifaces m) /\
  (forall ifs gw note, msg = netMsg ifs gw note ->
     ifaces m' = ifs /\
     cursor m' = if (quickactions.len ifs <=? cursor m)%Z then 0
                 else cursor m).
Proof.
  intros H0 H1 Hlen m'. subst m'.
  pose proof (len_nonneg (ifaces m)) as Hn. unfold int_max in Hlen.
  destruct msg as [w h|key|ifs gw note|note|]; cbn [Update].
  - cbn. repeat split; auto; discriminate.
  - destruct (quickactions.key_is key ["r"]);
      [cbn; repeat split; auto; discriminate|].
    destruct (quickactions.key_is key ["up"; "k"]).
    { destruct (Z.ltb_spec 0 (cursor m)); cbn [fst cursor ifaces].
      - unfold Go.sub. rewrite wrap_small
          by (unfold in_int, int_min, int_max; lia).
        repeat split; try lia; try discriminate; auto.
      - repeat split; auto; discriminate. }
    destruct (quickactions.key_is key ["down"; "j"]).
    { unfold Go.sub, Go.add.
      rewrite (wrap_small (quickactions.len (ifaces m) - 1))
        by (unfold in_int, int_min, int_max; lia).
      destruct (Z.ltb_spec (cursor m) (quickactions.len (ifaces m) - 1));
        cbn [fst cursor ifaces].
      - rewrite wrap_small by (unfold in_int, int_min, int_max; lia).
        repeat split; try lia; try discriminate; auto.
      - repeat split; auto; discriminate. }
    destruct (quickactions.key_is key ["p"]);
      cbn; repeat split; auto; discriminate.
  - cbn [fst cursor ifaces].
    split; [destruct (Z.leb_spec (quickactions.len ifs) (cursor m)); lia|].
    split; [destruct (Z.leb_spec (quickactions.len ifs) (cursor m));
              [left; reflexivity|right; lia]|].
    split; [intros H2; elim (H2 ifs gw note); reflexivity|].
    intros ifs' gw' note' H2. injection H2 as <- <- <-. split; reflexivity.
  - cbn. repeat split; auto; discriminate.
  - cbn. repeat split; auto; discriminate.
Qed.

End NetworkCursor.

(** Three interfaces, the cursor on the last, and a refresh that finds
    two. *)
Lemma network_cursor_in_range_witness :
  let m := network.mkModel 80 24 [1%nat; 2%nat; 3%nat] EmptyString EmptyString 2 in
  network.cursor (fst (network.Update m (network.netMsg [1%nat; 2%nat] EmptyString EmptyString))) = 0.
Proof.
  intros m.
  assert (H0 : 0 <= network.cursor m) by (vm_compute; discriminate).
  assert (H1 : network.cursor m = 0 \/
               network.cursor m < quickactions.len (network.ifaces m))
    by (right; reflexivity).
  assert (H2 : quickactions.len (network.ifaces m) <= int_max)
    by (vm_compute; discriminate).
  destruct (network_cursor_in_range nat m
              (network.netMsg [1%nat; 2%nat] EmptyString EmptyString) H0 H1 H2)
    as (_ & _ & _ & H).
  destruct (H [1%nat; 2%nat] EmptyString EmptyString eq_refl) as (_ & Hc).
  rewrite Hc. reflexivity.
Defined.


Section CleanTargets.
Context {W : Type} {O : OS W}.
Variable Sscan_uint : string -> Z.
Import cleanup Traces.

Lemma getSizeWithTimeout_run (path : string) (timeout : Z) (s : St W) :
  exists r,
    events (getSizeWithTimeout Sscan_uint path timeout s) =
      [(Exec ["du"; "-sk"; path] None (Some timeout) StdoutOnly, r)].
Proof.
  unfold getSizeWithTimeout. rewrite bind_events, call_run.
  cbn [result final events fst snd]. eexists.
  destruct (r_deadline _); [|destruct (r_err _)]; reflexivity.
Qed.

Lemma cleanTarget_run (path : string) (timeout : Z) (s : St W) :
  exists r,
    events (cleanTarget path timeout s) =
      [(Exec ["sh"; "-c"; ("rm -rf " ++ path ++ "/* 2>/dev/null")%string]
             None (Some 60000) NoCapture, r)].
Proof.
  unfold cleanTarget. rewrite bind_events, call_run.
  cbn [result final events fst snd]. eexists.
  destruct (r_deadline _); reflexivity.
Qed.

Lemma cleanTargets_run (targets : list CleanupTarget)
    (acc : list CleanupResult) (s : St W) :
  let run := cleanTargets Sscan_uint targets acc s in
  exists fresh,
    result run = acc ++ fresh /\
    map Target fresh = map Name (filter Selected targets) /\
    (forall r, In r fresh ->
       (Success r = true <-> Error_ r = None) /\ 0 <= Freed r < 2 ^ 64) /\
    (forall c, In c (calls run) ->
       exists t, In t targets /\ Selected t = true /\ concerns c t).
Proof.
  revert acc s. induction targets as [|t rest IH]; intros acc s run; subst run.
  - exists []. cbn. rewrite app_nil_r. repeat split; intros; contradiction.
  - cbn [cleanTargets filter].
    assert (Hlift : forall c,
              (exists t', In t' rest /\ Selected t' = true /\ concerns c t') ->
              exists t', In t' (t :: rest) /\ Selected t' = true /\
                         concerns c t').
    { intros c (t' & Hin & Hsel & Hc). exists t'. split; [now right|auto]. }
    destruct (Selected t) eqn:Hsel; cbn [negb].
    2:{ destruct (IH acc s) as (fresh & H1 & H2 & H3 & H4).
        exists fresh. split; [exact H1|]. split; [exact H2|].
        split; [exact H3|]. intros c Hc. apply Hlift, H4, Hc. }
    rewrite bind_run, call_run. cbn [result final events fst snd].
    set (st := fst (sys (Stat (Path t)) (world s))).
    set (s1 := mkSt _ _).
    assert (Hstat : concerns (Stat (Path t)) t) by (left; reflexivity).
    destruct (IsNotExist (err_of st)).
    + destruct (IH (acc ++ [mkResult (Name t) true 0 None]) s1)
        as (fresh & H1 & H2 & H3 & H4).
      exists (mkResult (Name t) true 0 None :: fresh).
      rewrite H1, <- app_assoc. cbn [map app Target].
      rewrite H2. split; [reflexivity|]. split; [reflexivity|]. split.
      * intros r [<-|Hr]; [cbn|apply H3; assumption].
        split; [split; reflexivity|lia].
      * unfold calls. cbn [events snd map fst].
        intros c [<-|Hc]; [exists t; split; [now left|auto]|].
        apply Hlift, H4, Hc.
    + rewrite bind_run.
      destruct (getSizeWithTimeout_run (Path t) (Timeout t) s1) as (rb & Hb).
      set (before := getSizeWithTimeout Sscan_uint (Path t) (Timeout t) s1) in *.
      rewrite bind_run.
      destruct (cleanTarget_run (Path t) (Timeout t) (final before))
        as (rc & Hc).
      set (clean := cleanTarget (Path t) (Timeout t) (final before)) in *.
      cbn [result final events fst snd].
      rewrite bind_run.
      set (after := match result clean with
                    | Some _ => ret 0
                    | None => getSizeWithTimeout Sscan_uint (Path t) (Timeout t)
                    end (final clean)).
      assert (Ha : events after = [] \/
                   exists ra, events after =
                     [(Exec ["du"; "-sk"; Path t] None (Some (Timeout t))
                            StdoutOnly, ra)]).
      { subst after. destruct (result clean); [left; reflexivity|right].
        apply getSizeWithTimeout_run. }
      cbn [result final events fst snd].
      set (r := mkResult (Name t) _ _ _).
      destruct (IH (acc ++ [r]) (final after)) as (fresh & H1 & H2 & H3 & H4).
      exists (r :: fresh).
      rewrite H1, <- app_assoc. cbn [map app Target].
      rewrite H2. split; [reflexivity|]. split; [reflexivity|]. split.
      * intros r' [<-|Hr]; [|apply H3; assumption].
        subst r. cbn [Success Error_ Freed]. split.
        -- destruct (result clean); split; congruence.
        -- unfold u64. apply Z.mod_pos_bound. lia.
      * unfold calls. cbn [events snd]. rewrite Hb, Hc.
        intros c Hin. cbn [map fst app] in Hin.
        destruct Hin as [<-|[<-|[<-|Hin]]].
        -- exists t. split; [now left|auto].
        -- exists t. split; [now left|]. split; [assumption|].
           right; left; reflexivity.
        -- exists t. split; [now left|]. split; [assumption|].
           right; right; reflexivity.
        -- rewrite map_app in Hin.
           apply in_app_or in Hin. destruct Hin as [Hin|Hin].
           ++ destruct Ha as [Ha|[ra Ha]]; rewrite Ha in Hin;
                [contradiction|].
              destruct Hin as [<-|[]].
              exists t. split; [now left|]. split; [assumption|].
              right; left; reflexivity.
           ++ apply Hlift, H4, Hin.
Qed.

(** X26.  The cleanup run touches only what was selected.  It reports one
    result per selected target, in the order of the targets and under the
    target's name, and none for a target that is not selected; every call
    it makes is the [os.Stat], the [du -sk] or the [rm -rf] of the
    directory of a selected target, and the [rm -rf] always runs under a
    deadline of 60 seconds, whatever the target's own timeout.  A result
    counts as success exactly when it carries no error, and the bytes
    freed are a [uint64]. *)
Theorem cleanup_touches_only_selected (targets : list CleanupTarget)
    (s : St W) :
  let run := cleanTargets Sscan_uint targets [] s in
  map Target (result run) = map Name (filter Selected targets) /\
  (forall c, In c (calls run) ->
     exists t, In t targets /\ Selected t = true /\ concerns c t) /\
  (forall r, In r (result run) ->
     (Success r = true <-> Error_ r = None) /\ 0 <= Freed r < 2 ^ 64).
Proof.
  intros run. subst run.
  destruct (cleanTargets_run targets [] s) as (fresh & H1 & H2 & H3 & H4).
  cbv zeta in *. rewrite H1. cbn [app]. auto.
Qed.

End CleanTargets.

Section ActiveInterface.
Context {L : Lib} {W : Type} {O : OS W}.
Import quickactions Observe Traces.

(** The loop probes the names in order and stops at the first success. *)
Lemma firstWithoutError_Probes (probe : string -> M W (option error))
    (call : string -> Call) :
  (forall x s, exists r w e,
     sys (call x) (world s) = (r, w) /\
     probe x s = (if succeeded r then None else Some e,
                  mkSt w (cachedPassword s), [(call x, r)])) ->
  forall xs s,
    Probes call xs (events (firstWithoutError probe xs s))
                   (result (firstWithoutError probe xs s)).
Proof.
  intros Hp. induction xs as [|x rest IH]; intros s.
  - constructor.
  - cbn [firstWithoutError]. rewrite bind_run.
    destruct (Hp x s) as (r & w & e & _ & ->).
    cbn [result final events fst snd].
    destruct (succeeded r) eqn:S.
    + cbn. apply Probes_found. exact S.
    + cbn [app]. apply Probes_next; [exact S|apply IH].
Qed.

Lemma Probes_In (call : string -> Call) (xs : list string)
    (evs : list Event) (x : string) :
  Probes call xs evs (Some x) -> In x xs.
Proof.
  intros H. remember (Some x) as found eqn:F.
  induction H; [discriminate|injection F as <-; now left|right; auto].
Qed.

Lemma getActiveNetworkInterface_shape (s : St W) :
  let run := getActiveNetworkInterface s in
  exists route rest,
    fst (sys routeCall (world s)) = route /\
    events run = (routeCall, route) :: rest /\
    match routed route with
    | Some iface => result run = iface /\ rest = []
    | None =>
        exists tried found,
          Probes ifconfigCall ["en0"; "en1"; "en2"] tried found /\
          match found with
          | Some iface => result run = iface /\ rest = tried
          | None =>
              exists asked known,
                Probes getinfoCall ["Wi-Fi"; "Ethernet"; "en0"; "en1"]
                       asked known /\
                rest = tried ++ asked /\
                result run = match known with
                             | Some service => service
                             | None => "en0"
                             end
          end
    end.
Proof.
  intros run. subst run. unfold getActiveNetworkInterface. cbv zeta.
  unfold runShellWithTimeoutOutput.
  rewrite bind_assoc, bind_run, call_run.
  cbn [result final events fst snd].
  change (Exec _ None _ Combined) with routeCall.
  set (r := fst (sys routeCall (world s))). set (s1 := mkSt _ _).
  clearbody s1.
  pose proof (firstWithoutError_Probes
                (fun iface =>
                   runShellWithTimeout shortCommandTimeout
                     ("ifconfig " ++ iface ++
                      " 2>/dev/null | grep -q 'status: active'"))
                ifconfigCall
                (fun x s0 => runShellWithTimeout_triple _ _ s0)
                ["en0"; "en1"; "en2"]) as P1.
  pose proof (firstWithoutError_Probes
                (fun service =>
                   runCommandWithTimeout shortCommandTimeout
                     "networksetup" ["-getinfo"; service])
                getinfoCall
                (fun x s0 => runCommandWithTimeout_triple _ _ _ s0)
                ["Wi-Fi"; "Ethernet"; "en0"; "en1"]) as P2.
  (* the two loops, run from the state the route command left *)
  assert (Hfallback :
    forall k : M W string,
      k = (found <- firstWithoutError
                 (fun iface =>
                    runShellWithTimeout shortCommandTimeout
                      ("ifconfig " ++ iface ++
                       " 2>/dev/null | grep -q 'status: active'")%string)
                 ["en0"; "en1"; "en2"] ;;
           match found with
           | Some iface => ret iface
           | None =>
               found' <- firstWithoutError
                           (fun service =>
                              runCommandWithTimeout shortCommandTimeout
                                "networksetup" ["-getinfo"; service])
                           ["Wi-Fi"; "Ethernet"; "en0"; "en1"] ;;
               match found' with
               | Some service => ret service
               | None => ret "en0"
               end
           end) ->
      exists tried found,
        Probes ifconfigCall ["en0"; "en1"; "en2"] tried found /\
        match found with
        | Some iface => result (k s1) = iface /\ events (k s1) = tried
        | None =>
            exists asked known,
              Probes getinfoCall ["Wi-Fi"; "Ethernet"; "en0"; "en1"]
                     asked known /\
              events (k s1) = tried ++ asked /\
              result (k s1) = match known with
                              | Some service => service
                              | None => "en0"
                              end
        end).
  { intros k ->. rewrite bind_run. cbn [result events fst snd].
    specialize (P1 s1).
    set (first := firstWithoutError _ _ s1) in *. clearbody first.
    exists (events first), (result first). split; [exact P1|].
    destruct (result first) as [iface|].
    - cbn. rewrite app_nil_r. auto.
    - rewrite bind_run. cbn [result events fst snd].
      specialize (P2 (final first)).
      set (second := firstWithoutError _ _ (final first)) in *.
      clearbody second.
      exists (events second), (result second). split; [exact P2|].
      destruct (result second); cbn; rewrite app_nil_r; auto. }
  destruct (Hfallback _ eq_refl) as (tried & found & Hp & Hrest).
  clear Hfallback P1 P2.
  exists r. unfold routed, succeeded.
  destruct (r_deadline r); rewrite bind_run;
    cbn [ret result final events fst snd app negb andb];
    [|unfold err_of; destruct (r_err r); cbn [option_map andb];
      [|destruct (0 <? String.length (r_out r))%nat; cbn [andb];
        [destruct (is_empty (TrimSpace (r_out r))) eqn:Et; cbn [negb]|]]].
  4: { exists []. cbn. auto. }
  all: eexists; (split; [reflexivity|]); (split; [reflexivity|]);
    exists tried, found; (split; [exact Hp|]);
    destruct found; [exact Hrest|];
    destruct Hrest as (asked & known & ? & ? & ?);
    exists asked, known; auto.
Qed.

(** X27.  [getActiveNetworkInterface] first asks the routing table.  When
    that command returned nil and its trimmed output is not empty, the
    result is the trimmed output and nothing else is run.  Otherwise en0,
    en1 and en2 are probed with [ifconfig], in this order, and the first
    whose probe returned nil is the result.  When none did, Wi-Fi,
    Ethernet, en0 and en1 are asked of [networksetup -getinfo], in this
    order, and the first that returned nil is the result; when every
    probe failed the result is en0.  In each case the result is not the
    empty string. *)
Theorem active_interface_never_empty (s : St W) :
  let run := getActiveNetworkInterface s in
  is_empty (result run) = false /\
  exists route rest,
    fst (sys routeCall (world s)) = route /\
    events run = (routeCall, route) :: rest /\
    match routed route with
    | Some iface => result run = iface /\ rest = []
    | None =>
        exists tried found,
          Probes ifconfigCall ["en0"; "en1"; "en2"] tried found /\
          match found with
          | Some iface => result run = iface /\ rest = tried
          | None =>
              exists asked known,
                Probes getinfoCall ["Wi-Fi"; "Ethernet"; "en0"; "en1"]
                       asked known /\
                rest = tried ++ asked /\
                result run = match known with
                             | Some service => service
                             | None => "en0"
                             end
          end
    end.
Proof.
  intros run. pose proof (getActiveNetworkInterface_shape s) as Hshape.
  cbv zeta in Hshape. fold run in Hshape.
  split; [|exact Hshape].
  destruct Hshape as (route & rest & _ & _ & Hcase).
  assert (Hnames : forall x, In x ["en0"; "en1"; "en2"; "Wi-Fi"; "Ethernet"] ->
                     is_empty x = false).
  { intros x [<-|[<-|[<-|[<-|[<-|[]]]]]]; reflexivity. }
  unfold routed in Hcase.
  destruct (succeeded route && _ && negb (is_empty (TrimSpace (r_out route))))%bool
    eqn:R.
  - destruct Hcase as [-> _].
    apply andb_true_iff in R. destruct R as [_ R].
    apply negb_true_iff in R. exact R.
  - destruct Hcase as (tried & found & Hp & Hcase).
    destruct found as [iface|].
    + destruct Hcase as [-> _]. apply Probes_In in Hp. apply Hnames.
      cbn in Hp. cbn. intuition.
    + destruct Hcase as (asked & known & Hq & _ & ->).
      destruct known as [service|]; [|reflexivity].
      apply Probes_In in Hq. apply Hnames. cbn in Hq. cbn. intuition.
Qed.

End ActiveInterface.
